(** * HD44780U text LCD driver (devLib/lcd.c, devLib/lcd.h)

    A shallow embedding of the driver.  C [int] values are integers of [Z];
    an [unsigned char] is a [Z] reduced modulo 256 at every conversion; a
    left shift by a bit number taken from a struct is the 32-bit shift of
    the machine ([int_shl]); the
    handle table [lcds] is a list of eight optional records (a NULL slot is
    [None]); the calls into wiringPi (digitalWrite, pinMode, delay,
    delayMicroseconds, wiringPiI2CWrite, wiringPiI2CSetup) are recorded, in
    program order, in a trace.  Dereferencing a NULL or out-of-table handle
    and reading [rowOff] outside its four entries have no defined behaviour
    in C: the embedding fails ([None]) there. *)

From Stdlib Require Import ZArith List Lia Bool.
From stdpp Require Import base numbers option list.
Import ListNotations.
Local Open Scope Z_scope.

(** ** Constants of lcd.c and lcd.h *)

Definition MAX_LCDS : Z := 8.

Definition LCD_CLEAR : Z := 0x01.
Definition LCD_HOME : Z := 0x02.
Definition LCD_ENTRY : Z := 0x04.
Definition LCD_CTRL : Z := 0x08.
Definition LCD_CDSHIFT : Z := 0x10.
Definition LCD_FUNC : Z := 0x20.
Definition LCD_CGRAM : Z := 0x40.
Definition LCD_DGRAM : Z := 0x80.

Definition LCD_ENTRY_SH : Z := 0x01.
Definition LCD_ENTRY_ID : Z := 0x02.

Definition LCD_BLINK_CTRL : Z := 0x01.
Definition LCD_CURSOR_CTRL : Z := 0x02.
Definition LCD_DISPLAY_CTRL : Z := 0x04.

Definition LCD_FUNC_F : Z := 0x04.
Definition LCD_FUNC_N : Z := 0x08.
Definition LCD_FUNC_DL : Z := 0x10.

Definition LCD_CDSHIFT_RL : Z := 0x04.

(** wiringPi.h: [#define OUTPUT 1]. *)
Definition OUTPUT : Z := 1.

(** [static const int rowOff [4]]. *)
Definition rowOff : list Z := [0x00; 0x40; 0x14; 0x54].

(** Conversion to [unsigned char]. *)
Definition uchar (z : Z) : Z := z mod 256.

(** C truth value of an [int]. *)
Definition truthy (z : Z) : bool := negb (z =? 0).

(** An [int] has 32 bits: the value of the low 32 bits of [z], read as
    two's complement. *)
Definition to_int (z : Z) : Z := (z + 2147483648) mod 4294967296 - 2147483648.

(** [a << n] on [int] operands.  For [0 <= n < 32] and [a * 2 ^ n] within
    [int] this is the value C gives it, [a * 2 ^ n].  C leaves every other
    shift undefined; the function then gives what the shift instruction
    the expression is compiled to gives on x86: the count is taken modulo
    32 and the bits that leave the word are lost, so that [1 << 31] is
    [INT_MIN] and [1 << 32] is 1. *)
Definition int_shl (a n : Z) : Z := to_int (Z.shiftl a (n mod 32)).

(** ** Data *)

(** [struct lcdDataStruct]. [dataPins] is the array [int dataPins [8]]. *)
Record lcdDataStruct := mkLcd {
  bits : Z; rows : Z; cols : Z;
  rsPin : Z; strbPin : Z;
  dataPins : list Z;
  cx : Z; cy : Z;
  i2c_fd : Z;
  backlight_bit : Z;
  backlight_state : Z
}.

(** [lcd->dataPins [i]], for the indices 0..7 the driver uses. *)
Definition dataPin (lcd : lcdDataStruct) (i : Z) : Z :=
  nth (Z.to_nat i) (dataPins lcd) 0.

Definition set_cx (lcd : lcdDataStruct) (v : Z) : lcdDataStruct :=
  mkLcd (bits lcd) (rows lcd) (cols lcd) (rsPin lcd) (strbPin lcd)
        (dataPins lcd) v (cy lcd) (i2c_fd lcd) (backlight_bit lcd)
        (backlight_state lcd).

Definition set_cy (lcd : lcdDataStruct) (v : Z) : lcdDataStruct :=
  mkLcd (bits lcd) (rows lcd) (cols lcd) (rsPin lcd) (strbPin lcd)
        (dataPins lcd) (cx lcd) v (i2c_fd lcd) (backlight_bit lcd)
        (backlight_state lcd).

Definition set_backlight_state (lcd : lcdDataStruct) (v : Z) : lcdDataStruct :=
  mkLcd (bits lcd) (rows lcd) (cols lcd) (rsPin lcd) (strbPin lcd)
        (dataPins lcd) (cx lcd) (cy lcd) (i2c_fd lcd) (backlight_bit lcd) v.

(** [struct lcd_config] of lcd.h. *)
Module Config.
Record lcd_config := mk {
  rows : Z; cols : Z;
  i2c_addr : Z;
  bits : Z;
  rs : Z; strb : Z;
  d0 : Z; d1 : Z; d2 : Z; d3 : Z;
  d4 : Z; d5 : Z; d6 : Z; d7 : Z;
  backlight : Z;
  backlight_state : Z
}.
End Config.
Abbreviation lcd_config := Config.lcd_config.

(** Calls into wiringPi, as the driver makes them. *)
Inductive event :=
| DigitalWrite (pin value : Z)
| PinMode (pin mode : Z)
| DelayMicroseconds (howLong : Z)
| Delay (howLong : Z)
| I2CWrite (fd data : Z)
| I2CSetup (devId fd : Z).

(** What the controller is handed: the argument of a [put4Command] (one
    nibble, RS low) or of a [sendDataCmd] (one byte with its RS level). *)
Inductive xfer :=
| Nibble (command : Z)
| Byte (rs data : Z).

(** The globals [lcds], [lcdControl], the static [initialised] of [lcdNew],
    and the two histories: [trace] of wiringPi calls and [bus] of transfers
    handed to the controller. *)
Record state := mkState {
  lcds : list (option lcdDataStruct);
  lcdControl : Z;
  initialised : Z;
  trace : list event;
  bus : list xfer
}.

(** Program start: zero-initialised globals, nothing sent. *)
Definition boot : state :=
  mkState (replicate 8 None) 0 0 [] [].

(** ** Transport: functions that only call wiringPi *)

Definition strobe (lcd : lcdDataStruct) : list event :=
  [ DigitalWrite (strbPin lcd) 1; DelayMicroseconds 50;
    DigitalWrite (strbPin lcd) 0; DelayMicroseconds 50 ].

(** The macro [LCD_BACKLIGHT(lcd)]. *)
Definition LCD_BACKLIGHT (lcd : lcdDataStruct) : Z :=
  if truthy (backlight_state lcd) then int_shl 1 (backlight_bit lcd) else 0.

(** [output] is the [unsigned char] parameter, already converted. *)
Definition i2c_send (lcd : lcdDataStruct) (output : Z) : list event :=
  [ I2CWrite (i2c_fd lcd)
      (Z.lor (Z.lor output (int_shl 1 (strbPin lcd))) (LCD_BACKLIGHT lcd));
    DelayMicroseconds 50;
    I2CWrite (i2c_fd lcd) (Z.lor output (LCD_BACKLIGHT lcd));
    DelayMicroseconds 50 ].

(** The loop of [marshal4Bits]: [n] rounds left, index [i]. *)
Fixpoint marshal_loop (lcd : lcdDataStruct) (n : nat) (i myData output : Z) : Z :=
  match n with
  | O => output
  | S n' =>
      marshal_loop lcd n' (i + 1)
        (uchar (Z.shiftr myData 1))
        (uchar (Z.lor output (int_shl (Z.land myData 1) (dataPin lcd i))))
  end.

Definition marshal4Bits (lcd : lcdDataStruct) (data : Z) : Z :=
  marshal_loop lcd 4 0 data 0.

(** The loops [for (i = 0 ; i < n ; ++i) { digitalWrite (dataPins [i], d & 1) ;
    d >>= 1 ; }] of [sendDataCmd] and [put4Command]. *)
Fixpoint pin_loop (lcd : lcdDataStruct) (n : nat) (i d : Z) : list event :=
  match n with
  | O => []
  | S n' =>
      DigitalWrite (dataPin lcd i) (Z.land d 1)
        :: pin_loop lcd n' (i + 1) (uchar (Z.shiftr d 1))
  end.

Definition sendDataCmd (lcd : lcdDataStruct) (data rs : Z) : list event :=
  if truthy (i2c_fd lcd) then
    i2c_send lcd
      (uchar (Z.lor (marshal4Bits lcd (Z.land (Z.shiftr data 4) 0xf))
                    (int_shl rs (rsPin lcd))))
    ++ i2c_send lcd
      (uchar (Z.lor (marshal4Bits lcd (Z.land data 0xf))
                    (int_shl rs (rsPin lcd))))
  else
    DigitalWrite (rsPin lcd) rs
      :: (if bits lcd =? 4 then
            pin_loop lcd 4 0 (Z.land (Z.shiftr data 4) 0x0F)
            ++ strobe lcd
            ++ pin_loop lcd 4 0 (Z.land data 0x0F)
          else
            pin_loop lcd 8 0 data)
      ++ strobe lcd.

Definition putCommand (lcd : lcdDataStruct) (command : Z) : list event :=
  sendDataCmd lcd command 0 ++ [Delay 2].

Definition put4Command (lcd : lcdDataStruct) (command : Z) : list event :=
  if truthy (i2c_fd lcd) then
    i2c_send lcd (marshal4Bits lcd command)
  else
    DigitalWrite (rsPin lcd) 0 :: pin_loop lcd 4 0 command ++ strobe lcd.

(** ** Driver state: a state monad with failure *)

Definition M (A : Type) : Type := state -> option (A * state).

Definition ret {A} (a : A) : M A := fun st => Some (a, st).

Definition bind {A B} (m : M A) (k : A -> M B) : M B :=
  fun st => match m st with
            | Some (a, st') => k a st'
            | None => None
            end.

Definition undefined {A} : M A := fun _ => None.

Declare Scope drv_scope.
Delimit Scope drv_scope with drv.
Notation "x <- m ;; k" := (bind m (fun x => k))
  (at level 100, m at next level, right associativity) : drv_scope.
Notation "m ;; k" := (bind m (fun _ => k))
  (at level 100, right associativity) : drv_scope.
Local Open Scope drv_scope.

(** The three ways the driver changes the state: it appends to the
    histories, it stores a struct through [lcds [fd]], it assigns
    [lcdControl]. *)
Definition sent (st : state) (evs : list event) (xs : list xfer) : state :=
  mkState (lcds st) (lcdControl st) (initialised st)
          (trace st ++ evs) (bus st ++ xs).

Definition stored (st : state) (fd : Z) (lcd : lcdDataStruct) : state :=
  mkState (<[Z.to_nat fd := Some lcd]> (lcds st)) (lcdControl st)
          (initialised st) (trace st) (bus st).

Definition controlled (st : state) (v : Z) : state :=
  mkState (lcds st) v (initialised st) (trace st) (bus st).

(** A transport function runs: its wiringPi calls and its transfers are
    appended to the histories. *)
Definition emit (evs : list event) (xs : list xfer) : M unit :=
  fun st => Some (tt, sent st evs xs).

Definition delay (howLong : Z) : M unit := emit [Delay howLong] [].

Definition run_sendDataCmd (lcd : lcdDataStruct) (data rs : Z) : M unit :=
  emit (sendDataCmd lcd data rs) [Byte rs data].

Definition run_putCommand (lcd : lcdDataStruct) (command : Z) : M unit :=
  emit (putCommand lcd command) [Byte 0 command].

Definition run_put4Command (lcd : lcdDataStruct) (command : Z) : M unit :=
  emit (put4Command lcd command) [Nibble command].

(** [lcds [fd]] followed by a dereference. *)
Definition handle (fd : Z) : M lcdDataStruct :=
  fun st =>
    if (0 <=? fd) && (fd <? MAX_LCDS) then
      match lcds st !! Z.to_nat fd with
      | Some (Some lcd) => Some (lcd, st)
      | _ => None
      end
    else None.

(** A store through the pointer [lcds [fd]]. *)
Definition assign (fd : Z) (lcd : lcdDataStruct) : M unit :=
  fun st => Some (tt, stored st fd lcd).

Definition get_lcdControl : M Z := fun st => Some (lcdControl st, st).

Definition set_lcdControl (v : Z) : M unit :=
  fun st => Some (tt, controlled st v).

(** [rowOff [y]]. *)
Definition rowOff_at (y : Z) : M Z :=
  if 0 <=? y then
    match rowOff !! Z.to_nat y with
    | Some r => ret r
    | None => undefined
    end
  else undefined.

(** ** User callable code *)

Definition lcdHome (fd : Z) : M unit :=
  lcd <- handle fd ;;
  run_putCommand lcd LCD_HOME ;;
  assign fd (set_cx (set_cy lcd 0) 0) ;;
  delay 5.

Definition lcdClear (fd : Z) : M unit :=
  lcd <- handle fd ;;
  run_putCommand lcd LCD_CLEAR ;;
  run_putCommand lcd LCD_HOME ;;
  assign fd (set_cx (set_cy lcd 0) 0) ;;
  delay 5.

(** The shared body of [lcdDisplay], [lcdCursor] and [lcdCursorBlink]. *)
Definition lcdControlBit (mask : Z) (fd state : Z) : M unit :=
  lcd <- handle fd ;;
  c <- get_lcdControl ;;
  set_lcdControl (if truthy state then Z.lor c mask
                  else Z.land c (Z.lnot mask)) ;;
  c' <- get_lcdControl ;;
  run_putCommand lcd (uchar (Z.lor LCD_CTRL c')).

Definition lcdDisplay : Z -> Z -> M unit := lcdControlBit LCD_DISPLAY_CTRL.
Definition lcdCursor : Z -> Z -> M unit := lcdControlBit LCD_CURSOR_CTRL.
Definition lcdCursorBlink : Z -> Z -> M unit := lcdControlBit LCD_BLINK_CTRL.

Definition lcdSendCommand (fd command : Z) : M unit :=
  lcd <- handle fd ;;
  run_putCommand lcd (uchar command).

Definition lcdPosition (fd x y : Z) : M unit :=
  lcd <- handle fd ;;
  if (x >? cols lcd) || (x <? 0) then ret tt
  else if (y >? rows lcd) || (y <? 0) then ret tt
  else
    r <- rowOff_at y ;;
    run_putCommand lcd (uchar (x + Z.lor LCD_DGRAM r)) ;;
    assign fd (set_cy (set_cx lcd x) y).

(** The loop of [lcdCharDef]; [data] is the array the pointer refers to. *)
Fixpoint charDef_loop (lcd : lcdDataStruct) (data : list Z) (n : nat) (i : nat) : M unit :=
  match n with
  | O => ret tt
  | S n' =>
      match data !! i with
      | Some d => run_sendDataCmd lcd (uchar d) 1 ;; charDef_loop lcd data n' (S i)
      | None => undefined
      end
  end.

Definition lcdCharDef (fd index : Z) (data : list Z) : M unit :=
  lcd <- handle fd ;;
  run_putCommand lcd (uchar (Z.lor LCD_CGRAM (Z.shiftl (Z.land index 7) 3))) ;;
  charDef_loop lcd data 8 0.

Definition lcdPutchar (fd data : Z) : M unit :=
  lcd <- handle fd ;;
  run_sendDataCmd lcd (uchar data) 1 ;;
  let lcd1 := set_cx lcd (cx lcd + 1) in
  assign fd lcd1 ;;
  if cx lcd1 =? cols lcd1 then
    let lcd2 := set_cx lcd1 0 in
    let lcd3 := set_cy lcd2 (cy lcd2 + 1) in
    let lcd4 := if cy lcd3 =? rows lcd3 then set_cy lcd3 0 else lcd3 in
    assign fd lcd4 ;;
    r <- rowOff_at (cy lcd4) ;;
    run_putCommand lcd4 (uchar (cx lcd4 + Z.lor LCD_DGRAM r))
  else ret tt.

(** [string]: the bytes at the pointer; the loop stops at the first zero. *)
Fixpoint lcdPuts (fd : Z) (string : list Z) : M unit :=
  match string with
  | [] => ret tt
  | c :: rest =>
      if c =? 0 then ret tt
      else lcdPutchar fd c ;; lcdPuts fd rest
  end.

(** [formatted]: what vsnprintf makes of the message and its arguments;
    the buffer keeps at most 1022 of its characters. *)
Definition lcdPrintf (fd : Z) (formatted : list Z) : M unit :=
  lcdPuts fd (take 1022 formatted).

(** The search loop of [lcdNew]: the first NULL slot from index [i] on,
    or -1. *)
Fixpoint find_free (table : list (option lcdDataStruct)) (i : Z) : Z :=
  match table with
  | [] => -1
  | None :: _ => i
  | Some _ :: rest => find_free rest (i + 1)
  end.

(** The pin set-up loop of [lcdNew] on the parallel transport. *)
Fixpoint init_loop (lcd : lcdDataStruct) (n : nat) (i : Z) : list event :=
  match n with
  | O => []
  | S n' =>
      DigitalWrite (dataPin lcd i) 0 :: PinMode (dataPin lcd i) OUTPUT
        :: init_loop lcd n' (i + 1)
  end.

(** What the environment decides during one call of [lcdNew]: whether
    malloc returns a block, and what wiringPiI2CSetup returns. *)
Record environment := mkEnv {
  malloc_ok : bool;
  i2c_setup : Z
}.

Definition lcdNew (config : lcd_config) (env : environment) : M Z :=
  fun st0 =>
    let st :=
      if initialised st0 =? 0 then
        mkState (replicate (Z.to_nat MAX_LCDS) None) (lcdControl st0) 1
                (trace st0) (bus st0)
      else st0 in
    if negb ((Config.bits config =? 4) || (Config.bits config =? 8)) then
      Some (-1, st)
    else if (Config.rows config <? 0) || (Config.rows config >? 20) then
      Some (-1, st)
    else if (Config.cols config <? 0) || (Config.cols config >? 20) then
      Some (-1, st)
    else
      let lcdFd := find_free (lcds st) 0 in
      if lcdFd =? -1 then Some (-1, st)
      else if negb (malloc_ok env) then Some (-1, st)
      else
        let fd := if truthy (Config.i2c_addr config) then i2c_setup env else 0 in
        let lcd :=
          mkLcd (Config.bits config) (Config.rows config) (Config.cols config)
                (Config.rs config) (Config.strb config)
                [ Config.d0 config; Config.d1 config; Config.d2 config;
                  Config.d3 config; Config.d4 config; Config.d5 config;
                  Config.d6 config; Config.d7 config ]
                0 0 fd
                (Config.backlight config) (Config.backlight_state config) in
        ((if truthy (Config.i2c_addr config)
          then emit [I2CSetup (Config.i2c_addr config) (i2c_setup env)] []
          else ret tt) ;;
         assign lcdFd lcd ;;
         (if truthy (i2c_fd lcd) then
            emit [I2CWrite (i2c_fd lcd) (LCD_BACKLIGHT lcd)] []
          else
            emit ([ DigitalWrite (rsPin lcd) 0; PinMode (rsPin lcd) OUTPUT;
                    DigitalWrite (strbPin lcd) 0; PinMode (strbPin lcd) OUTPUT ]
                  ++ init_loop lcd (Z.to_nat (bits lcd)) 0) []) ;;
         delay 35 ;;
         ret lcdFd) st.

Definition lcdReinit (lcdFd : Z) : M unit :=
  lcd <- handle lcdFd ;;
  func <-
    (if bits lcd =? 4 then
       let func := Z.lor LCD_FUNC LCD_FUNC_DL in
       run_put4Command lcd (Z.shiftr func 4) ;; delay 35 ;;
       run_put4Command lcd (Z.shiftr func 4) ;; delay 35 ;;
       run_put4Command lcd (Z.shiftr func 4) ;; delay 35 ;;
       let func := LCD_FUNC in
       run_put4Command lcd (Z.shiftr func 4) ;; delay 35 ;;
       ret func
     else
       let func := Z.lor LCD_FUNC LCD_FUNC_DL in
       run_putCommand lcd func ;; delay 35 ;;
       run_putCommand lcd func ;; delay 35 ;;
       run_putCommand lcd func ;; delay 35 ;;
       ret func) ;;
  (if rows lcd >? 1 then
     let func := uchar (Z.lor func LCD_FUNC_N) in
     run_putCommand lcd func ;; delay 35
   else ret tt) ;;
  lcdDisplay lcdFd 1 ;;
  lcdCursor lcdFd 0 ;;
  lcdCursorBlink lcdFd 0 ;;
  lcdClear lcdFd ;;
  (* [lcd] points to the struct [lcdClear] has just written to *)
  lcd <- handle lcdFd ;;
  run_putCommand lcd (Z.lor LCD_ENTRY LCD_ENTRY_ID) ;;
  run_putCommand lcd (Z.lor LCD_CDSHIFT LCD_CDSHIFT_RL).

Definition lcdInit (config : lcd_config) (env : environment) : M Z :=
  lcdFd <- lcdNew config env ;;
  if lcdFd <? 0 then ret (-1)
  else lcdReinit lcdFd ;; ret lcdFd.

Definition lcdBacklight (fd state : Z) : M unit :=
  lcd <- handle fd ;;
  let lcd := set_backlight_state lcd state in
  assign fd lcd ;;
  if truthy (i2c_fd lcd) then
    emit [I2CWrite (i2c_fd lcd) (LCD_BACKLIGHT lcd)] []
  else ret tt.

(** ** The public interface as data *)

(** A call of a function of lcd.h on the handle [fd]. *)
Inductive op :=
| Home
| Clear
| Display (state : Z)
| Cursor (state : Z)
| CursorBlink (state : Z)
| SendCommand (command : Z)
| Position (x y : Z)
| CharDef (index : Z) (data : list Z)
| Putchar (data : Z)
| Puts (string : list Z)
| Printf (formatted : list Z)
| Reinit
| Backlight (state : Z).

Definition run_op (fd : Z) (o : op) : M unit :=
  match o with
  | Home => lcdHome fd
  | Clear => lcdClear fd
  | Display s => lcdDisplay fd s
  | Cursor s => lcdCursor fd s
  | CursorBlink s => lcdCursorBlink fd s
  | SendCommand c => lcdSendCommand fd c
  | Position x y => lcdPosition fd x y
  | CharDef i d => lcdCharDef fd i d
  | Putchar d => lcdPutchar fd d
  | Puts s => lcdPuts fd s
  | Printf s => lcdPrintf fd s
  | Reinit => lcdReinit fd
  | Backlight s => lcdBacklight fd s
  end.

(** Any call of the interface: on a handle, or one of the two constructors. *)
Inductive call :=
| On (fd : Z) (o : op)
| New (config : lcd_config) (env : environment)
| Init (config : lcd_config) (env : environment).

Definition run_call (c : call) : M unit :=
  match c with
  | On fd o => run_op fd o
  | New config env => lcdNew config env ;; ret tt
  | Init config env => lcdInit config env ;; ret tt
  end.

Fixpoint run_calls (cs : list call) : M unit :=
  match cs with
  | [] => ret tt
  | c :: rest => run_call c ;; run_calls rest
  end.

(** ** Vocabulary of the properties *)

(** [fd] is a handle of the table and [lcd] is the struct it points to. *)
Definition live (st : state) (fd : Z) (lcd : lcdDataStruct) : Prop :=
  0 <= fd < MAX_LCDS /\ lcds st !! Z.to_nat fd = Some (Some lcd).

(** Bit [i] of a payload, as a pin level. *)
Definition bit_of (payload i : Z) : Z := Z.land (Z.shiftr payload i) 1.

(** The bit numbers the transport shifts by on a port expander: the strobe,
    RS, the backlight and the four data lines.  With all of them in 0..30
    every shift of the transport is one C defines (the shifted values are 0
    or 1), and [int_shl] is then the plain shift. *)
Definition expander_bits (lcd : lcdDataStruct) : list Z :=
  [ strbPin lcd; rsPin lcd; backlight_bit lcd;
    dataPin lcd 0; dataPin lcd 1; dataPin lcd 2; dataPin lcd 3 ].

Definition shifts_defined (lcd : lcdDataStruct) : Prop :=
  Forall (fun b => 0 <= b <= 30) (expander_bits lcd).

(** The backlight bit of the expander byte. *)
Definition backlight_mask (lcd : lcdDataStruct) : Z :=
  if truthy (backlight_state lcd) then 2 ^ backlight_bit lcd else 0.

(** The transport primitive [write_nibble(rs, nibble4)] of the design: on
    the parallel transport the RS level, the four payload bits on
    [dataPins [0..3]] (least significant first) and one pulse of the strobe;
    on the port expander the packed byte twice, with the strobe bit and
    then without it. *)
Definition packed_nibble (lcd : lcdDataStruct) (rs nibble : Z) : Z :=
  uchar (Z.lor (Z.lor (Z.lor (Z.lor
    (Z.shiftl (bit_of nibble 0) (dataPin lcd 0))
    (Z.shiftl (bit_of nibble 1) (dataPin lcd 1)))
    (Z.shiftl (bit_of nibble 2) (dataPin lcd 2)))
    (Z.shiftl (bit_of nibble 3) (dataPin lcd 3)))
    (Z.shiftl rs (rsPin lcd))).

Definition write_nibble (lcd : lcdDataStruct) (rs nibble : Z) : list event :=
  if truthy (i2c_fd lcd) then
    [ I2CWrite (i2c_fd lcd)
        (Z.lor (Z.lor (packed_nibble lcd rs nibble) (Z.shiftl 1 (strbPin lcd)))
               (backlight_mask lcd));
      DelayMicroseconds 50;
      I2CWrite (i2c_fd lcd)
        (Z.lor (packed_nibble lcd rs nibble) (backlight_mask lcd));
      DelayMicroseconds 50 ]
  else
    [ DigitalWrite (rsPin lcd) rs;
      DigitalWrite (dataPin lcd 0) (bit_of nibble 0);
      DigitalWrite (dataPin lcd 1) (bit_of nibble 1);
      DigitalWrite (dataPin lcd 2) (bit_of nibble 2);
      DigitalWrite (dataPin lcd 3) (bit_of nibble 3);
      DigitalWrite (strbPin lcd) 1; DelayMicroseconds 50;
      DigitalWrite (strbPin lcd) 0; DelayMicroseconds 50 ].

Definition is_byte (x : xfer) : Prop := exists rs data, x = Byte rs data.

(** The function-set stage of the initialisation sequence: on a 4-bit bus
    the nibble 0x3 three times and the nibble 0x2 once, on an 8-bit bus the
    byte 0x30 three times, 35 ms after each; then, for more than one row,
    the last function-set once more with the two-line bit. *)
Definition function_set_bus (lcd : lcdDataStruct) : list xfer :=
  (if bits lcd =? 4 then [Nibble 3; Nibble 3; Nibble 3; Nibble 2]
   else [Byte 0 0x30; Byte 0 0x30; Byte 0 0x30])
  ++ (if rows lcd >? 1 then [Byte 0 (if bits lcd =? 4 then 0x28 else 0x38)]
      else []).

Definition function_set_io (lcd : lcdDataStruct) : list event :=
  (if bits lcd =? 4 then
     (put4Command lcd 3 ++ [Delay 35]) ++ (put4Command lcd 3 ++ [Delay 35])
     ++ (put4Command lcd 3 ++ [Delay 35]) ++ (put4Command lcd 2 ++ [Delay 35])
   else
     (putCommand lcd 0x30 ++ [Delay 35]) ++ (putCommand lcd 0x30 ++ [Delay 35])
     ++ (putCommand lcd 0x30 ++ [Delay 35]))
  ++ (if rows lcd >? 1 then
        putCommand lcd (if bits lcd =? 4 then 0x28 else 0x38) ++ [Delay 35]
      else []).

(** ** Sample displays

    A 16x2 display behind a port expander at address 0x27, data lines on
    bits 4..7, RS on bit 0, strobe on bit 2, backlight on bit 3 and lit; and
    a 20x4 display on GPIO pins with a 4-bit bus. *)
Definition expander_config : lcd_config :=
  Config.mk 2 16 0x27 4 0 2 4 5 6 7 0 0 0 0 3 1.

Definition gpio_config : lcd_config :=
  Config.mk 4 20 0 4 11 10 0 1 2 3 0 0 0 0 0 0.

(** malloc succeeds and wiringPiI2CSetup returns the descriptor 5. *)
Definition fair : environment := mkEnv true 5.

Definition expander_lcd : lcdDataStruct :=
  mkLcd 4 2 16 0 2 [4; 5; 6; 7; 0; 0; 0; 0] 0 0 5 3 1.

Definition gpio_lcd : lcdDataStruct :=
  mkLcd 4 4 20 11 10 [0; 1; 2; 3; 0; 0; 0; 0] 0 0 0 0 0.

(** The state [lcdNew] leaves behind at program start, for each sample. *)
Definition expander_state : state :=
  mkState [Some expander_lcd; None; None; None; None; None; None; None] 0 1
          [I2CSetup 0x27 5; I2CWrite 5 8; Delay 35] [].

Definition gpio_state : state :=
  mkState [Some gpio_lcd; None; None; None; None; None; None; None] 0 1
          [ DigitalWrite 11 0; PinMode 11 OUTPUT;
            DigitalWrite 10 0; PinMode 10 OUTPUT;
            DigitalWrite 0 0; PinMode 0 OUTPUT; DigitalWrite 1 0; PinMode 1 OUTPUT;
            DigitalWrite 2 0; PinMode 2 OUTPUT; DigitalWrite 3 0; PinMode 3 OUTPUT;
            Delay 35 ] [].

(** A 16x1 display on GPIO pins with an 8-bit bus. *)
Definition wide_config : lcd_config :=
  Config.mk 1 16 0 8 11 10 0 1 2 3 4 5 6 7 0 0.



(** A configuration with five rows and one column, which the sanity checks
    of [lcdNew] let through, and the struct [lcdNew] makes of it. *)
Definition tall_config : lcd_config :=
  Config.mk 5 1 0 4 11 10 0 1 2 3 0 0 0 0 0 0.

Definition tall_lcd : lcdDataStruct :=
  mkLcd 4 5 1 11 10 [0; 1; 2; 3; 0; 0; 0; 0] 0 0 0 0 0.

Definition tall_state : state :=
  mkState [Some tall_lcd; None; None; None; None; None; None; None] 0 1
          [ DigitalWrite 11 0; PinMode 11 OUTPUT;
            DigitalWrite 10 0; PinMode 10 OUTPUT;
            DigitalWrite 0 0; PinMode 0 OUTPUT; DigitalWrite 1 0; PinMode 1 OUTPUT;
            DigitalWrite 2 0; PinMode 2 OUTPUT; DigitalWrite 3 0; PinMode 3 OUTPUT;
            Delay 35 ] [].

(** [lcdPutchar] called once for each byte of [ds]. *)
Definition putchars (fd : Z) (ds : list Z) : M unit :=
  run_calls (map (fun d => On fd (Putchar d)) ds).

(** ** What a call on a handle may do

    Two structs are the same panel when they differ in the cursor at most. *)
Definition same_panel (a b : lcdDataStruct) : Prop :=
  set_cy (set_cx a 0) 0 = set_cy (set_cx b 0) 0.

(** The wiringPi calls the transport makes for the panel [p]: those of a
    command byte, of a data byte, of a single nibble, and plain delays. *)
Inductive emitted_by (p : lcdDataStruct) (e : event) : Prop :=
| by_command command : In e (putCommand p command) -> emitted_by p e
| by_data data : In e (sendDataCmd p data 1) -> emitted_by p e
| by_nibble command : In e (put4Command p command) -> emitted_by p e
| by_delay howLong : e = Delay howLong -> emitted_by p e.

(** [fd] points to the panel [p]. *)
Definition points_to (fd : Z) (p : lcdDataStruct) (st : state) : Prop :=
  exists l, live st fd l /\ same_panel p l.

(** From [st] to [st'], only the cursor behind [fd] and [lcdControl] have
    changed, and the transport of the panel [p] has run. *)
Definition moved (fd : Z) (p : lcdDataStruct) (st st' : state) : Prop :=
  points_to fd p st' /\
  initialised st' = initialised st /\
  length (lcds st') = length (lcds st) /\
  (forall j, j <> Z.to_nat fd -> lcds st' !! j = lcds st !! j) /\
  exists evs xs,
    trace st' = trace st ++ evs /\ bus st' = bus st ++ xs /\
    Forall (emitted_by p) evs.

(** The computation [m], started on a handle for the panel [p], does no
    more than that. *)
Definition keeps {A} (fd : Z) (p : lcdDataStruct) (m : M A) : Prop :=
  forall st a st', points_to fd p st -> m st = Some (a, st') -> moved fd p st st'.

(** Every function of the interface but [lcdBacklight]. *)
Definition quiet (o : op) : Prop :=
  match o with Backlight _ => False | _ => True end.

(** The bounds the sanity checks of [lcdNew] enforce. *)
Definition checked (lcd : lcdDataStruct) : Prop :=
  (bits lcd = 4 \/ bits lcd = 8) /\ 0 <= rows lcd <= 20 /\ 0 <= cols lcd <= 20.

(** Two structs have the same wiring when they differ in the cursor and
    the backlight state at most. *)
Definition same_wiring (a b : lcdDataStruct) : Prop :=
  set_backlight_state (set_cy (set_cx a 0) 0) 0
  = set_backlight_state (set_cy (set_cx b 0) 0) 0.

(** The configurations that pass the sanity checks of [lcdNew]. *)
Definition valid (config : lcd_config) : Prop :=
  (Config.bits config = 4 \/ Config.bits config = 8) /\
  0 <= Config.rows config <= 20 /\
  0 <= Config.cols config <= 20.

(** The table as [lcdNew] searches it: cleared on the first call. *)
Definition table_seen (st : state) : list (option lcdDataStruct) :=
  if initialised st =? 0 then replicate (Z.to_nat MAX_LCDS) None else lcds st.

(** The table has its eight entries, and before the first [lcdNew] they are
    the NULLs the C run time puts there. *)
Definition well_formed (st : state) : Prop :=
  length (lcds st) = Z.to_nat MAX_LCDS /\
  (initialised st = 0 -> lcds st = replicate (Z.to_nat MAX_LCDS) None).

(** ** Vocabulary for the rest of the interface *)

(** Calls that drive GPIO pins, and calls on the I2C bus. *)
Definition is_gpio (e : event) : Prop :=
  match e with
  | DigitalWrite _ _ | PinMode _ _ => True
  | _ => False
  end.

Definition is_i2c (e : event) : Prop :=
  match e with
  | I2CWrite _ _ | I2CSetup _ _ => True
  | _ => False
  end.

(** The display-control flags fit the three bits the controller has. *)
Definition flags_ok (st : state) : Prop := 0 <= lcdControl st <= 7.

(** A computation that leaves [lcdControl] alone. *)
Definition keeps_flags {A} (m : M A) : Prop :=
  forall st a st', m st = Some (a, st') -> lcdControl st' = lcdControl st.

(** The cursor as an index into the display, row by row, and a cursor that
    is on the display. *)
Definition cell (lcd : lcdDataStruct) : Z := cy lcd * cols lcd + cx lcd.

Definition on_display (lcd : lcdDataStruct) : Prop :=
  0 <= cx lcd < cols lcd /\ 0 <= cy lcd < rows lcd.

(** The bytes of a C string: what comes before the first zero. *)
Fixpoint until_nul (string : list Z) : list Z :=
  match string with
  | [] => []
  | c :: rest => if c =? 0 then [] else c :: until_nul rest
  end.

(** The data bytes (RS high) among what the controller was handed. *)
Fixpoint data_bytes (xs : list xfer) : list Z :=
  match xs with
  | [] => []
  | Byte rs d :: rest =>
      if rs =? 1 then d :: data_bytes rest else data_bytes rest
  | Nibble _ :: rest => data_bytes rest
  end.

(** [lcdNew] called once for each configuration, collecting the results. *)
Fixpoint lcdNew_each (requests : list (lcd_config * environment)) : M (list Z) :=
  match requests with
  | [] => ret []
  | (config, env) :: rest =>
      fd <- lcdNew config env ;;
      fds <- lcdNew_each rest ;;
      ret (fd :: fds)
  end.

(** From [st] to [st'], flag [b] of [lcdControl] has become [s], the other
    flags are as they were, the handle table is untouched, and the one
    transfer made is the command [LCD_CTRL | lcdControl]. *)
Definition sets_flag (b s : Z) (st st' : state) : Prop :=
  Z.testbit (lcdControl st') b = truthy s /\
  (forall k, k <> b -> Z.testbit (lcdControl st') k = Z.testbit (lcdControl st) k) /\
  lcds st' = lcds st /\
  bus st' = bus st ++ [Byte 0 (uchar (Z.lor LCD_CTRL (lcdControl st')))].



(** The table is in use and none of its eight slots is free. *)
Definition full (st : state) : Prop :=
  initialised st <> 0 /\ length (lcds st) = Z.to_nat MAX_LCDS /\
  forall fd, 0 <= fd < MAX_LCDS -> exists lcd, live st fd lcd.

(** * Properties *)

(** ** Arithmetic of [unsigned char] *)

Lemma uchar_land (z : Z) : uchar z = Z.land z 255.
Proof. unfold uchar. change 256 with (2 ^ 8). now rewrite <- Z.land_ones by lia. Qed.

Lemma uchar_lor (a b : Z) : uchar (Z.lor a b) = Z.lor (uchar a) (uchar b).
Proof. rewrite !uchar_land. apply Z.land_lor_distr_l. Qed.

Lemma uchar_idem (z : Z) : uchar (uchar z) = uchar z.
Proof. unfold uchar. apply Z.mod_mod. lia. Qed.

Lemma uchar_small (z : Z) : 0 <= z < 256 -> uchar z = z.
Proof. intros H. unfold uchar. now apply Z.mod_small. Qed.

Lemma uchar_range (z : Z) : 0 <= uchar z < 256.
Proof. unfold uchar. apply Z.mod_pos_bound. lia. Qed.

(** ** Running the monad *)

Lemma bind_Some {A B} (m : M A) (k : A -> M B) st a st1 :
  m st = Some (a, st1) -> bind m k st = k a st1.
Proof. intros H. unfold bind. now rewrite H. Qed.

Lemma bind_inv {A B} (m : M A) (k : A -> M B) st r :
  bind m k st = Some r ->
  exists a st1, m st = Some (a, st1) /\ k a st1 = Some r.
Proof.
  unfold bind. destruct (m st) as [[a st1]|] eqn:E; [|discriminate].
  intros H. now exists a, st1.
Qed.

Lemma handle_live st fd lcd : live st fd lcd -> handle fd st = Some (lcd, st).
Proof.
  intros [Hfd Hl]. unfold handle.
  replace ((0 <=? fd) && (fd <? MAX_LCDS)) with true
    by (symmetry; apply andb_true_iff; split; [apply Z.leb_le|apply Z.ltb_lt]; lia).
  now rewrite Hl.
Qed.

Lemma handle_inv st fd lcd st1 :
  handle fd st = Some (lcd, st1) -> st1 = st /\ live st fd lcd.
Proof.
  unfold handle, live.
  destruct ((0 <=? fd) && (fd <? MAX_LCDS)) eqn:E; [|discriminate].
  apply andb_true_iff in E as [E1 E2].
  apply Z.leb_le in E1. apply Z.ltb_lt in E2.
  destruct (lcds st !! Z.to_nat fd) as [[l|]|] eqn:El; try discriminate.
  intros [= -> ->]. auto.
Qed.

Lemma live_in_table st fd lcd :
  live st fd lcd -> (Z.to_nat fd < length (lcds st))%nat.
Proof. intros [_ H]. now apply lookup_lt_Some in H. Qed.

(** ** Transport *)

(** The transport reads the wiring and the backlight state of the struct,
    never the cursor. *)
Lemma sendDataCmd_set_cx lcd v data rs :
  sendDataCmd (set_cx lcd v) data rs = sendDataCmd lcd data rs.
Proof. reflexivity. Qed.

Lemma sendDataCmd_set_cy lcd v data rs :
  sendDataCmd (set_cy lcd v) data rs = sendDataCmd lcd data rs.
Proof. reflexivity. Qed.

Lemma putCommand_set_cx lcd v command :
  putCommand (set_cx lcd v) command = putCommand lcd command.
Proof. reflexivity. Qed.

Lemma putCommand_set_cy lcd v command :
  putCommand (set_cy lcd v) command = putCommand lcd command.
Proof. reflexivity. Qed.

Lemma nibble_cases (P : Z -> Prop) :
  (forall k : nat, (k < 16)%nat -> P (Z.of_nat k)) ->
  forall n, 0 <= n < 16 -> P n.
Proof.
  intros H n Hn. replace n with (Z.of_nat (Z.to_nat n)) by lia. apply H. lia.
Qed.

Ltac enum16 n H tac :=
  revert n H; apply nibble_cases;
  let k := fresh "k" in
  let Hk := fresh "Hk" in
  intros k Hk; do 16 (destruct k as [|k]; [tac|]); lia.

(** ** Shifts *)

Lemma to_int_small z : -2147483648 <= z < 2147483648 -> to_int z = z.
Proof. intros H. unfold to_int. rewrite Z.mod_small; lia. Qed.

Lemma int_shl_0_l n : int_shl 0 n = 0.
Proof. unfold int_shl. now rewrite Z.shiftl_0_l. Qed.

(** Where C defines the shift, [int_shl] is the shift. *)
Lemma int_shl_defined a n :
  0 <= a <= 1 -> 0 <= n <= 30 -> int_shl a n = Z.shiftl a n.
Proof.
  intros Ha Hn. unfold int_shl. rewrite (Z.mod_small n 32) by lia.
  apply to_int_small. rewrite Z.shiftl_mul_pow2 by lia.
  assert (0 < 2 ^ n <= 2 ^ 30)
    by (split; [apply Z.pow_pos_nonneg; lia | apply Z.pow_le_mono_r; lia]).
  change (2 ^ 30) with 1073741824 in *. nia.
Qed.

Lemma shifts_defined_fields lcd :
  shifts_defined lcd ->
  0 <= strbPin lcd <= 30 /\ 0 <= rsPin lcd <= 30 /\ 0 <= backlight_bit lcd <= 30 /\
  forall i, 0 <= i < 4 -> 0 <= dataPin lcd i <= 30.
Proof.
  unfold shifts_defined, expander_bits. intros H.
  repeat match goal with
         | H : Forall _ (_ :: _) |- _ =>
             let a := fresh "Hb" in
             apply Forall_cons in H as [a H]
         end.
  repeat (split; [assumption|]).
  intros i Hi.
  assert (Ei : i = 0 \/ i = 1 \/ i = 2 \/ i = 3) by lia.
  destruct Ei as [-> | [-> | [-> | ->]]]; assumption.
Qed.

Lemma LCD_BACKLIGHT_mask lcd :
  0 <= backlight_bit lcd <= 30 -> LCD_BACKLIGHT lcd = backlight_mask lcd.
Proof.
  intros H. unfold LCD_BACKLIGHT, backlight_mask.
  destruct (truthy (backlight_state lcd)); [|reflexivity].
  rewrite int_shl_defined by lia. rewrite Z.shiftl_mul_pow2 by lia. lia.
Qed.

Lemma marshal4Bits_packed lcd n :
  (forall i, 0 <= i < 4 -> 0 <= dataPin lcd i <= 30) ->
  0 <= n < 16 -> marshal4Bits lcd n = packed_nibble lcd 0 n.
Proof.
  intros Hd H. unfold marshal4Bits, packed_nibble.
  enum16 n H ltac:(cbn -[uchar Z.shiftl Z.lor int_shl dataPin];
    rewrite ?int_shl_0_l;
    rewrite ?(int_shl_defined 1) by (try lia; apply Hd; lia);
    rewrite ?uchar_lor, ?uchar_idem, ?Z.shiftl_0_l, ?Z.lor_0_r;
    cbn -[uchar Z.shiftl dataPin]; rewrite ?Z.lor_0_l, ?Z.lor_0_r; reflexivity).
Qed.

(** [put4Command] is the single-nibble write with RS low. *)
Lemma put4Command_write_nibble lcd n :
  i2c_fd lcd = 0 \/ shifts_defined lcd ->
  0 <= n < 16 -> put4Command lcd n = write_nibble lcd 0 n.
Proof.
  intros Hs H. unfold put4Command, write_nibble, truthy.
  destruct (i2c_fd lcd =? 0) eqn:E; cbn [negb].
  - enum16 n H ltac:(reflexivity).
  - destruct Hs as [Hs|Hs]; [lia|].
    apply shifts_defined_fields in Hs as (Hstrb & _ & Hbl & Hd).
    unfold i2c_send.
    rewrite marshal4Bits_packed, LCD_BACKLIGHT_mask, int_shl_defined by (assumption || lia).
    reflexivity.
Qed.

(** ** State updates *)

Lemma sent_sent st a x b y : sent (sent st a x) b y = sent st (a ++ b) (x ++ y).
Proof. unfold sent. cbn. now rewrite <- !app_assoc. Qed.

Lemma stored_stored st fd l1 l2 : stored (stored st fd l1) fd l2 = stored st fd l2.
Proof. unfold stored. cbn. now rewrite list_insert_insert_eq. Qed.

Lemma stored_id st fd lcd : live st fd lcd -> stored st fd lcd = st.
Proof.
  intros [_ H]. unfold stored. rewrite list_insert_id by exact H. now destruct st.
Qed.

Lemma live_stored st fd lcd lcd' : live st fd lcd -> live (stored st fd lcd') fd lcd'.
Proof.
  intros H. split; [apply H|]. cbn.
  apply list_lookup_insert_eq. now apply live_in_table in H.
Qed.

Lemma live_stored_ne st fd fd' lcd lcd' :
  0 <= fd -> 0 <= fd' -> fd <> fd' ->
  live (stored st fd' lcd') fd lcd <-> live st fd lcd.
Proof.
  intros H1 H2 Hne. unfold live. cbn.
  rewrite list_lookup_insert_ne by lia. tauto.
Qed.

Lemma live_sent st fd lcd evs xs : live (sent st evs xs) fd lcd <-> live st fd lcd.
Proof. reflexivity. Qed.

Lemma live_controlled st fd lcd v : live (controlled st v) fd lcd <-> live st fd lcd.
Proof. reflexivity. Qed.

Lemma live_unique st fd lcd lcd' : live st fd lcd -> live st fd lcd' -> lcd = lcd'.
Proof. intros [_ H1] [_ H2]. congruence. Qed.

(** ** What each function of the interface does *)

Ltac deref H := unfold bind; rewrite (handle_live _ _ _ H).

Lemma lcdHome_run st fd lcd :
  live st fd lcd ->
  lcdHome fd st =
    Some (tt, sent (stored (sent st (putCommand lcd LCD_HOME) [Byte 0 LCD_HOME])
                           fd (set_cx (set_cy lcd 0) 0))
                   [Delay 5] []).
Proof. intros H. unfold lcdHome. deref H. reflexivity. Qed.

Lemma lcdClear_run st fd lcd :
  live st fd lcd ->
  lcdClear fd st =
    Some (tt, sent (stored (sent st (putCommand lcd LCD_CLEAR ++ putCommand lcd LCD_HOME)
                                    [Byte 0 LCD_CLEAR; Byte 0 LCD_HOME])
                           fd (set_cx (set_cy lcd 0) 0))
                   [Delay 5] []).
Proof.
  intros H. unfold lcdClear. deref H. cbn -[putCommand].
  unfold run_putCommand, emit. now rewrite sent_sent.
Qed.

Lemma lcdControlBit_run mask st fd lcd s :
  live st fd lcd ->
  let c := if truthy s then Z.lor (lcdControl st) mask
           else Z.land (lcdControl st) (Z.lnot mask) in
  lcdControlBit mask fd s st =
    Some (tt, sent (controlled st c)
                   (putCommand lcd (uchar (Z.lor LCD_CTRL c)))
                   [Byte 0 (uchar (Z.lor LCD_CTRL c))]).
Proof. intros H c. unfold lcdControlBit. deref H. reflexivity. Qed.

Lemma lcdSendCommand_run st fd lcd command :
  live st fd lcd ->
  lcdSendCommand fd command st =
    Some (tt, sent st (putCommand lcd (uchar command)) [Byte 0 (uchar command)]).
Proof. intros H. unfold lcdSendCommand. deref H. reflexivity. Qed.

Lemma rowOff_at_Some y r st :
  0 <= y -> rowOff !! Z.to_nat y = Some r -> rowOff_at y st = Some (r, st).
Proof.
  intros Hy Hr. unfold rowOff_at.
  replace (0 <=? y) with true by (symmetry; apply Z.leb_le; lia).
  now rewrite Hr.
Qed.

Lemma rowOff_at_None y st : 4 <= y -> rowOff_at y st = None.
Proof.
  intros Hy. unfold rowOff_at.
  replace (0 <=? y) with true by (symmetry; apply Z.leb_le; lia).
  assert (E : rowOff !! Z.to_nat y = None)
    by (apply lookup_ge_None; cbn; lia).
  now rewrite E.
Qed.

Lemma rowOff_at_inv y r st st1 :
  rowOff_at y st = Some (r, st1) ->
  st1 = st /\ 0 <= y < 4 /\ rowOff !! Z.to_nat y = Some r.
Proof.
  unfold rowOff_at. destruct (0 <=? y) eqn:E; [|discriminate].
  apply Z.leb_le in E.
  destruct (rowOff !! Z.to_nat y) as [r'|] eqn:Er; [|discriminate].
  intros [= -> ->]. repeat split; auto.
  apply lookup_lt_Some in Er. cbn in Er. lia.
Qed.

Lemma lcdPosition_ignored st fd lcd x y :
  live st fd lcd ->
  x > cols lcd \/ x < 0 \/ y > rows lcd \/ y < 0 ->
  lcdPosition fd x y st = Some (tt, st).
Proof.
  intros H Hxy. unfold lcdPosition. deref H.
  destruct ((x >? cols lcd) || (x <? 0)) eqn:Ex; [reflexivity|].
  destruct ((y >? rows lcd) || (y <? 0)) eqn:Ey; [reflexivity|].
  apply orb_false_iff in Ex as [Ex1 Ex2]. apply orb_false_iff in Ey as [Ey1 Ey2].
  lia.
Qed.

Lemma lcdPosition_accepted st fd lcd x y :
  live st fd lcd ->
  0 <= x <= cols lcd -> 0 <= y <= rows lcd ->
  lcdPosition fd x y st =
    (r <- rowOff_at y ;;
     run_putCommand lcd (uchar (x + Z.lor LCD_DGRAM r)) ;;
     assign fd (set_cy (set_cx lcd x) y)) st.
Proof.
  intros H Hx Hy. unfold lcdPosition. deref H.
  replace ((x >? cols lcd) || (x <? 0)) with false
    by (symmetry; apply orb_false_iff; lia).
  replace ((y >? rows lcd) || (y <? 0)) with false
    by (symmetry; apply orb_false_iff; lia).
  reflexivity.
Qed.

Lemma lcdPosition_run st fd lcd x y r :
  live st fd lcd ->
  0 <= x <= cols lcd -> 0 <= y <= rows lcd ->
  rowOff !! Z.to_nat y = Some r ->
  lcdPosition fd x y st =
    Some (tt, stored (sent st (putCommand lcd (uchar (x + Z.lor LCD_DGRAM r)))
                              [Byte 0 (uchar (x + Z.lor LCD_DGRAM r))])
                     fd (set_cy (set_cx lcd x) y)).
Proof.
  intros H Hx Hy Hr. rewrite (lcdPosition_accepted _ _ _ _ _ H Hx Hy).
  unfold bind. rewrite (rowOff_at_Some y r) by (auto; lia). reflexivity.
Qed.

Lemma lcdPosition_out_of_table st fd lcd x y :
  live st fd lcd ->
  0 <= x <= cols lcd -> 4 <= y <= rows lcd ->
  lcdPosition fd x y st = None.
Proof.
  intros H Hx Hy. rewrite (lcdPosition_accepted _ _ _ _ _ H Hx) by lia.
  unfold bind. now rewrite rowOff_at_None by lia.
Qed.

Lemma lcdPutchar_next st fd lcd data :
  live st fd lcd ->
  cx lcd + 1 <> cols lcd ->
  lcdPutchar fd data st =
    Some (tt, stored (sent st (sendDataCmd lcd (uchar data) 1) [Byte 1 (uchar data)])
                     fd (set_cx lcd (cx lcd + 1))).
Proof.
  intros H Hne. unfold lcdPutchar. deref H. cbn -[sendDataCmd].
  replace (cx lcd + 1 =? cols lcd) with false by (symmetry; apply Z.eqb_neq; lia).
  reflexivity.
Qed.

(** The row the cursor wraps to. *)
Lemma lcdPutchar_wrapped st fd lcd data :
  live st fd lcd ->
  cx lcd + 1 = cols lcd ->
  let y := if cy lcd + 1 =? rows lcd then 0 else cy lcd + 1 in
  lcdPutchar fd data st =
    (r <- rowOff_at y ;;
     run_putCommand lcd (uchar (0 + Z.lor LCD_DGRAM r)))
      (stored (sent st (sendDataCmd lcd (uchar data) 1) [Byte 1 (uchar data)])
              fd (set_cy (set_cx lcd 0) y)).
Proof.
  intros H Heq y. unfold lcdPutchar. deref H. cbn -[sendDataCmd rowOff_at putCommand].
  replace (cx lcd + 1 =? cols lcd) with true by (symmetry; apply Z.eqb_eq; lia).
  unfold assign. rewrite stored_stored. subst y.
  destruct (cy lcd + 1 =? rows lcd); reflexivity.
Qed.

Lemma lcdPutchar_wrap st fd lcd data r :
  live st fd lcd ->
  cx lcd + 1 = cols lcd ->
  let y := if cy lcd + 1 =? rows lcd then 0 else cy lcd + 1 in
  0 <= y -> rowOff !! Z.to_nat y = Some r ->
  lcdPutchar fd data st =
    Some (tt, sent (stored (sent st (sendDataCmd lcd (uchar data) 1)
                                    [Byte 1 (uchar data)])
                           fd (set_cy (set_cx lcd 0) y))
                   (putCommand lcd (uchar (0 + Z.lor LCD_DGRAM r)))
                   [Byte 0 (uchar (0 + Z.lor LCD_DGRAM r))]).
Proof.
  intros H Heq y Hy Hr. rewrite (lcdPutchar_wrapped _ _ _ _ H Heq).
  fold y. unfold bind. now rewrite (rowOff_at_Some y r).
Qed.

Lemma lcdPutchar_out_of_table st fd lcd data :
  live st fd lcd ->
  cx lcd + 1 = cols lcd ->
  4 <= (if cy lcd + 1 =? rows lcd then 0 else cy lcd + 1) ->
  lcdPutchar fd data st = None.
Proof.
  intros H Heq Hy. rewrite (lcdPutchar_wrapped _ _ _ _ H Heq).
  unfold bind. now rewrite rowOff_at_None.
Qed.

Lemma charDef_loop_run lcd data n : forall i st,
  (i + n <= length data)%nat ->
  charDef_loop lcd data n i st =
    Some (tt, sent st
      (flat_map (fun d => sendDataCmd lcd (uchar d) 1) (take n (drop i data)))
      (map (fun d => Byte 1 (uchar d)) (take n (drop i data)))).
Proof.
  induction n as [|n IH]; intros i st Hlen.
  - cbn. unfold ret, sent. rewrite !app_nil_r. now destruct st.
  - destruct (data !! i) as [d|] eqn:Ed.
    2:{ apply lookup_ge_None in Ed. lia. }
    cbn -[sendDataCmd]. rewrite Ed. unfold bind, run_sendDataCmd, emit.
    rewrite IH by lia. rewrite sent_sent.
    rewrite (drop_S _ _ _ Ed). reflexivity.
Qed.

Lemma lcdCharDef_run st fd lcd index data :
  live st fd lcd ->
  (8 <= length data)%nat ->
  let command := uchar (Z.lor LCD_CGRAM (Z.shiftl (Z.land index 7) 3)) in
  lcdCharDef fd index data st =
    Some (tt, sent st
      (putCommand lcd command
         ++ flat_map (fun d => sendDataCmd lcd (uchar d) 1) (take 8 data))
      (Byte 0 command :: map (fun d => Byte 1 (uchar d)) (take 8 data))).
Proof.
  intros H Hlen command. unfold lcdCharDef. deref H.
  unfold run_putCommand, emit. rewrite charDef_loop_run by (cbn; lia).
  now rewrite sent_sent.
Qed.

Lemma lcdBacklight_run st fd lcd s :
  live st fd lcd ->
  let lcd' := set_backlight_state lcd s in
  lcdBacklight fd s st =
    Some (tt, if truthy (i2c_fd lcd)
              then sent (stored st fd lcd')
                        [I2CWrite (i2c_fd lcd) (LCD_BACKLIGHT lcd')] []
              else stored st fd lcd').
Proof.
  intros H lcd'. unfold lcdBacklight. deref H. cbn.
  destruct (truthy (i2c_fd lcd)); reflexivity.
Qed.

Lemma lcdPuts_nil fd st : lcdPuts fd [] st = Some (tt, st).
Proof. reflexivity. Qed.

Lemma lcdPuts_zero fd rest st : lcdPuts fd (0 :: rest) st = Some (tt, st).
Proof. reflexivity. Qed.

Lemma lcdPuts_cons fd c rest st :
  c <> 0 -> lcdPuts fd (c :: rest) st = (lcdPutchar fd c ;; lcdPuts fd rest) st.
Proof.
  intros Hc. cbn -[lcdPutchar].
  replace (c =? 0) with false by (symmetry; apply Z.eqb_neq; lia).
  reflexivity.
Qed.

Lemma state_eq (s t : state) :
  lcds s = lcds t -> lcdControl s = lcdControl t ->
  initialised s = initialised t -> trace s = trace t -> bus s = bus t ->
  s = t.
Proof. destruct s, t. cbn. congruence. Qed.

(** The part of [lcdReinit] after the function-set commands. *)
Lemma lcdReinit_rest st fd lcd :
  live st fd lcd ->
  let c1 := Z.lor (lcdControl st) LCD_DISPLAY_CTRL in
  let c2 := Z.land c1 (Z.lnot LCD_CURSOR_CTRL) in
  let c3 := Z.land c2 (Z.lnot LCD_BLINK_CTRL) in
  (lcdDisplay fd 1 ;; lcdCursor fd 0 ;; lcdCursorBlink fd 0 ;; lcdClear fd ;;
   lcd <- handle fd ;;
   run_putCommand lcd (Z.lor LCD_ENTRY LCD_ENTRY_ID) ;;
   run_putCommand lcd (Z.lor LCD_CDSHIFT LCD_CDSHIFT_RL)) st =
  Some (tt, sent (stored (controlled st c3) fd (set_cx (set_cy lcd 0) 0))
    (putCommand lcd (uchar (Z.lor LCD_CTRL c1))
     ++ putCommand lcd (uchar (Z.lor LCD_CTRL c2))
     ++ putCommand lcd (uchar (Z.lor LCD_CTRL c3))
     ++ putCommand lcd LCD_CLEAR ++ putCommand lcd LCD_HOME ++ [Delay 5]
     ++ putCommand lcd (Z.lor LCD_ENTRY LCD_ENTRY_ID)
     ++ putCommand lcd (Z.lor LCD_CDSHIFT LCD_CDSHIFT_RL))
    [ Byte 0 (uchar (Z.lor LCD_CTRL c1)); Byte 0 (uchar (Z.lor LCD_CTRL c2));
      Byte 0 (uchar (Z.lor LCD_CTRL c3)); Byte 0 LCD_CLEAR; Byte 0 LCD_HOME;
      Byte 0 (Z.lor LCD_ENTRY LCD_ENTRY_ID);
      Byte 0 (Z.lor LCD_CDSHIFT LCD_CDSHIFT_RL) ]).
Proof.
  intros H c1 c2 c3.
  unfold lcdDisplay, lcdCursor, lcdCursorBlink.
  erewrite bind_Some by (apply lcdControlBit_run; exact H).
  erewrite bind_Some by (apply lcdControlBit_run; exact H).
  erewrite bind_Some by (apply lcdControlBit_run; exact H).
  erewrite bind_Some by (apply lcdClear_run; exact H).
  erewrite bind_Some by (apply handle_live; eapply live_stored; exact H).
  unfold bind, run_putCommand, emit.
  f_equal. f_equal.
  apply state_eq; cbn -[putCommand uchar Z.lor Z.land Z.lnot]; try reflexivity.
  - now rewrite <- !app_assoc.
  - now rewrite <- !app_assoc.
Qed.

Lemma emit_bind {B} evs xs (k : unit -> M B) st :
  bind (emit evs xs) k st = k tt (sent st evs xs).
Proof. reflexivity. Qed.

Lemma ret_bind {A B} (a : A) (k : A -> M B) st : bind (ret a) k st = k a st.
Proof. reflexivity. Qed.

Lemma bind_assoc {A B C} (m : M A) (f : A -> M B) (g : B -> M C) st :
  bind (bind m f) g st = bind m (fun x => bind (f x) g) st.
Proof. unfold bind. destruct (m st) as [[a st1]|]; reflexivity. Qed.

Ltac emits :=
  unfold run_put4Command, run_putCommand, run_sendDataCmd, delay;
  repeat (rewrite ?bind_assoc; first [rewrite emit_bind | rewrite ret_bind]);
  rewrite ?sent_sent.

(** [lcdReinit] is its function-set stage followed by the rest. *)
Lemma lcdReinit_stages st fd lcd :
  live st fd lcd ->
  lcdReinit fd st =
    (lcdDisplay fd 1 ;; lcdCursor fd 0 ;; lcdCursorBlink fd 0 ;; lcdClear fd ;;
     lcd <- handle fd ;;
     run_putCommand lcd (Z.lor LCD_ENTRY LCD_ENTRY_ID) ;;
     run_putCommand lcd (Z.lor LCD_CDSHIFT LCD_CDSHIFT_RL))
      (sent st (function_set_io lcd) (function_set_bus lcd)).
Proof.
  intros H. unfold lcdReinit.
  rewrite (bind_Some _ _ _ _ _ (handle_live _ _ _ H)).
  unfold function_set_io, function_set_bus.
  destruct (bits lcd =? 4); destruct (rows lcd >? 1); emits.
  all: rewrite <- ?app_assoc; rewrite ?app_nil_r; reflexivity.
Qed.

Lemma lcdReinit_run st fd lcd :
  live st fd lcd ->
  exists evs xs,
    lcdReinit fd st =
      Some (tt, sent (stored (controlled st
                                (Z.land (Z.land (Z.lor (lcdControl st) LCD_DISPLAY_CTRL)
                                                (Z.lnot LCD_CURSOR_CTRL))
                                        (Z.lnot LCD_BLINK_CTRL)))
                             fd (set_cx (set_cy lcd 0) 0))
                     (function_set_io lcd ++ evs) (function_set_bus lcd ++ xs))
    /\ Forall is_byte xs.
Proof.
  intros H. rewrite (lcdReinit_stages _ _ _ H).
  rewrite (lcdReinit_rest _ _ lcd) by (apply live_sent; exact H).
  eexists _, _. split.
  - f_equal. f_equal.
    apply state_eq; cbn [lcds lcdControl initialised trace bus sent stored controlled];
      rewrite <- ?app_assoc; reflexivity.
  - repeat constructor; eexists _, _; reflexivity.
Qed.

(** ** Claim C1 *)

(** C1. On a handle with bus width 4, [lcdReinit] runs to completion and
    what it sends starts with four single-nibble writes with RS low, of the
    nibbles 0x3, 0x3, 0x3 and 0x2, each followed by [delay (35)]; every
    transfer after these four is a whole byte.  The handle is one of a
    parallel display, or of a port expander whose bit numbers are in the
    range 0..30, where C defines the shifts of the transport. *)
Theorem lcdReinit_four_nibbles st fd lcd :
  live st fd lcd -> bits lcd = 4 ->
  i2c_fd lcd = 0 \/ shifts_defined lcd ->
  exists st' rest later,
    lcdReinit fd st = Some (tt, st') /\
    trace st' = trace st
      ++ (write_nibble lcd 0 3 ++ [Delay 35])
      ++ (write_nibble lcd 0 3 ++ [Delay 35])
      ++ (write_nibble lcd 0 3 ++ [Delay 35])
      ++ (write_nibble lcd 0 2 ++ [Delay 35])
      ++ rest /\
    bus st' = bus st ++ [Nibble 3; Nibble 3; Nibble 3; Nibble 2] ++ later /\
    Forall is_byte later.
Proof.
  intros H Hb Hs. destruct (lcdReinit_run _ _ _ H) as (evs & xs & Hrun & Hxs).
  unfold function_set_io, function_set_bus in Hrun. rewrite Hb in Hrun.
  change (4 =? 4) with true in Hrun. cbv iota in Hrun.
  rewrite !(put4Command_write_nibble lcd) in Hrun by (exact Hs || lia).
  eexists _, _, _. split; [exact Hrun|]. cbn [trace bus sent].
  split; [|split].
  - rewrite <- !app_assoc. reflexivity.
  - rewrite <- !app_assoc. reflexivity.
  - apply Forall_app. split; [|exact Hxs].
    destruct (rows lcd >? 1); repeat constructor. eexists _, _; reflexivity.
Qed.

Lemma expander_state_made : lcdNew expander_config fair boot = Some (0, expander_state).
Proof. reflexivity. Qed.

Lemma gpio_state_made : lcdNew gpio_config fair boot = Some (0, gpio_state).
Proof. reflexivity. Qed.

Lemma expander_live : live expander_state 0 expander_lcd.
Proof. split; [unfold MAX_LCDS; lia | reflexivity]. Qed.

Lemma gpio_live : live gpio_state 0 gpio_lcd.
Proof. split; [unfold MAX_LCDS; lia | reflexivity]. Qed.

Lemma lcdReinit_four_nibbles_witness :
  live expander_state 0 expander_lcd /\ bits expander_lcd = 4 /\
  (i2c_fd expander_lcd = 0 \/ shifts_defined expander_lcd) /\
  exists st' rest later,
    lcdReinit 0 expander_state = Some (tt, st') /\
    trace st' = trace expander_state
      ++ (write_nibble expander_lcd 0 3 ++ [Delay 35])
      ++ (write_nibble expander_lcd 0 3 ++ [Delay 35])
      ++ (write_nibble expander_lcd 0 3 ++ [Delay 35])
      ++ (write_nibble expander_lcd 0 2 ++ [Delay 35])
      ++ rest /\
    bus st' = bus expander_state ++ [Nibble 3; Nibble 3; Nibble 3; Nibble 2] ++ later /\
    Forall is_byte later.
Proof.
  assert (H : live expander_state 0 expander_lcd)
    by (split; [unfold MAX_LCDS; lia | reflexivity]).
  assert (Hs : i2c_fd expander_lcd = 0 \/ shifts_defined expander_lcd).
  { right. unfold shifts_defined, expander_bits.
    repeat constructor; vm_compute; discriminate. }
  split; [exact H|]. split; [reflexivity|]. split; [exact Hs|].
  exact (lcdReinit_four_nibbles expander_state 0 expander_lcd H eq_refl Hs).
Defined.

(** ** The row table *)

Lemma rowOff_entries i r :
  rowOff !! i = Some r -> r = 0x00 \/ r = 0x40 \/ r = 0x14 \/ r = 0x54.
Proof.
  destruct i as [|[|[|[|i]]]]; cbn; intros E; inversion E; auto.
Qed.

Lemma rowOff_defined y : 0 <= y <= 3 -> exists r, rowOff !! Z.to_nat y = Some r.
Proof.
  intros H. apply lookup_lt_is_Some. cbn. lia.
Qed.

(** On the table and for the columns a handle can have, the byte the driver
    computes, [x + (LCD_DGRAM | rowOff [y])], is [LCD_DGRAM | (rowOff [y] + x)]. *)
Lemma set_ddram_byte r x i :
  rowOff !! i = Some r -> 0 <= x <= 20 ->
  uchar (x + Z.lor LCD_DGRAM r) = Z.lor LCD_DGRAM (r + x).
Proof.
  intros Hr Hx. apply rowOff_entries in Hr.
  replace x with (Z.of_nat (Z.to_nat x)) by lia.
  assert (Hn : (Z.to_nat x <= 20)%nat) by lia.
  revert Hn. generalize (Z.to_nat x). intros n Hn.
  destruct Hr as [-> | [-> | [-> | ->]]];
    do 21 (destruct n as [|n]; [reflexivity|]); lia.
Qed.

(** An accepted position on the table. *)
Lemma lcdPosition_sets st fd lcd x y :
  live st fd lcd -> 0 <= cols lcd <= 20 ->
  0 <= x <= cols lcd -> 0 <= y <= rows lcd -> y <= 3 ->
  exists r,
    rowOff !! Z.to_nat y = Some r /\
    lcdPosition fd x y st =
      Some (tt, stored (sent st (putCommand lcd (Z.lor LCD_DGRAM (r + x)))
                                [Byte 0 (Z.lor LCD_DGRAM (r + x))])
                       fd (set_cy (set_cx lcd x) y)) /\
    live (stored (sent st (putCommand lcd (Z.lor LCD_DGRAM (r + x)))
                          [Byte 0 (Z.lor LCD_DGRAM (r + x))])
                 fd (set_cy (set_cx lcd x) y))
         fd (set_cy (set_cx lcd x) y).
Proof.
  intros H Hc Hx Hy Hy3. destruct (rowOff_defined y) as [r Hr]; [lia|].
  exists r. split; [exact Hr|]. split.
  - rewrite (lcdPosition_run _ _ _ _ _ r H Hx Hy Hr).
    now rewrite (set_ddram_byte r x _ Hr) by lia.
  - eapply live_stored. apply live_sent. exact H.
Qed.

(** ** Claim C2 *)

(** C2, as amended. On a handle with at most 20 columns: when [x] or [y] is
    negative or exceeds [cols] / [rows], [lcdPosition] changes nothing and
    sends nothing; otherwise, when [y] is at most 3 (the four entries of
    [rowOff]), it sends the one command byte [0x80 | (rowOff [y] + x)] with
    RS low and stores [cx = x], [cy = y], leaving everything else as it
    was. *)
Theorem lcdPosition_cases st fd lcd x y :
  live st fd lcd -> 0 <= cols lcd <= 20 ->
  (x < 0 \/ x > cols lcd \/ y < 0 \/ y > rows lcd ->
     lcdPosition fd x y st = Some (tt, st)) /\
  (0 <= x <= cols lcd -> 0 <= y <= rows lcd -> y <= 3 ->
     exists r,
       rowOff !! Z.to_nat y = Some r /\
       lcdPosition fd x y st =
         Some (tt, stored (sent st (putCommand lcd (Z.lor LCD_DGRAM (r + x)))
                                   [Byte 0 (Z.lor LCD_DGRAM (r + x))])
                          fd (set_cy (set_cx lcd x) y)) /\
       live (stored (sent st (putCommand lcd (Z.lor LCD_DGRAM (r + x)))
                             [Byte 0 (Z.lor LCD_DGRAM (r + x))])
                    fd (set_cy (set_cx lcd x) y))
            fd (set_cy (set_cx lcd x) y)).
Proof.
  intros H Hc. split.
  - intros Hxy. apply (lcdPosition_ignored _ _ lcd); [exact H | lia].
  - intros Hx Hy Hy3. now apply lcdPosition_sets.
Qed.

Lemma lcdPosition_cases_witness :
  live gpio_state 0 gpio_lcd /\ 0 <= cols gpio_lcd <= 20 /\
  (7 < 0 \/ 7 > cols gpio_lcd \/ 2 < 0 \/ 2 > rows gpio_lcd ->
     lcdPosition 0 7 2 gpio_state = Some (tt, gpio_state)) /\
  (0 <= 7 <= cols gpio_lcd -> 0 <= 2 <= rows gpio_lcd -> 2 <= 3 ->
     exists r,
       rowOff !! Z.to_nat 2 = Some r /\
       lcdPosition 0 7 2 gpio_state =
         Some (tt, stored (sent gpio_state (putCommand gpio_lcd (Z.lor LCD_DGRAM (r + 7)))
                                   [Byte 0 (Z.lor LCD_DGRAM (r + 7))])
                          0 (set_cy (set_cx gpio_lcd 7) 2)) /\
       live (stored (sent gpio_state (putCommand gpio_lcd (Z.lor LCD_DGRAM (r + 7)))
                             [Byte 0 (Z.lor LCD_DGRAM (r + 7))])
                    0 (set_cy (set_cx gpio_lcd 7) 2))
            0 (set_cy (set_cx gpio_lcd 7) 2)).
Proof.
  assert (H : live gpio_state 0 gpio_lcd)
    by (split; [unfold MAX_LCDS; lia | reflexivity]).
  assert (Hc : 0 <= cols gpio_lcd <= 20) by (simpl; lia).
  split; [exact H|]. split; [exact Hc|].
  exact (lcdPosition_cases gpio_state 0 gpio_lcd 7 2 H Hc).
Defined.

(** C2 as stated fails: on the 20x4 display, [y = 4] is neither negative nor
    above [rows], so the call is not ignored; it reads [rowOff [4]], which
    the table does not have, and no command byte is defined. *)
Lemma lcdPosition_row4_undefined :
  live gpio_state 0 gpio_lcd /\
  ~ (0 < 0 \/ 0 > cols gpio_lcd \/ 4 < 0 \/ 4 > rows gpio_lcd) /\
  rowOff !! Z.to_nat 4 = None /\
  lcdPosition 0 0 4 gpio_state = None.
Proof.
  split; [split; [unfold MAX_LCDS; lia | reflexivity]|].
  split; [simpl; lia|]. split; reflexivity.
Qed.

Lemma tall_state_made : lcdNew tall_config fair boot = Some (0, tall_state).
Proof. reflexivity. Qed.

Lemma tall_live : live tall_state 0 tall_lcd.
Proof. split; [unfold MAX_LCDS; lia | reflexivity]. Qed.

(** ** Claim C3 *)

Lemma set_cx_same lcd : set_cx lcd (cx lcd) = lcd.
Proof. now destruct lcd. Qed.

Lemma putchars_cons fd d ds st :
  putchars fd (d :: ds) st = (lcdPutchar fd d ;; putchars fd ds) st.
Proof. reflexivity. Qed.

(** Characters that do not reach the last column only advance [cx]. *)
Lemma putchars_in_row fd ds : forall st lcd,
  live st fd lcd ->
  cx lcd + Z.of_nat (length ds) < cols lcd ->
  putchars fd ds st =
    Some (tt, stored (sent st (flat_map (fun d => sendDataCmd lcd (uchar d) 1) ds)
                              (map (fun d => Byte 1 (uchar d)) ds))
                     fd (set_cx lcd (cx lcd + Z.of_nat (length ds)))).
Proof.
  induction ds as [|d ds IH]; intros st lcd H Hlt.
  - cbn [length Z.of_nat flat_map map]. rewrite Z.add_0_r, set_cx_same.
    unfold sent. rewrite !app_nil_r.
    rewrite stored_id; [now destruct st | exact H].
  - cbn [length] in Hlt. rewrite putchars_cons.
    erewrite bind_Some by (apply lcdPutchar_next; [exact H | lia]).
    rewrite (IH _ (set_cx lcd (cx lcd + 1)));
      [| eapply live_stored; apply live_sent; exact H | unfold set_cx; cbn [cx cols]; lia].
    f_equal. f_equal. cbn [cx set_cx].
    apply state_eq; cbn [lcds lcdControl initialised trace bus sent stored flat_map map];
      rewrite <- ?app_assoc; try reflexivity.
    rewrite list_insert_insert_eq. unfold set_cx.
    cbn [bits rows cols rsPin strbPin dataPins cx cy i2c_fd backlight_bit
         backlight_state].
    replace (cx lcd + 1 + Z.of_nat (length ds))
      with (cx lcd + Z.of_nat (S (length ds))) by lia.
    reflexivity.
Qed.

(** Characters that end exactly on the last column of row 0 (of at least two
    rows) wrap to row 1. *)
Lemma putchars_to_row_end fd ds : forall st lcd,
  live st fd lcd ->
  rows lcd >= 2 -> cy lcd = 0 -> ds <> [] ->
  cx lcd + Z.of_nat (length ds) = cols lcd ->
  putchars fd ds st =
    Some (tt, sent (stored (sent st (flat_map (fun d => sendDataCmd lcd (uchar d) 1) ds)
                                    (map (fun d => Byte 1 (uchar d)) ds))
                           fd (set_cy (set_cx lcd 0) 1))
                   (putCommand lcd (Z.lor LCD_DGRAM 0x40))
                   [Byte 0 (Z.lor LCD_DGRAM 0x40)]).
Proof.
  induction ds as [|d ds IH]; intros st lcd H Hr Hcy Hne Hlen; [congruence|].
  rewrite putchars_cons. destruct ds as [|d' ds].
  - cbn [length] in Hlen.
    erewrite bind_Some.
    2:{ apply (lcdPutchar_wrap _ _ _ _ 0x40 H); [lia | |].
        - destruct (cy lcd + 1 =? rows lcd); lia.
        - rewrite Hcy. replace (0 + 1 =? rows lcd) with false
            by (symmetry; apply Z.eqb_neq; lia). reflexivity. }
    rewrite Hcy. replace (0 + 1 =? rows lcd) with false
      by (symmetry; apply Z.eqb_neq; lia).
    cbn [flat_map map]. rewrite !app_nil_r. reflexivity.
  - cbn [length] in Hlen.
    erewrite bind_Some by (apply lcdPutchar_next; [exact H | cbn [length] in *; lia]).
    rewrite (IH _ (set_cx lcd (cx lcd + 1)));
      [| eapply live_stored; apply live_sent; exact H | exact Hr | exact Hcy
       | discriminate | unfold set_cx; cbn [cx cols length] in *; lia].
    f_equal. f_equal.
    apply state_eq;
      cbn [lcds lcdControl initialised trace bus sent stored flat_map map];
      rewrite <- ?app_assoc; try reflexivity.
    now rewrite list_insert_insert_eq.
Qed.

(** C3, as amended. On a handle with at least one column and two rows,
    [cols] calls of [lcdPutchar] from the cursor (0,0) send the [cols] bytes
    with RS high, then the command [0x80 | rowOff [1]], and leave the cursor
    at (0,1).  In general a call sends its byte with RS high and increments
    [cx]; when [cx] reaches [cols] it stores [cx = 0] and the next row in
    [cy] (0 when that reaches [rows]) and, when the new row is one of the
    four of [rowOff], sends the command [0x80 | rowOff [cy]]. *)
Theorem lcdPutchar_wraps st fd lcd :
  live st fd lcd ->
  (forall ds,
     cols lcd >= 1 -> rows lcd >= 2 -> cx lcd = 0 -> cy lcd = 0 ->
     Z.of_nat (length ds) = cols lcd ->
     rowOff !! 1%nat = Some 0x40 /\
     putchars fd ds st =
       Some (tt, sent (stored (sent st (flat_map (fun d => sendDataCmd lcd (uchar d) 1) ds)
                                       (map (fun d => Byte 1 (uchar d)) ds))
                              fd (set_cy (set_cx lcd 0) 1))
                      (putCommand lcd (Z.lor LCD_DGRAM 0x40))
                      [Byte 0 (Z.lor LCD_DGRAM 0x40)])) /\
  (forall data,
     (cx lcd + 1 <> cols lcd ->
        lcdPutchar fd data st =
          Some (tt, stored (sent st (sendDataCmd lcd (uchar data) 1)
                                    [Byte 1 (uchar data)])
                           fd (set_cx lcd (cx lcd + 1)))) /\
     (cx lcd + 1 = cols lcd ->
        forall y, y = (if cy lcd + 1 =? rows lcd then 0 else cy lcd + 1) ->
        0 <= y <= 3 ->
        exists r,
          rowOff !! Z.to_nat y = Some r /\
          lcdPutchar fd data st =
            Some (tt, sent (stored (sent st (sendDataCmd lcd (uchar data) 1)
                                            [Byte 1 (uchar data)])
                                   fd (set_cy (set_cx lcd 0) y))
                           (putCommand lcd (Z.lor LCD_DGRAM r))
                           [Byte 0 (Z.lor LCD_DGRAM r)]))).
Proof.
  intros H. split.
  - intros ds Hc Hr Hx Hy Hlen. split; [reflexivity|].
    apply putchars_to_row_end; auto.
    + intros ->. cbn in Hlen. lia.
    + lia.
  - intros data. split.
    + intros Hne. now apply lcdPutchar_next.
    + intros Heq y -> Hy. destruct (rowOff_defined _ Hy) as [r Hr].
      exists r. split; [exact Hr|].
      rewrite (lcdPutchar_wrap _ _ _ _ r H Heq) by (auto; lia).
      rewrite (set_ddram_byte r 0 _ Hr) by lia.
      now rewrite Z.add_0_r.
Qed.

Lemma lcdPutchar_wraps_witness :
  live expander_state 0 expander_lcd /\
  putchars 0 (replicate 16 65) expander_state =
    Some (tt, sent (stored (sent expander_state
                              (flat_map (fun d => sendDataCmd expander_lcd (uchar d) 1)
                                        (replicate 16 65))
                              (map (fun d => Byte 1 (uchar d)) (replicate 16 65)))
                           0 (set_cy (set_cx expander_lcd 0) 1))
                   (putCommand expander_lcd (Z.lor LCD_DGRAM 0x40))
                   [Byte 0 (Z.lor LCD_DGRAM 0x40)]).
Proof.
  assert (H : live expander_state 0 expander_lcd)
    by (split; [unfold MAX_LCDS; lia | reflexivity]).
  split; [exact H|].
  apply (proj1 (lcdPutchar_wraps expander_state 0 expander_lcd H) (replicate 16 65));
    simpl; lia.
Defined.

(** C3 as stated fails in its general part: on the five-row, one-column
    display the factory accepts, the fourth character wraps to row 4, and the
    command for it would need [rowOff [4]]: no such byte is defined. *)
Lemma lcdPutchar_row4_undefined :
  exists st lcd,
    putchars 0 [65; 65; 65] tall_state = Some (tt, st) /\
    live st 0 lcd /\ cx lcd + 1 = cols lcd /\ cy lcd + 1 = 4 /\
    rowOff !! Z.to_nat 4 = None /\
    lcdPutchar 0 65 st = None.
Proof.
  let r := eval vm_compute in (putchars 0 [65; 65; 65] tall_state) in
  lazymatch r with
  | Some (_, ?st) =>
      exists st;
      let l := eval vm_compute in (lcds st !! 0%nat) in
      lazymatch l with Some (Some ?lcd) => exists lcd end
  end.
  split; [vm_compute; reflexivity|].
  split; [split; [unfold MAX_LCDS; lia | vm_compute; reflexivity]|].
  repeat split; vm_compute; reflexivity.
Qed.

(** ** Claim C8 *)

(** C8, as amended. Two calls of [lcdPosition] in a row with the same
    accepted [x] and a [y] of at most 3 each send the same command byte
    [0x80 | (rowOff [y] + x)] through the same wiringPi calls, and the second
    call leaves the handle table (so [cx], [cy] and every other field),
    [lcdControl] and [initialised] as the first call left them. *)
Theorem lcdPosition_twice st fd lcd x y :
  live st fd lcd -> 0 <= cols lcd <= 20 ->
  0 <= x <= cols lcd -> 0 <= y <= rows lcd -> y <= 3 ->
  exists st1 st2 r,
    rowOff !! Z.to_nat y = Some r /\
    lcdPosition fd x y st = Some (tt, st1) /\
    lcdPosition fd x y st1 = Some (tt, st2) /\
    trace st1 = trace st ++ putCommand lcd (Z.lor LCD_DGRAM (r + x)) /\
    trace st2 = trace st1 ++ putCommand lcd (Z.lor LCD_DGRAM (r + x)) /\
    bus st1 = bus st ++ [Byte 0 (Z.lor LCD_DGRAM (r + x))] /\
    bus st2 = bus st1 ++ [Byte 0 (Z.lor LCD_DGRAM (r + x))] /\
    lcds st2 = lcds st1 /\
    lcdControl st2 = lcdControl st1 /\
    initialised st2 = initialised st1.
Proof.
  intros H Hc Hx Hy Hy3.
  destruct (lcdPosition_sets st fd lcd x y H Hc Hx Hy Hy3)
    as (r & Hr & Hrun & Hlive).
  set (lcd1 := set_cy (set_cx lcd x) y) in *.
  assert (Hc1 : 0 <= cols lcd1 <= 20) by exact Hc.
  destruct (lcdPosition_sets _ fd lcd1 x y Hlive Hc1 Hx Hy Hy3)
    as (r' & Hr' & Hrun' & _).
  assert (r' = r) by congruence. subst r'.
  eexists _, _, r. split; [exact Hr|].
  split; [exact Hrun|]. split; [exact Hrun'|].
  repeat split.
  cbn [lcds stored sent]. now rewrite list_insert_insert_eq.
Qed.

Lemma lcdPosition_twice_witness :
  live gpio_state 0 gpio_lcd /\ 0 <= cols gpio_lcd <= 20 /\
  0 <= 7 <= cols gpio_lcd /\ 0 <= 2 <= rows gpio_lcd /\ 2 <= 3 /\
  exists st1 st2 r,
    rowOff !! Z.to_nat 2 = Some r /\
    lcdPosition 0 7 2 gpio_state = Some (tt, st1) /\
    lcdPosition 0 7 2 st1 = Some (tt, st2) /\
    trace st1 = trace gpio_state ++ putCommand gpio_lcd (Z.lor LCD_DGRAM (r + 7)) /\
    trace st2 = trace st1 ++ putCommand gpio_lcd (Z.lor LCD_DGRAM (r + 7)) /\
    bus st1 = bus gpio_state ++ [Byte 0 (Z.lor LCD_DGRAM (r + 7))] /\
    bus st2 = bus st1 ++ [Byte 0 (Z.lor LCD_DGRAM (r + 7))] /\
    lcds st2 = lcds st1 /\
    lcdControl st2 = lcdControl st1 /\
    initialised st2 = initialised st1.
Proof.
  assert (H : live gpio_state 0 gpio_lcd)
    by (split; [unfold MAX_LCDS; lia | reflexivity]).
  assert (Hc : 0 <= cols gpio_lcd <= 20) by (simpl; lia).
  assert (Hx : 0 <= 7 <= cols gpio_lcd) by (simpl; lia).
  assert (Hy : 0 <= 2 <= rows gpio_lcd) by (simpl; lia).
  assert (Hy3 : 2 <= 3) by lia.
  repeat (split; [assumption|]).
  exact (lcdPosition_twice gpio_state 0 gpio_lcd 7 2 H Hc Hx Hy Hy3).
Defined.

(** C8 as stated fails: on the five-row display the arguments (0,4) are in
    range ([0 <= 0 < cols], [0 <= 4 < rows]), and already the first call
    reads [rowOff [4]]. *)
Lemma lcdPosition_twice_row4_undefined :
  live tall_state 0 tall_lcd /\
  0 <= 0 < cols tall_lcd /\ 0 <= 4 < rows tall_lcd /\
  lcdPosition 0 0 4 tall_state = None.
Proof.
  split; [split; [unfold MAX_LCDS; lia | reflexivity]|].
  split; [simpl; lia|]. split; [simpl; lia|]. reflexivity.
Qed.

(** ** Calls on a handle keep the panel *)

Lemma same_panel_refl a : same_panel a a.
Proof. reflexivity. Qed.

Lemma same_panel_sym a b : same_panel a b -> same_panel b a.
Proof. unfold same_panel. congruence. Qed.

Lemma same_panel_trans a b c : same_panel a b -> same_panel b c -> same_panel a c.
Proof. unfold same_panel. congruence. Qed.

Lemma same_panel_set_cx a b v : same_panel a b -> same_panel a (set_cx b v).
Proof. exact (fun H => H). Qed.

Lemma same_panel_set_cy a b v : same_panel a b -> same_panel a (set_cy b v).
Proof. exact (fun H => H). Qed.

Lemma same_panel_fields a b :
  same_panel a b ->
  bits a = bits b /\ rows a = rows b /\ cols a = cols b /\
  rsPin a = rsPin b /\ strbPin a = strbPin b /\ dataPins a = dataPins b /\
  i2c_fd a = i2c_fd b /\ backlight_bit a = backlight_bit b /\
  backlight_state a = backlight_state b.
Proof.
  unfold same_panel, set_cx, set_cy. cbn. intros E. now inversion E.
Qed.

Lemma same_panel_sendDataCmd a b data rs :
  same_panel a b -> sendDataCmd a data rs = sendDataCmd b data rs.
Proof.
  intros E. change (sendDataCmd (set_cy (set_cx a 0) 0) data rs
                    = sendDataCmd (set_cy (set_cx b 0) 0) data rs).
  now rewrite E.
Qed.

Lemma same_panel_putCommand a b command :
  same_panel a b -> putCommand a command = putCommand b command.
Proof. intros E. unfold putCommand. now rewrite (same_panel_sendDataCmd a b). Qed.

Lemma same_panel_put4Command a b command :
  same_panel a b -> put4Command a command = put4Command b command.
Proof.
  intros E. change (put4Command (set_cy (set_cx a 0) 0) command
                    = put4Command (set_cy (set_cx b 0) 0) command).
  now rewrite E.
Qed.

Section Keeps.
Variable fd : Z.
Variable p : lcdDataStruct.

Lemma moved_refl st : points_to fd p st -> moved fd p st st.
Proof.
  intros H. repeat split; auto.
  exists [], []. rewrite !app_nil_r. auto.
Qed.

Lemma moved_trans st st1 st2 :
  moved fd p st st1 -> moved fd p st1 st2 -> moved fd p st st2.
Proof.
  intros (_ & Hi & Hl & Ho & evs & xs & Ht & Hb & Hf)
         (Hp & Hi' & Hl' & Ho' & evs' & xs' & Ht' & Hb' & Hf').
  split; [exact Hp|]. split; [congruence|]. split; [congruence|].
  split; [intros j Hj; rewrite Ho', Ho; auto|].
  exists (evs ++ evs'), (xs ++ xs').
  rewrite Ht', Ht, Hb', Hb, <- !app_assoc. repeat split.
  apply Forall_app. auto.
Qed.

Lemma keeps_ret {A} (a : A) : keeps fd p (ret a).
Proof. intros st a' st' H E. inversion E; subst. now apply moved_refl. Qed.

Lemma keeps_undefined {A} : keeps fd p (@undefined A).
Proof. intros st a st' _ [=]. Qed.

Lemma keeps_bind {A B} (m : M A) (k : A -> M B) :
  keeps fd p m -> (forall a, keeps fd p (k a)) -> keeps fd p (bind m k).
Proof.
  intros Hm Hk st b st' H Hrun.
  apply bind_inv in Hrun as (a & st1 & H1 & H2).
  pose proof (Hm _ _ _ H H1) as M1.
  eapply moved_trans; [exact M1|].
  eapply Hk; [apply M1 | exact H2].
Qed.

Lemma keeps_emit evs xs : Forall (emitted_by p) evs -> keeps fd p (emit evs xs).
Proof.
  intros Hf st a st' H E. inversion E; subst; clear E.
  split; [exact H|]. do 3 (split; [reflexivity|]).
  exists evs, xs. auto.
Qed.

Lemma keeps_handle {B} (k : lcdDataStruct -> M B) :
  (forall l, same_panel p l -> keeps fd p (k l)) ->
  keeps fd p (bind (handle fd) k).
Proof.
  intros Hk st b st' H Hrun.
  apply bind_inv in Hrun as (l & st1 & H1 & H2).
  apply handle_inv in H1 as [-> Hl].
  destruct H as (l' & Hl' & Hp).
  assert (l' = l) by (eapply live_unique; eauto). subst l'.
  eapply Hk; [exact Hp | exists l; auto | exact H2].
Qed.

Lemma keeps_assign l : same_panel p l -> keeps fd p (assign fd l).
Proof.
  intros Hp st a st' (l0 & Hl0 & _) E. inversion E; subst; clear E.
  split; [exists l; split; [eapply live_stored; eauto | exact Hp]|].
  split; [reflexivity|]. split; [apply length_insert|].
  split; [intros j Hj; cbn; now rewrite list_lookup_insert_ne by congruence|].
  exists [], []. cbn. rewrite !app_nil_r. auto.
Qed.

Lemma keeps_get_lcdControl : keeps fd p get_lcdControl.
Proof. intros st a st' H E. inversion E; subst. now apply moved_refl. Qed.

Lemma keeps_set_lcdControl v : keeps fd p (set_lcdControl v).
Proof.
  intros st a st' H E. inversion E; subst; clear E.
  split; [exact H|]. do 3 (split; [reflexivity|]).
  exists [], []. cbn. rewrite !app_nil_r. auto.
Qed.

Lemma keeps_rowOff_at y : keeps fd p (rowOff_at y).
Proof.
  intros st r st' H Hrun. apply rowOff_at_inv in Hrun as [-> _].
  now apply moved_refl.
Qed.

Lemma keeps_delay n : keeps fd p (delay n).
Proof. apply keeps_emit. repeat constructor. now apply (by_delay _ _ n). Qed.

Lemma keeps_putCommand l command :
  same_panel p l -> keeps fd p (run_putCommand l command).
Proof.
  intros Hp. apply keeps_emit. apply List.Forall_forall. intros e He.
  apply (by_command _ _ command). now rewrite (same_panel_putCommand p l).
Qed.

Lemma keeps_sendData l data :
  same_panel p l -> keeps fd p (run_sendDataCmd l data 1).
Proof.
  intros Hp. apply keeps_emit. apply List.Forall_forall. intros e He.
  apply (by_data _ _ data). now rewrite (same_panel_sendDataCmd p l).
Qed.

Lemma keeps_put4Command l command :
  same_panel p l -> keeps fd p (run_put4Command l command).
Proof.
  intros Hp. apply keeps_emit. apply List.Forall_forall. intros e He.
  apply (by_nibble _ _ command). now rewrite (same_panel_put4Command p l).
Qed.
End Keeps.

Ltac keeps_step :=
  lazymatch goal with
  | |- keeps _ _ (bind (handle _) _) =>
      apply keeps_handle; let l := fresh "l" in let Hl := fresh "Hl" in intros l Hl
  | |- keeps _ _ (bind _ _) => apply keeps_bind; [|intros ?]
  | |- keeps _ _ (ret _) => apply keeps_ret
  | |- keeps _ _ undefined => apply keeps_undefined
  | |- keeps _ _ (run_putCommand _ _) => apply keeps_putCommand; assumption
  | |- keeps _ _ (run_sendDataCmd _ _ 1) => apply keeps_sendData; assumption
  | |- keeps _ _ (run_put4Command _ _) => apply keeps_put4Command; assumption
  | |- keeps _ _ (delay _) => apply keeps_delay
  | |- keeps _ _ (assign _ _) => apply keeps_assign; assumption
  | |- keeps _ _ get_lcdControl => apply keeps_get_lcdControl
  | |- keeps _ _ (set_lcdControl _) => apply keeps_set_lcdControl
  | |- keeps _ _ (rowOff_at _) => apply keeps_rowOff_at
  | |- keeps _ _ (if ?b then _ else _) => destruct b
  end.

Section KeepsInterface.
Variable fd : Z.
Variable p : lcdDataStruct.

Lemma keeps_lcdHome : keeps fd p (lcdHome fd).
Proof. unfold lcdHome. repeat keeps_step. Qed.

Lemma keeps_lcdClear : keeps fd p (lcdClear fd).
Proof. unfold lcdClear. repeat keeps_step. Qed.

Lemma keeps_lcdControlBit mask s : keeps fd p (lcdControlBit mask fd s).
Proof. unfold lcdControlBit. repeat keeps_step. Qed.

Lemma keeps_lcdSendCommand command : keeps fd p (lcdSendCommand fd command).
Proof. unfold lcdSendCommand. repeat keeps_step. Qed.

Lemma keeps_lcdPosition x y : keeps fd p (lcdPosition fd x y).
Proof. unfold lcdPosition. repeat keeps_step. Qed.

Lemma keeps_charDef_loop l data n :
  same_panel p l -> forall i, keeps fd p (charDef_loop l data n i).
Proof.
  intros Hl. induction n as [|n IH]; intros i; cbn [charDef_loop].
  - apply keeps_ret.
  - destruct (data !! i); repeat keeps_step. apply IH.
Qed.

Lemma keeps_lcdCharDef index data : keeps fd p (lcdCharDef fd index data).
Proof.
  unfold lcdCharDef. repeat keeps_step. now apply keeps_charDef_loop.
Qed.

Lemma keeps_lcdPutchar data : keeps fd p (lcdPutchar fd data).
Proof.
  unfold lcdPutchar. cbv zeta. keeps_step. keeps_step; [keeps_step|].
  keeps_step; [keeps_step|].
  destruct (cx (set_cx l (cx l + 1)) =? cols (set_cx l (cx l + 1)));
    [|apply keeps_ret].
  destruct (cy (set_cy (set_cx (set_cx l (cx l + 1)) 0)
                       (cy (set_cx (set_cx l (cx l + 1)) 0) + 1))
            =? rows (set_cy (set_cx (set_cx l (cx l + 1)) 0)
                            (cy (set_cx (set_cx l (cx l + 1)) 0) + 1)));
    repeat keeps_step.
Qed.

Lemma keeps_lcdPuts string : keeps fd p (lcdPuts fd string).
Proof.
  induction string as [|c rest IH]; cbn [lcdPuts].
  - apply keeps_ret.
  - destruct (c =? 0); [apply keeps_ret|].
    apply keeps_bind; [apply keeps_lcdPutchar | intros _; exact IH].
Qed.

Lemma keeps_lcdReinit : keeps fd p (lcdReinit fd).
Proof.
  unfold lcdReinit, lcdDisplay, lcdCursor, lcdCursorBlink. keeps_step.
  apply keeps_bind; [destruct (bits l =? 4); repeat keeps_step|]. intros func.
  apply keeps_bind; [destruct (rows l >? 1); cbv zeta; repeat keeps_step|]. intros _.
  apply keeps_bind; [apply keeps_lcdControlBit|]. intros _.
  apply keeps_bind; [apply keeps_lcdControlBit|]. intros _.
  apply keeps_bind; [apply keeps_lcdControlBit|]. intros _.
  apply keeps_bind; [apply keeps_lcdClear|]. intros _.
  repeat keeps_step.
Qed.

Lemma keeps_quiet o : quiet o -> keeps fd p (run_op fd o).
Proof.
  destruct o; cbn [quiet run_op]; intros Hq.
  - apply keeps_lcdHome.
  - apply keeps_lcdClear.
  - apply keeps_lcdControlBit.
  - apply keeps_lcdControlBit.
  - apply keeps_lcdControlBit.
  - apply keeps_lcdSendCommand.
  - apply keeps_lcdPosition.
  - apply keeps_lcdCharDef.
  - apply keeps_lcdPutchar.
  - apply keeps_lcdPuts.
  - apply keeps_lcdPuts.
  - apply keeps_lcdReinit.
  - contradiction.
Qed.
End KeepsInterface.

(** ** The factory *)

Lemma find_free_found table : forall i,
  0 <= i -> find_free table i <> -1 ->
  exists k,
    find_free table i = i + Z.of_nat k /\
    table !! k = Some None /\
    forall j, (j < k)%nat -> exists l, table !! j = Some (Some l).
Proof.
  induction table as [|[l|] table IH]; intros i Hi Hf; cbn [find_free] in *.
  - congruence.
  - destruct (IH (i + 1)) as (k & Hk & Hnone & Hbefore); [lia | exact Hf |].
    exists (S k). split; [lia|]. split; [exact Hnone|].
    intros [|j] Hj; [now exists l | apply Hbefore; lia].
  - exists 0%nat. split; [lia|]. split; [reflexivity|]. intros j Hj. lia.
Qed.

Lemma find_free_full table : forall i,
  0 <= i -> find_free table i = -1 ->
  forall j, (j < length table)%nat -> exists l, table !! j = Some (Some l).
Proof.
  induction table as [|[l|] table IH]; intros i Hi Hf j Hj; cbn [find_free length] in *.
  - lia.
  - destruct j as [|j]; [now exists l|]. apply (IH (i + 1)); [lia | exact Hf | lia].
  - lia.
Qed.

Lemma find_free_range table i :
  0 <= i -> find_free table i <> -1 ->
  i <= find_free table i < i + Z.of_nat (length table).
Proof.
  intros Hi Hf. destruct (find_free_found table i Hi Hf) as (k & -> & Hk & _).
  apply lookup_lt_Some in Hk. lia.
Qed.

Lemma valid_checks config :
  valid config <->
  negb ((Config.bits config =? 4) || (Config.bits config =? 8)) = false /\
  (Config.rows config <? 0) || (Config.rows config >? 20) = false /\
  (Config.cols config <? 0) || (Config.cols config >? 20) = false.
Proof. unfold valid. lia. Qed.

(** The three ways [lcdNew] gives up. *)
Lemma lcdNew_refuses config env st :
  ~ valid config \/ find_free (table_seen st) 0 = -1 \/ malloc_ok env = false ->
  exists st',
    lcdNew config env st = Some (-1, st') /\
    lcds st' = table_seen st /\ initialised st' <> 0 /\
    lcdControl st' = lcdControl st /\ trace st' = trace st /\ bus st' = bus st.
Proof.
  intros Hwhy. unfold lcdNew, table_seen in *.
  set (st1 := if initialised st =? 0 then _ else st) in *.
  assert (H1 : lcds st1 = (if initialised st =? 0
                           then replicate (Z.to_nat MAX_LCDS) None else lcds st)
               /\ initialised st1 <> 0 /\ lcdControl st1 = lcdControl st
               /\ trace st1 = trace st /\ bus st1 = bus st).
  { subst st1. destruct (initialised st =? 0) eqn:E; cbn; repeat split; try lia. }
  destruct H1 as (Hl & Hrest).
  destruct (negb ((Config.bits config =? 4) || (Config.bits config =? 8))) eqn:Eb;
    [exists st1; auto|].
  destruct ((Config.rows config <? 0) || (Config.rows config >? 20)) eqn:Er;
    [exists st1; auto|].
  destruct ((Config.cols config <? 0) || (Config.cols config >? 20)) eqn:Ec;
    [exists st1; auto|].
  rewrite Hl.
  destruct (find_free _ 0 =? -1) eqn:Ef; [exists st1; auto|].
  destruct (malloc_ok env) eqn:Em; [|exists st1; auto].
  exfalso. destruct Hwhy as [Hv|[Hf|Hm]].
  - apply Hv. apply valid_checks. auto.
  - apply Z.eqb_neq in Ef. contradiction.
  - discriminate.
Qed.

(** The struct [lcdNew] builds. *)
Lemma lcdNew_makes config env st :
  valid config -> find_free (table_seen st) 0 <> -1 -> malloc_ok env = true ->
  exists st' lcd evs,
    lcdNew config env st = Some (find_free (table_seen st) 0, st') /\
    lcds st' = <[Z.to_nat (find_free (table_seen st) 0) := Some lcd]> (table_seen st) /\
    initialised st' <> 0 /\
    lcdControl st' = lcdControl st /\
    trace st' = trace st ++ evs /\ bus st' = bus st /\
    bits lcd = Config.bits config /\ rows lcd = Config.rows config /\
    cols lcd = Config.cols config /\ cx lcd = 0 /\ cy lcd = 0.
Proof.
  intros Hv Hf Hm. unfold lcdNew, table_seen in *.
  set (st1 := if initialised st =? 0 then _ else st) in *.
  assert (H1 : lcds st1 = (if initialised st =? 0
                           then replicate (Z.to_nat MAX_LCDS) None else lcds st)
               /\ initialised st1 <> 0 /\ lcdControl st1 = lcdControl st
               /\ trace st1 = trace st /\ bus st1 = bus st).
  { subst st1. destruct (initialised st =? 0) eqn:E; cbn; repeat split; try lia. }
  destruct H1 as (Hl & Hi & Hc & Ht & Hb).
  apply valid_checks in Hv as (-> & -> & ->).
  rewrite Hl. rewrite Hm.
  replace (find_free _ 0 =? -1) with false by (symmetry; apply Z.eqb_neq; exact Hf).
  cbn [negb]. rewrite <- Hl.
  assert (Hnil : forall l : list xfer, l ++ [] ++ [] ++ [] = l)
    by (intros l; cbn [app]; apply app_nil_r).
  assert (Hnil' : forall l : list xfer, l ++ [] ++ [] = l)
    by (intros l; cbn [app]; apply app_nil_r).
  destruct (truthy (Config.i2c_addr config)) eqn:Ea.
  - destruct (truthy (i2c_setup env)) eqn:Es;
      cbn [i2c_fd]; rewrite ?Es; unfold bind, emit, assign, delay, ret;
      eexists _, _, _; (split; [reflexivity|]);
      cbn [lcds lcdControl initialised trace bus sent stored
           bits rows cols cx cy];
      rewrite ?Ht, ?Hb, <- ?app_assoc, ?Hnil, ?Hnil';
      repeat split; auto.
  - cbn [i2c_fd]. change (truthy 0) with false.
    unfold bind, emit, assign, delay, ret.
    eexists _, _, _. split; [reflexivity|].
    cbn [lcds lcdControl initialised trace bus sent stored bits rows cols cx cy].
    rewrite ?Ht, ?Hb, <- ?app_assoc, ?Hnil, ?Hnil'.
    repeat split; auto.
Qed.

Lemma lcdNew_cases config env st :
  (~ valid config \/ find_free (table_seen st) 0 = -1 \/ malloc_ok env = false)
  \/ (valid config /\ find_free (table_seen st) 0 <> -1 /\ malloc_ok env = true).
Proof.
  unfold valid. destruct (malloc_ok env); [|auto].
  destruct (Z.eq_dec (find_free (table_seen st) 0) (-1)) as [E|E]; [auto|].
  assert (D : (Config.bits config = 4 \/ Config.bits config = 8) /\
              0 <= Config.rows config <= 20 /\ 0 <= Config.cols config <= 20
              \/ ~ ((Config.bits config = 4 \/ Config.bits config = 8) /\
                    0 <= Config.rows config <= 20 /\ 0 <= Config.cols config <= 20))
    by lia.
  destruct D; auto.
Qed.

(** ** Handles survive every call *)

Lemma same_panel_wiring a b : same_panel a b -> same_wiring a b.
Proof.
  unfold same_panel, same_wiring. intros E.
  change (set_backlight_state (set_cy (set_cx a 0) 0) 0)
    with (set_backlight_state (set_cy (set_cx (set_cy (set_cx a 0) 0) 0) 0) 0).
  rewrite E. reflexivity.
Qed.

Lemma same_wiring_trans a b c : same_wiring a b -> same_wiring b c -> same_wiring a c.
Proof. unfold same_wiring. congruence. Qed.

Lemma same_wiring_fields a b :
  same_wiring a b ->
  bits a = bits b /\ rows a = rows b /\ cols a = cols b /\
  rsPin a = rsPin b /\ strbPin a = strbPin b /\ dataPins a = dataPins b /\
  i2c_fd a = i2c_fd b /\ backlight_bit a = backlight_bit b.
Proof.
  unfold same_wiring, set_backlight_state, set_cx, set_cy. cbn.
  intros E. now inversion E.
Qed.

(** A call that returns has found its handle, unless it had nothing to do. *)
Lemma run_op_live fd o st st' :
  run_op fd o st = Some (tt, st') -> st' = st \/ exists l, live st fd l.
Proof.
  assert (Hh : forall (k : lcdDataStruct -> M unit) s',
             bind (handle fd) k st = Some (tt, s') -> exists l, live st fd l).
  { intros k s' Hk. apply bind_inv in Hk as (l & st1 & H1 & _).
    apply handle_inv in H1 as [_ Hl]. eauto. }
  assert (Hs : forall string, lcdPuts fd string st = Some (tt, st') ->
                              st' = st \/ exists l, live st fd l).
  { intros [|c rest]; cbn [lcdPuts]; [intros [= <-]; auto|].
    destruct (c =? 0); [intros [= <-]; auto|].
    intros Hk. apply bind_inv in Hk as (u & st1 & H1 & _).
    right. unfold lcdPutchar in H1. eapply Hh. destruct u. exact H1. }
  destruct o; cbn [run_op]; intros Hrun;
    try exact (Hs _ Hrun);
    right; unfold lcdDisplay, lcdCursor, lcdCursorBlink in *; eapply Hh; exact Hrun.
Qed.

Lemma moved_live fd p st st' fd0 lcd0 :
  live st fd p -> moved fd p st st' -> live st fd0 lcd0 ->
  exists lcd0', live st' fd0 lcd0' /\ same_panel lcd0 lcd0'.
Proof.
  intros Hp ((l & Hl & Hpl) & _ & _ & Ho & _) H0.
  destruct (Z.eq_dec fd0 fd) as [->|Hne].
  - assert (lcd0 = p) by (eapply live_unique; eauto). subst lcd0.
    exists l. auto.
  - exists lcd0. split; [|reflexivity].
    destruct H0 as [Hr H0]. destruct Hp as [Hr' _]. split; [exact Hr|].
    rewrite Ho; [exact H0 | lia].
Qed.

Lemma lcdBacklight_live fd s st st' fd0 lcd0 :
  lcdBacklight fd s st = Some (tt, st') -> live st fd0 lcd0 ->
  initialised st' = initialised st /\
  length (lcds st') = length (lcds st) /\
  exists lcd0', live st' fd0 lcd0' /\ same_wiring lcd0 lcd0'.
Proof.
  intros Hrun H0.
  pose proof Hrun as Hl. unfold lcdBacklight in Hl.
  apply bind_inv in Hl as (l & st1 & H1 & _). apply handle_inv in H1 as [_ Hl].
  rewrite (lcdBacklight_run _ _ _ _ Hl) in Hrun.
  assert (Hs : live (stored st fd (set_backlight_state l s)) fd0
                    (if Z.eq_dec fd0 fd then set_backlight_state l s else lcd0)).
  { destruct (Z.eq_dec fd0 fd) as [->|Hne].
    - eapply live_stored. exact Hl.
    - apply live_stored_ne; [apply H0 | apply Hl | exact Hne | exact H0]. }
  assert (Hw : same_wiring lcd0 (if Z.eq_dec fd0 fd then set_backlight_state l s else lcd0)).
  { destruct (Z.eq_dec fd0 fd) as [->|Hne]; [|reflexivity].
    assert (lcd0 = l) by (eapply live_unique; eauto). subst. reflexivity. }
  destruct (truthy (i2c_fd l)); inversion Hrun; subst; clear Hrun;
    (split; [reflexivity|]); (split; [apply length_insert|]); eauto.
Qed.

Lemma lcdNew_live config env st fd st' fd0 lcd0 :
  initialised st <> 0 ->
  lcdNew config env st = Some (fd, st') -> live st fd0 lcd0 ->
  initialised st' <> 0 /\ length (lcds st') = length (lcds st) /\
  live st' fd0 lcd0 /\ fd <> fd0.
Proof.
  intros Hi Hrun H0.
  assert (Hseen : table_seen st = lcds st).
  { unfold table_seen. now replace (initialised st =? 0) with false
      by (symmetry; apply Z.eqb_neq; exact Hi). }
  destruct (lcdNew_cases config env st) as [Hwhy|(Hv & Hf & Hm)].
  - destruct (lcdNew_refuses _ _ _ Hwhy) as (st1 & E & Hl & Hi1 & _).
    rewrite E in Hrun. inversion Hrun; subst; clear Hrun.
    rewrite Hseen in Hl.
    split; [exact Hi1|]. split; [now rewrite Hl|].
    split; [destruct H0 as [Hr H0]; split; [exact Hr | now rewrite Hl]|].
    destruct H0 as [Hr _]. lia.
  - destruct (lcdNew_makes _ _ _ Hv Hf Hm) as (st1 & lcd & evs & E & Hl & Hi1 & _).
    rewrite E in Hrun. inversion Hrun; subst; clear Hrun.
    rewrite Hseen in *.
    destruct (find_free_found _ 0 ltac:(lia) Hf) as (k & Hk & Hnone & _).
    assert (Hne : find_free (lcds st) 0 <> fd0).
    { intros <-. destruct H0 as [_ H0]. rewrite Hk in H0.
      replace (Z.to_nat (0 + Z.of_nat k)) with k in H0 by lia. congruence. }
    split; [exact Hi1|]. split; [rewrite Hl; apply length_insert|].
    split; [|exact Hne].
    destruct H0 as [Hr H0]. split; [exact Hr|]. rewrite Hl.
    rewrite list_lookup_insert_ne; [exact H0 | lia].
Qed.

Lemma classic_quiet o : quiet o \/ exists s, o = Backlight s.
Proof. destruct o; cbn; eauto. Qed.

Lemma run_op_keeps_handles fd o st st' fd0 lcd0 :
  run_op fd o st = Some (tt, st') -> live st fd0 lcd0 ->
  initialised st' = initialised st /\
  length (lcds st') = length (lcds st) /\
  exists lcd0', live st' fd0 lcd0' /\ same_wiring lcd0 lcd0'.
Proof.
  intros Hrun H0.
  destruct (classic_quiet o) as [Hq|[s ->]].
  - destruct (run_op_live _ _ _ _ Hrun) as [->|[l Hl]].
    + repeat split. exists lcd0. split; [exact H0 | reflexivity].
    + assert (Hm : moved fd l st st').
      { eapply (keeps_quiet fd l o Hq); [|exact Hrun].
        exists l. split; [exact Hl | reflexivity]. }
      destruct (moved_live _ _ _ _ _ _ Hl Hm H0) as (lcd0' & H0' & Hp).
      destruct Hm as (_ & Hi & Hlen & _).
      split; [exact Hi|]. split; [exact Hlen|].
      exists lcd0'. split; [exact H0' | now apply same_panel_wiring].
  - cbn [run_op] in Hrun. eapply lcdBacklight_live; eauto.
Qed.

Lemma run_call_keeps_handles c st st' fd0 lcd0 :
  initialised st <> 0 ->
  run_call c st = Some (tt, st') -> live st fd0 lcd0 ->
  initialised st' <> 0 /\
  length (lcds st') = length (lcds st) /\
  exists lcd0', live st' fd0 lcd0' /\ same_wiring lcd0 lcd0'.
Proof.
  intros Hi Hrun H0. destruct c as [fd o|config env|config env]; cbn [run_call] in Hrun.
  - destruct (run_op_keeps_handles _ _ _ _ _ _ Hrun H0) as (Hi' & Hlen & Hex).
    split; [congruence|]. auto.
  - apply bind_inv in Hrun as (fd & st1 & H1 & H2). inversion H2; subst; clear H2.
    destruct (lcdNew_live _ _ _ _ _ _ _ Hi H1 H0) as (Hi' & Hlen & Hl & _).
    split; [exact Hi'|]. split; [exact Hlen|].
    exists lcd0. split; [exact Hl | reflexivity].
  - apply bind_inv in Hrun as (r & st2 & H1 & H2). unfold lcdInit in H1.
    apply bind_inv in H1 as (fd & st1 & H1 & H3). inversion H2; subst; clear H2.
    destruct (lcdNew_live _ _ _ _ _ _ _ Hi H1 H0) as (Hi' & Hlen & Hl & _).
    destruct (fd <? 0).
    + inversion H3; subst; clear H3.
      split; [exact Hi'|]. split; [exact Hlen|].
      exists lcd0. split; [exact Hl | reflexivity].
    + apply bind_inv in H3 as (u & st3 & H3 & H4). inversion H4; subst; clear H4.
      destruct u.
      destruct (run_op_keeps_handles _ Reinit _ _ _ _ H3 Hl) as (Hi'' & Hlen' & Hex).
      split; [congruence|]. split; [congruence|]. exact Hex.
Qed.

Lemma run_calls_keep_handles cs : forall st st' fd0 lcd0,
  initialised st <> 0 ->
  run_calls cs st = Some (tt, st') -> live st fd0 lcd0 ->
  initialised st' <> 0 /\
  length (lcds st') = length (lcds st) /\
  exists lcd0', live st' fd0 lcd0' /\ same_wiring lcd0 lcd0'.
Proof.
  induction cs as [|c cs IH]; intros st st' fd0 lcd0 Hi Hrun H0; cbn [run_calls] in Hrun.
  - inversion Hrun; subst. repeat split; auto.
    exists lcd0. split; [exact H0 | reflexivity].
  - apply bind_inv in Hrun as (u & st1 & H1 & H2). destruct u.
    destruct (run_call_keeps_handles _ _ _ _ _ Hi H1 H0) as (Hi1 & Hlen1 & l1 & Hl1 & Hw1).
    destruct (IH _ _ _ _ Hi1 H2 Hl1) as (Hi2 & Hlen2 & l2 & Hl2 & Hw2).
    split; [exact Hi2|]. split; [congruence|].
    exists l2. split; [exact Hl2 | eapply same_wiring_trans; eauto].
Qed.

Lemma lcdNew_handle config env st fd st' :
  lcdNew config env st = Some (fd, st') -> fd <> -1 ->
  valid config /\ malloc_ok env = true /\
  fd = find_free (table_seen st) 0 /\
  0 <= fd < Z.of_nat (length (table_seen st)) /\
  initialised st' <> 0 /\
  exists lcd,
    lcds st' = <[Z.to_nat fd := Some lcd]> (table_seen st) /\
    bits lcd = Config.bits config /\ rows lcd = Config.rows config /\
    cols lcd = Config.cols config /\ cx lcd = 0 /\ cy lcd = 0.
Proof.
  intros Hrun Hfd.
  destruct (lcdNew_cases config env st) as [Hwhy|(Hv & Hf & Hm)].
  - destruct (lcdNew_refuses _ _ _ Hwhy) as (st1 & E & _). congruence.
  - destruct (lcdNew_makes _ _ _ Hv Hf Hm)
      as (st1 & lcd & evs & E & Hl & Hi & _ & _ & _ & Hgeo).
    rewrite E in Hrun. inversion Hrun; subst; clear Hrun.
    pose proof (find_free_range _ 0 ltac:(lia) Hf) as Hr.
    split; [exact Hv|]. split; [exact Hm|]. split; [reflexivity|].
    split; [lia|]. split; [exact Hi|]. exists lcd. auto.
Qed.

Lemma table_seen_length st :
  length (lcds st) = Z.to_nat MAX_LCDS -> length (table_seen st) = Z.to_nat MAX_LCDS.
Proof.
  intros H. unfold table_seen. destruct (initialised st =? 0); [|exact H].
  apply length_replicate.
Qed.

(** ** Claim C4 *)

(** C4, as amended. A handle [lcdNew] has returned points to a struct with
    [bits] 4 or 8, [0 <= rows <= 20] and [0 <= cols <= 20], the values of the
    configuration, and this stays so after any sequence of calls of the
    interface (on this handle, on other handles, or of the constructors). *)
Theorem lcdNew_bounds_kept config env st0 fd st :
  well_formed st0 ->
  lcdNew config env st0 = Some (fd, st) -> 0 <= fd ->
  forall cs st', run_calls cs st = Some (tt, st') ->
  exists lcd,
    live st' fd lcd /\ checked lcd /\
    bits lcd = Config.bits config /\ rows lcd = Config.rows config /\
    cols lcd = Config.cols config.
Proof.
  intros [Hlen _] Hnew Hfd cs st' Hrun.
  destruct (lcdNew_handle _ _ _ _ _ Hnew ltac:(lia))
    as (Hv & _ & Hfree & Hrange & Hi & lcd & Hl & Hb & Hr & Hc & _).
  rewrite (table_seen_length _ Hlen) in Hrange.
  assert (Hlive : live st fd lcd).
  { split; [unfold MAX_LCDS in *; lia|].
    rewrite Hl. apply list_lookup_insert_eq.
    rewrite (table_seen_length _ Hlen). lia. }
  destruct (run_calls_keep_handles cs _ _ _ _ Hi Hrun Hlive) as (_ & _ & lcd' & Hl' & Hw).
  apply same_wiring_fields in Hw as (Eb & Er & Ec & _).
  exists lcd'. split; [exact Hl'|].
  unfold checked, valid in *. rewrite <- Eb, <- Er, <- Ec, Hb, Hr, Hc. auto.
Qed.

Lemma lcdNew_bounds_kept_witness :
  well_formed boot /\
  lcdNew expander_config fair boot = Some (0, expander_state) /\ 0 <= 0 /\
  forall cs st', run_calls cs expander_state = Some (tt, st') ->
  exists lcd,
    live st' 0 lcd /\ checked lcd /\
    bits lcd = Config.bits expander_config /\
    rows lcd = Config.rows expander_config /\
    cols lcd = Config.cols expander_config.
Proof.
  assert (Hw : well_formed boot) by (split; [reflexivity | intros _; reflexivity]).
  assert (Hn : lcdNew expander_config fair boot = Some (0, expander_state))
    by reflexivity.
  assert (H0 : 0 <= 0) by lia.
  split; [exact Hw|]. split; [exact Hn|]. split; [exact H0|].
  exact (lcdNew_bounds_kept expander_config fair boot 0 expander_state Hw Hn H0).
Defined.

(** C4 as stated fails: [lcdNew] accepts five rows, and the handle it
    returns points to a struct with [rows = 5], above 4. *)
Lemma lcdNew_five_rows :
  lcdNew tall_config fair boot = Some (0, tall_state) /\
  live tall_state 0 tall_lcd /\
  ~ (0 <= rows tall_lcd <= 4).
Proof.
  split; [reflexivity|].
  split; [split; [unfold MAX_LCDS; lia | reflexivity]|].
  simpl. lia.
Qed.

(** The table stays well formed, from program start on. *)
Lemma well_formed_boot : well_formed boot.
Proof. split; [reflexivity | intros _; reflexivity]. Qed.

Lemma no_handle_before_first_call st fd l :
  well_formed st -> initialised st = 0 -> ~ live st fd l.
Proof.
  intros [_ Hw] Hi [Hr Hl]. rewrite (Hw Hi) in Hl.
  apply lookup_replicate in Hl as [Hl _]. discriminate.
Qed.

Lemma well_formed_op fd o st st' :
  well_formed st -> run_op fd o st = Some (tt, st') -> well_formed st'.
Proof.
  intros Hw Hrun. destruct (run_op_live _ _ _ _ Hrun) as [->|[l Hl]]; [exact Hw|].
  destruct (run_op_keeps_handles _ _ _ _ _ _ Hrun Hl) as (Hi & Hlen & _).
  split; [rewrite Hlen; apply Hw|].
  intros Hi'. exfalso. rewrite Hi in Hi'.
  exact (no_handle_before_first_call _ _ _ Hw Hi' Hl).
Qed.

Lemma well_formed_lcdNew config env st fd st' :
  well_formed st -> lcdNew config env st = Some (fd, st') -> well_formed st'.
Proof.
  intros [Hlen _] Hrun.
  destruct (lcdNew_cases config env st) as [Hwhy|(Hv & Hf & Hm)].
  - destruct (lcdNew_refuses _ _ _ Hwhy) as (st1 & E & Hl & Hi & _).
    rewrite E in Hrun. inversion Hrun; subst; clear Hrun.
    split; [rewrite Hl; now apply table_seen_length | contradiction].
  - destruct (lcdNew_makes _ _ _ Hv Hf Hm) as (st1 & lcd & evs & E & Hl & Hi & _).
    rewrite E in Hrun. inversion Hrun; subst; clear Hrun.
    split; [rewrite Hl, length_insert; now apply table_seen_length | contradiction].
Qed.

Lemma well_formed_call c st st' :
  well_formed st -> run_call c st = Some (tt, st') -> well_formed st'.
Proof.
  intros Hw Hrun. destruct c as [fd o|config env|config env]; cbn [run_call] in Hrun.
  - eapply well_formed_op; eauto.
  - apply bind_inv in Hrun as (fd & st1 & H1 & H2). inversion H2; subst; clear H2.
    eapply well_formed_lcdNew; eauto.
  - apply bind_inv in Hrun as (r & st2 & H1 & H2). unfold lcdInit in H1.
    apply bind_inv in H1 as (fd & st1 & H1 & H3). inversion H2; subst; clear H2.
    pose proof (well_formed_lcdNew _ _ _ _ _ Hw H1) as Hw1.
    destruct (fd <? 0).
    + inversion H3; subst; exact Hw1.
    + apply bind_inv in H3 as (u & st3 & H3 & H4). inversion H4; subst; clear H4.
      destruct u. exact (well_formed_op _ Reinit _ _ Hw1 H3).
Qed.

Lemma well_formed_calls cs : forall st st',
  well_formed st -> run_calls cs st = Some (tt, st') -> well_formed st'.
Proof.
  induction cs as [|c cs IH]; intros st st' Hw Hrun; cbn [run_calls] in Hrun.
  - inversion Hrun; subst; exact Hw.
  - apply bind_inv in Hrun as (u & st1 & H1 & H2). destruct u.
    eapply IH; [|exact H2]. eapply well_formed_call; eauto.
Qed.

(** ** Claim C6 *)

Lemma table_seen_well_formed st : well_formed st -> table_seen st = lcds st.
Proof.
  intros [_ Hw]. unfold table_seen.
  destruct (initialised st =? 0) eqn:E; [|reflexivity].
  apply Z.eqb_eq in E. now rewrite (Hw E).
Qed.

(** C6. [lcdNew] returns -1 exactly when the configuration fails the sanity
    checks (bits not 4 or 8, rows or cols outside 0..20), or none of the
    eight slots of the table is free, or malloc fails; otherwise it returns
    the lowest index of a free slot, in 0..7, and that slot then holds the
    new struct. *)
Theorem lcdNew_returns config env st :
  well_formed st ->
  exists fd st',
    lcdNew config env st = Some (fd, st') /\
    (fd = -1 <->
       ~ valid config
       \/ (forall i, (i < Z.to_nat MAX_LCDS)%nat -> exists l, lcds st !! i = Some (Some l))
       \/ malloc_ok env = false) /\
    (fd <> -1 ->
       0 <= fd < MAX_LCDS /\
       lcds st !! Z.to_nat fd = Some None /\
       (forall j, (j < Z.to_nat fd)%nat -> exists l, lcds st !! j = Some (Some l)) /\
       exists lcd, live st' fd lcd).
Proof.
  intros Hw. pose proof (table_seen_well_formed _ Hw) as Hseen.
  destruct Hw as [Hlen _].
  destruct (lcdNew_cases config env st) as [Hwhy|(Hv & Hf & Hm)].
  - destruct (lcdNew_refuses _ _ _ Hwhy) as (st1 & E & _).
    exists (-1), st1. split; [exact E|]. split; [|congruence].
    split; [intros _|reflexivity].
    destruct Hwhy as [Hv|[Hf|Hm]]; auto.
    right; left. intros i Hi. rewrite Hseen in Hf.
    apply (find_free_full _ 0 ltac:(lia) Hf). lia.
  - destruct (lcdNew_makes _ _ _ Hv Hf Hm) as (st1 & lcd & evs & E & Hl & _).
    rewrite Hseen in *.
    destruct (find_free_found _ 0 ltac:(lia) Hf) as (k & Hk & Hnone & Hbefore).
    assert (Hk8 : (k < Z.to_nat MAX_LCDS)%nat)
      by (rewrite <- Hlen; now apply lookup_lt_Some in Hnone).
    exists (find_free (lcds st) 0), st1. split; [exact E|]. split.
    + split; [contradiction|]. intros [Hnv|[Hfull|Hnm]].
      * contradiction.
      * destruct (Hfull k Hk8) as [l Hl']. congruence.
      * congruence.
    + intros _. rewrite Hk. replace (Z.to_nat (0 + Z.of_nat k)) with k by lia.
      split; [unfold MAX_LCDS in *; lia|]. split; [exact Hnone|].
      split; [exact Hbefore|].
      exists lcd. split; [unfold MAX_LCDS in *; lia|].
      rewrite Hl, Hk. replace (Z.to_nat (0 + Z.of_nat k)) with k by lia.
      apply list_lookup_insert_eq. now apply lookup_lt_Some in Hnone.
Qed.

Lemma lcdNew_returns_witness :
  well_formed expander_state /\
  exists fd st',
    lcdNew gpio_config fair expander_state = Some (fd, st') /\
    (fd = -1 <->
       ~ valid gpio_config
       \/ (forall i, (i < Z.to_nat MAX_LCDS)%nat ->
             exists l, lcds expander_state !! i = Some (Some l))
       \/ malloc_ok fair = false) /\
    (fd <> -1 ->
       0 <= fd < MAX_LCDS /\
       lcds expander_state !! Z.to_nat fd = Some None /\
       (forall j, (j < Z.to_nat fd)%nat ->
          exists l, lcds expander_state !! j = Some (Some l)) /\
       exists lcd, live st' fd lcd).
Proof.
  assert (Hw : well_formed expander_state)
    by (split; [reflexivity | simpl; lia]).
  split; [exact Hw|].
  exact (lcdNew_returns gpio_config fair expander_state Hw).
Defined.

(** With one display registered, the next one gets the handle 1. *)
Example lcdNew_second_handle :
  exists st', lcdNew gpio_config fair expander_state = Some (1, st').
Proof. eexists. reflexivity. Qed.

(** * Transport, bit by bit *)

Lemma bit_of_testbit x k : 0 <= k -> bit_of x k = Z.b2z (Z.testbit x k).
Proof.
  intros Hk. unfold bit_of. change 1 with (Z.ones 1).
  rewrite Z.land_ones by lia. change (2 ^ 1) with 2.
  rewrite <- Z.bit0_mod. now rewrite Z.shiftr_spec, Z.add_0_l by lia.
Qed.

Lemma land_15_range x : 0 <= Z.land x 15 < 16.
Proof.
  change 15 with (Z.ones 4). rewrite Z.land_ones by lia.
  apply Z.mod_pos_bound. lia.
Qed.

Lemma uchar_shiftr_bit d k :
  0 <= k -> bit_of (uchar (Z.shiftr d 1)) k = bit_of d (k + 1) \/ 7 <= k.
Proof.
  intros Hk. destruct (Z_lt_le_dec k 7) as [Hlt|Hge]; [left|now right].
  rewrite !bit_of_testbit by lia. f_equal.
  rewrite uchar_land. rewrite Z.land_spec, Z.shiftr_spec by lia.
  change 255 with (Z.ones 8). rewrite Z.ones_spec_low by lia.
  now rewrite andb_true_r.
Qed.

(** The pin loop presents bit [k] of its byte on [dataPins [i + k]]. *)
Lemma pin_loop_bits lcd n : forall i d,
  (n <= 8)%nat ->
  pin_loop lcd n i d =
    map (fun k => DigitalWrite (dataPin lcd (i + Z.of_nat k)) (bit_of d (Z.of_nat k)))
        (seq 0 n).
Proof.
  induction n as [|n IH]; intros i d Hn; [reflexivity|].
  cbn [pin_loop seq map]. f_equal.
  - unfold bit_of. cbn [Z.of_nat]. now rewrite Z.add_0_r, Z.shiftr_0_r.
  - rewrite IH by lia. rewrite <- seq_shift, map_map.
    apply map_ext_in. intros k Hk. apply in_seq in Hk.
    f_equal; [f_equal; lia|].
    destruct (uchar_shiftr_bit d (Z.of_nat k)) as [E|E]; [lia| |lia].
    rewrite E. f_equal. lia.
Qed.

Lemma bit_of_high_nibble data k :
  0 <= k < 4 -> bit_of (Z.land (Z.shiftr data 4) 15) k = bit_of data (4 + k).
Proof.
  intros Hk. rewrite !bit_of_testbit by lia. f_equal.
  rewrite Z.land_spec, Z.shiftr_spec by lia.
  change 15 with (Z.ones 4). rewrite Z.ones_spec_low by lia.
  rewrite andb_true_r. f_equal. lia.
Qed.

Lemma bit_of_low_nibble data k :
  0 <= k < 4 -> bit_of (Z.land data 15) k = bit_of data k.
Proof.
  intros Hk. rewrite !bit_of_testbit by lia. f_equal.
  rewrite Z.land_spec. change 15 with (Z.ones 4).
  rewrite Z.ones_spec_low by lia. now rewrite andb_true_r.
Qed.

(** X1. On the GPIO transport [sendDataCmd] writes RS once, then presents
    bit [i] of the byte on [dataPins [i]]: with a 4-bit bus bits 4..7 on
    pins 0..3, a strobe, bits 0..3 on the same pins and a strobe; otherwise
    bits 0..7 on pins 0..7 and one strobe. *)
Theorem sendDataCmd_gpio lcd data rs :
  i2c_fd lcd = 0 ->
  sendDataCmd lcd data rs =
    DigitalWrite (rsPin lcd) rs
    :: (if bits lcd =? 4 then
          map (fun i => DigitalWrite (dataPin lcd i) (bit_of data (4 + i))) [0; 1; 2; 3]
          ++ strobe lcd
          ++ map (fun i => DigitalWrite (dataPin lcd i) (bit_of data i)) [0; 1; 2; 3]
        else
          map (fun i => DigitalWrite (dataPin lcd i) (bit_of data i))
              [0; 1; 2; 3; 4; 5; 6; 7])
    ++ strobe lcd.
Proof.
  intros Hfd. unfold sendDataCmd. rewrite Hfd. change (truthy 0) with false.
  cbv iota. f_equal. f_equal.
  destruct (bits lcd =? 4).
  - rewrite !pin_loop_bits by lia. cbn [seq map Z.of_nat Z.add].
    rewrite !bit_of_high_nibble, !bit_of_low_nibble by lia. reflexivity.
  - rewrite pin_loop_bits by lia. reflexivity.
Qed.

Lemma sendDataCmd_gpio_witness :
  i2c_fd gpio_lcd = 0 /\
  sendDataCmd gpio_lcd 0x41 1 =
    DigitalWrite (rsPin gpio_lcd) 1
    :: (if bits gpio_lcd =? 4 then
          map (fun i => DigitalWrite (dataPin gpio_lcd i) (bit_of 0x41 (4 + i))) [0; 1; 2; 3]
          ++ strobe gpio_lcd
          ++ map (fun i => DigitalWrite (dataPin gpio_lcd i) (bit_of 0x41 i)) [0; 1; 2; 3]
        else
          map (fun i => DigitalWrite (dataPin gpio_lcd i) (bit_of 0x41 i))
              [0; 1; 2; 3; 4; 5; 6; 7])
    ++ strobe gpio_lcd.
Proof.
  split; [reflexivity|].
  exact (sendDataCmd_gpio gpio_lcd 0x41 1 eq_refl).
Defined.

Lemma packed_with_rs lcd rs n :
  (forall i, 0 <= i < 4 -> 0 <= dataPin lcd i <= 30) ->
  0 <= rsPin lcd <= 30 -> 0 <= rs <= 1 ->
  0 <= n < 16 ->
  uchar (Z.lor (marshal4Bits lcd n) (int_shl rs (rsPin lcd))) = packed_nibble lcd rs n.
Proof.
  intros Hd Hp Hrs H. rewrite marshal4Bits_packed by assumption.
  rewrite int_shl_defined by assumption. unfold packed_nibble.
  rewrite Z.shiftl_0_l, Z.lor_0_r.
  now rewrite (uchar_lor (uchar _)), uchar_idem, <- uchar_lor.
Qed.

(** X2. On a port expander whose bit numbers are in the range 0..30, where
    C defines the shifts of the transport, [sendDataCmd] with an RS level of
    0 or 1 is two nibble writes with that RS level, the high nibble of the
    byte first. *)
Theorem sendDataCmd_expander lcd data rs :
  i2c_fd lcd <> 0 -> shifts_defined lcd -> 0 <= rs <= 1 ->
  sendDataCmd lcd data rs =
    write_nibble lcd rs (Z.land (Z.shiftr data 4) 0xf)
    ++ write_nibble lcd rs (Z.land data 0xf).
Proof.
  intros Hfd Hs Hrs. unfold sendDataCmd, write_nibble, truthy.
  replace (i2c_fd lcd =? 0) with false by (symmetry; apply Z.eqb_neq; exact Hfd).
  apply shifts_defined_fields in Hs as (Hstrb & Hp & Hbl & Hd).
  cbn [negb]. unfold i2c_send.
  rewrite !(packed_with_rs lcd rs) by (assumption || apply land_15_range).
  rewrite LCD_BACKLIGHT_mask by exact Hbl.
  rewrite (int_shl_defined 1) by (assumption || lia).
  reflexivity.
Qed.

Lemma sendDataCmd_expander_witness :
  i2c_fd expander_lcd <> 0 /\ shifts_defined expander_lcd /\ 0 <= 1 <= 1 /\
  sendDataCmd expander_lcd 0x48 1 =
    write_nibble expander_lcd 1 (Z.land (Z.shiftr 0x48 4) 0xf)
    ++ write_nibble expander_lcd 1 (Z.land 0x48 0xf).
Proof.
  assert (H : i2c_fd expander_lcd <> 0) by (simpl; lia).
  assert (Hs : shifts_defined expander_lcd).
  { unfold shifts_defined, expander_bits.
    repeat constructor; vm_compute; discriminate. }
  assert (Hrs : 0 <= 1 <= 1) by lia.
  split; [exact H|]. split; [exact Hs|]. split; [exact Hrs|].
  exact (sendDataCmd_expander expander_lcd 0x48 1 H Hs Hrs).
Defined.

Lemma testbit_b2z (t : bool) m : Z.testbit (Z.b2z t) m = t && (m =? 0).
Proof.
  destruct t; cbn [Z.b2z andb]; [|apply Z.testbit_0_l].
  destruct m as [|p|p]; reflexivity.
Qed.

Lemma testbit_shifted_bit x i d k :
  0 <= i -> 0 <= d -> 0 <= k ->
  Z.testbit (Z.shiftl (bit_of x i) d) k = Z.testbit x i && (k =? d).
Proof.
  intros Hi Hd Hk. rewrite bit_of_testbit by exact Hi.
  rewrite Z.shiftl_spec by exact Hk. rewrite testbit_b2z. f_equal.
  destruct (Z.eqb_spec (k - d) 0), (Z.eqb_spec k d); auto; lia.
Qed.

Lemma testbit_uchar x k : 0 <= k -> Z.testbit (uchar x) k = Z.testbit x k && (k <? 8).
Proof.
  intros Hk. rewrite uchar_land, Z.land_spec. f_equal.
  change 255 with (Z.ones 8). destruct (Z.ltb_spec k 8).
  - apply Z.ones_spec_low. lia.
  - apply Z.ones_spec_high. lia.
Qed.

(** Which bits of the byte [marshal4Bits] returns are set. *)
Lemma testbit_marshal4Bits lcd n k :
  0 <= n < 16 -> 0 <= k ->
  0 <= dataPin lcd 0 <= 30 -> 0 <= dataPin lcd 1 <= 30 ->
  0 <= dataPin lcd 2 <= 30 -> 0 <= dataPin lcd 3 <= 30 ->
  Z.testbit (marshal4Bits lcd n) k =
    (Z.testbit n 0 && (k =? dataPin lcd 0)
     || Z.testbit n 1 && (k =? dataPin lcd 1)
     || Z.testbit n 2 && (k =? dataPin lcd 2)
     || Z.testbit n 3 && (k =? dataPin lcd 3))
    && (k <? 8).
Proof.
  intros Hn Hk H0 H1 H2 H3.
  assert (Hd : forall i, 0 <= i < 4 -> 0 <= dataPin lcd i <= 30).
  { intros i Hi. assert (Ei : i = 0 \/ i = 1 \/ i = 2 \/ i = 3) by lia.
    destruct Ei as [-> | [-> | [-> | ->]]]; assumption. }
  rewrite marshal4Bits_packed by assumption.
  unfold packed_nibble. rewrite testbit_uchar by exact Hk. f_equal.
  rewrite Z.shiftl_0_l, Z.lor_0_r, !Z.lor_spec.
  now rewrite !testbit_shifted_bit by lia.
Qed.

(** X3. With the four data lines on distinct bits 0..7 of the expander
    byte, [marshal4Bits] puts bit [i] of the nibble on bit [dataPins [i]] of
    its result and sets no other bit: the nibble can be read back from the
    byte. *)
Theorem marshal4Bits_decodes lcd n :
  0 <= n < 16 ->
  (forall i, 0 <= i < 4 -> 0 <= dataPin lcd i < 8) ->
  (forall i j, 0 <= i < 4 -> 0 <= j < 4 -> i <> j -> dataPin lcd i <> dataPin lcd j) ->
  (forall i, 0 <= i < 4 ->
     Z.testbit (marshal4Bits lcd n) (dataPin lcd i) = Z.testbit n i) /\
  (forall k, Z.testbit (marshal4Bits lcd n) k = true ->
     exists i, 0 <= i < 4 /\ k = dataPin lcd i).
Proof.
  intros Hn Hr Hd.
  pose proof (Hr 0 ltac:(lia)) as R0. pose proof (Hr 1 ltac:(lia)) as R1.
  pose proof (Hr 2 ltac:(lia)) as R2. pose proof (Hr 3 ltac:(lia)) as R3.
  pose proof (Hd 0 1 ltac:(lia) ltac:(lia) ltac:(lia)) as D01.
  pose proof (Hd 0 2 ltac:(lia) ltac:(lia) ltac:(lia)) as D02.
  pose proof (Hd 0 3 ltac:(lia) ltac:(lia) ltac:(lia)) as D03.
  pose proof (Hd 1 2 ltac:(lia) ltac:(lia) ltac:(lia)) as D12.
  pose proof (Hd 1 3 ltac:(lia) ltac:(lia) ltac:(lia)) as D13.
  pose proof (Hd 2 3 ltac:(lia) ltac:(lia) ltac:(lia)) as D23.
  split.
  - intros i Hi.
    assert (E : i = 0 \/ i = 1 \/ i = 2 \/ i = 3) by lia.
    destruct E as [-> | [-> | [-> | ->]]];
      rewrite testbit_marshal4Bits by (try assumption; lia);
      repeat match goal with
             | |- context [?a =? ?b] =>
                 destruct (Z.eqb_spec a b); [try lia|try lia]
             | |- context [?a <? ?b] =>
                 destruct (Z.ltb_spec a b); [try lia|try lia]
             end;
      destruct (Z.testbit n 0), (Z.testbit n 1), (Z.testbit n 2), (Z.testbit n 3);
      reflexivity.
  - intros k Hk.
    assert (Hk0 : 0 <= k).
    { destruct (Z_lt_le_dec k 0) as [Hneg|]; [|assumption].
      rewrite Z.testbit_neg_r in Hk by exact Hneg. discriminate. }
    rewrite testbit_marshal4Bits in Hk by (try assumption; lia).
    apply andb_true_iff in Hk as [Hk _].
    repeat (apply orb_true_iff in Hk as [Hk|Hk]);
      apply andb_true_iff in Hk as [_ Hk]; apply Z.eqb_eq in Hk;
      [exists 0 | exists 1 | exists 2 | exists 3]; split; auto; lia.
Qed.

Ltac eval_pins lcd :=
  repeat match goal with
         | |- context [dataPin lcd ?i] =>
             let v := eval vm_compute in (dataPin lcd i) in
             change (dataPin lcd i) with v
         end.

Lemma marshal4Bits_decodes_witness :
  0 <= 5 < 16 /\
  (forall i, 0 <= i < 4 -> 0 <= dataPin expander_lcd i < 8) /\
  (forall i j, 0 <= i < 4 -> 0 <= j < 4 -> i <> j ->
     dataPin expander_lcd i <> dataPin expander_lcd j) /\
  (forall i, 0 <= i < 4 ->
     Z.testbit (marshal4Bits expander_lcd 5) (dataPin expander_lcd i) = Z.testbit 5 i) /\
  (forall k, Z.testbit (marshal4Bits expander_lcd 5) k = true ->
     exists i, 0 <= i < 4 /\ k = dataPin expander_lcd i).
Proof.
  assert (Hn : 0 <= 5 < 16) by lia.
  assert (Hr : forall i, 0 <= i < 4 -> 0 <= dataPin expander_lcd i < 8).
  { intros i Hi. assert (E : i = 0 \/ i = 1 \/ i = 2 \/ i = 3) by lia.
    destruct E as [-> | [-> | [-> | ->]]]; eval_pins expander_lcd; lia. }
  assert (Hd : forall i j, 0 <= i < 4 -> 0 <= j < 4 -> i <> j ->
                 dataPin expander_lcd i <> dataPin expander_lcd j).
  { intros i j Hi Hj Hne.
    assert (E : i = 0 \/ i = 1 \/ i = 2 \/ i = 3) by lia.
    assert (F : j = 0 \/ j = 1 \/ j = 2 \/ j = 3) by lia.
    destruct E as [-> | [-> | [-> | ->]]], F as [-> | [-> | [-> | ->]]];
      eval_pins expander_lcd; lia. }
  split; [exact Hn|]. split; [exact Hr|]. split; [exact Hd|].
  exact (marshal4Bits_decodes expander_lcd 5 Hn Hr Hd).
Defined.

(** * Calls on a handle stay on its transport *)

Lemma pin_loop_kind lcd n : forall i d e,
  In e (pin_loop lcd n i d) -> exists p v, e = DigitalWrite p v.
Proof.
  induction n as [|n IH]; intros i d e; cbn [pin_loop In]; [contradiction|].
  intros [<-|He]; eauto.
Qed.

Lemma strobe_kind lcd e : In e (strobe lcd) -> ~ is_i2c e.
Proof.
  unfold strobe. cbn [In]. intros He.
  repeat (destruct He as [<-|He]; [exact (fun H => H)|]). contradiction.
Qed.

Lemma i2c_send_kind lcd output e : In e (i2c_send lcd output) -> ~ is_gpio e.
Proof.
  unfold i2c_send. cbn [In]. intros He.
  repeat (destruct He as [<-|He]; [exact (fun H => H)|]). contradiction.
Qed.

Lemma sendDataCmd_kind lcd data rs e :
  In e (sendDataCmd lcd data rs) ->
  (i2c_fd lcd = 0 -> ~ is_i2c e) /\ (i2c_fd lcd <> 0 -> ~ is_gpio e).
Proof.
  unfold sendDataCmd, truthy. destruct (Z.eqb_spec (i2c_fd lcd) 0) as [E|E]; cbn [negb].
  - intros He. split; [intros _|contradiction].
    destruct He as [<-|He]; [exact (fun H => H)|].
    apply in_app_or in He as [He|He]; [|now apply (strobe_kind lcd)].
    destruct (bits lcd =? 4).
    + apply in_app_or in He as [He|He];
        [apply pin_loop_kind in He as (p & v & ->); exact (fun H => H)|].
      apply in_app_or in He as [He|He]; [now apply (strobe_kind lcd)|].
      apply pin_loop_kind in He as (p & v & ->); exact (fun H => H).
    + apply pin_loop_kind in He as (p & v & ->); exact (fun H => H).
  - intros He. split; [contradiction|intros _].
    apply in_app_or in He as [He|He]; eapply i2c_send_kind; eauto.
Qed.

Lemma put4Command_kind lcd command e :
  In e (put4Command lcd command) ->
  (i2c_fd lcd = 0 -> ~ is_i2c e) /\ (i2c_fd lcd <> 0 -> ~ is_gpio e).
Proof.
  unfold put4Command, truthy. destruct (Z.eqb_spec (i2c_fd lcd) 0) as [E|E]; cbn [negb].
  - intros He. split; [intros _|contradiction].
    destruct He as [<-|He]; [exact (fun H => H)|].
    apply in_app_or in He as [He|He]; [|now apply (strobe_kind lcd)].
    apply pin_loop_kind in He as (p & v & ->); exact (fun H => H).
  - intros He. split; [contradiction|intros _]. eapply i2c_send_kind; eauto.
Qed.

Lemma emitted_by_kind lcd e :
  emitted_by lcd e ->
  (i2c_fd lcd = 0 -> ~ is_i2c e) /\ (i2c_fd lcd <> 0 -> ~ is_gpio e).
Proof.
  intros [c He|d He|c He|n ->].
  - unfold putCommand in He. apply in_app_or in He as [He|[<-|[]]].
    + eapply sendDataCmd_kind; eauto.
    + split; intros _ H; exact H.
  - eapply sendDataCmd_kind; eauto.
  - eapply put4Command_kind; eauto.
  - split; intros _ H; exact H.
Qed.

(** What a call on a live handle appends to the trace. *)
Lemma run_op_emits fd o st st' lcd :
  live st fd lcd -> run_op fd o st = Some (tt, st') ->
  exists evs,
    trace st' = trace st ++ evs /\
    ((quiet o /\ Forall (emitted_by lcd) evs)
     \/ (exists s, o = Backlight s /\
           evs = if truthy (i2c_fd lcd)
                 then [I2CWrite (i2c_fd lcd) (LCD_BACKLIGHT (set_backlight_state lcd s))]
                 else [])).
Proof.
  intros Hl Hrun. destruct (classic_quiet o) as [Hq|[s ->]].
  - assert (Hm : moved fd lcd st st').
    { eapply (keeps_quiet fd lcd o Hq); [|exact Hrun].
      exists lcd. split; [exact Hl | reflexivity]. }
    destruct Hm as (_ & _ & _ & _ & evs & xs & Ht & _ & Hf).
    exists evs. split; [exact Ht|]. left. auto.
  - cbn [run_op] in Hrun. rewrite (lcdBacklight_run _ _ _ _ Hl) in Hrun.
    eexists. split; [|right; exists s; split; reflexivity].
    destruct (truthy (i2c_fd lcd)); inversion Hrun; subst; cbn [trace sent stored];
      [reflexivity | now rewrite app_nil_r].
Qed.

(** X4. A call on a handle whose [i2c_fd] is 0 never issues an I2C call, and
    a call on a handle behind a port expander never drives a GPIO pin. *)
Theorem transport_never_mixed fd o st st' lcd :
  live st fd lcd -> run_op fd o st = Some (tt, st') ->
  exists evs,
    trace st' = trace st ++ evs /\
    (i2c_fd lcd = 0 -> Forall (fun e => ~ is_i2c e) evs) /\
    (i2c_fd lcd <> 0 -> Forall (fun e => ~ is_gpio e) evs).
Proof.
  intros Hl Hrun.
  destruct (run_op_emits _ _ _ _ _ Hl Hrun) as (evs & Ht & [[_ Hf]|(s & -> & ->)]).
  - exists evs. split; [exact Ht|].
    split; intros Hfd; eapply List.Forall_impl; [|exact Hf| |exact Hf];
      intros e He; apply (emitted_by_kind _ _ He); exact Hfd.
  - eexists. split; [exact Ht|]. unfold truthy.
    destruct (Z.eqb_spec (i2c_fd lcd) 0) as [E|E]; cbn [negb].
    + split; intros; constructor.
    + split; [contradiction|]. intros _. repeat constructor. exact (fun H => H).
Qed.

Ltac compute_run m E :=
  let r := eval vm_compute in m in
  lazymatch r with
  | Some (?a, ?s) => assert (E : m = Some (a, s)) by (vm_compute; reflexivity)
  end.

Lemma transport_never_mixed_witness :
  live gpio_state 0 gpio_lcd /\
  exists st',
    run_op 0 (Putchar 65) gpio_state = Some (tt, st') /\
    exists evs,
      trace st' = trace gpio_state ++ evs /\
      (i2c_fd gpio_lcd = 0 -> Forall (fun e => ~ is_i2c e) evs) /\
      (i2c_fd gpio_lcd <> 0 -> Forall (fun e => ~ is_gpio e) evs).
Proof.
  assert (H : live gpio_state 0 gpio_lcd)
    by (split; [unfold MAX_LCDS; lia | reflexivity]).
  split; [exact H|].
  compute_run (run_op 0 (Putchar 65) gpio_state) E.
  eexists. split; [exact E|].
  exact (transport_never_mixed 0 (Putchar 65) gpio_state _ gpio_lcd H E).
Defined.

(** * The display-control flags *)

Lemma testbit_set_flag c b k :
  0 <= b -> Z.testbit (Z.lor c (2 ^ b)) k = Z.testbit c k || (k =? b).
Proof.
  intros Hb. rewrite Z.lor_spec, Z.pow2_bits_eqb by exact Hb.
  f_equal. apply Z.eqb_sym.
Qed.

Lemma testbit_clear_flag c b k :
  0 <= b -> Z.testbit (Z.land c (Z.lnot (2 ^ b))) k = Z.testbit c k && negb (k =? b).
Proof.
  intros Hb. destruct (Z_lt_le_dec k 0) as [Hk|Hk].
  - now rewrite !Z.testbit_neg_r by exact Hk.
  - rewrite Z.land_spec, Z.lnot_spec, Z.pow2_bits_eqb by assumption.
    do 2 f_equal. apply Z.eqb_sym.
Qed.

Lemma lcdControlBit_sets_flag b fd s st lcd :
  0 <= b -> live st fd lcd ->
  exists st', lcdControlBit (2 ^ b) fd s st = Some (tt, st') /\ sets_flag b s st st'.
Proof.
  intros Hb Hl. eexists. split; [apply lcdControlBit_run; exact Hl|].
  unfold sets_flag. cbn [lcdControl lcds bus sent controlled].
  split; [|split; [|split; reflexivity]].
  - destruct (truthy s).
    + rewrite testbit_set_flag by exact Hb. now rewrite Z.eqb_refl, orb_true_r.
    + rewrite testbit_clear_flag by exact Hb. now rewrite Z.eqb_refl, andb_false_r.
  - intros k Hk. replace (truthy s) with (truthy s) by reflexivity.
    destruct (truthy s).
    + rewrite testbit_set_flag by exact Hb.
      replace (k =? b) with false by (symmetry; apply Z.eqb_neq; exact Hk).
      apply orb_false_r.
    + rewrite testbit_clear_flag by exact Hb.
      replace (k =? b) with false by (symmetry; apply Z.eqb_neq; exact Hk).
      apply andb_true_r.
Qed.

(** X5. [lcdDisplay], [lcdCursor] and [lcdCursorBlink] each set one flag of
    [lcdControl] (bit 2, bit 1, bit 0) to the truth value of their argument,
    leave the other flags and every struct alone, and send the command
    [LCD_CTRL | lcdControl] with the new flags. *)
Theorem flag_functions fd s st lcd :
  live st fd lcd ->
  (exists st', lcdDisplay fd s st = Some (tt, st') /\ sets_flag 2 s st st') /\
  (exists st', lcdCursor fd s st = Some (tt, st') /\ sets_flag 1 s st st') /\
  (exists st', lcdCursorBlink fd s st = Some (tt, st') /\ sets_flag 0 s st st').
Proof.
  intros Hl. split; [|split].
  - exact (lcdControlBit_sets_flag 2 fd s st lcd ltac:(lia) Hl).
  - exact (lcdControlBit_sets_flag 1 fd s st lcd ltac:(lia) Hl).
  - exact (lcdControlBit_sets_flag 0 fd s st lcd ltac:(lia) Hl).
Qed.

Lemma flag_functions_witness :
  live expander_state 0 expander_lcd /\
  (exists st', lcdDisplay 0 1 expander_state = Some (tt, st')
               /\ sets_flag 2 1 expander_state st') /\
  (exists st', lcdCursor 0 1 expander_state = Some (tt, st')
               /\ sets_flag 1 1 expander_state st') /\
  (exists st', lcdCursorBlink 0 1 expander_state = Some (tt, st')
               /\ sets_flag 0 1 expander_state st').
Proof.
  assert (H : live expander_state 0 expander_lcd)
    by (split; [unfold MAX_LCDS; lia | reflexivity]).
  split; [exact H|].
  exact (flag_functions 0 1 expander_state expander_lcd H).
Defined.

(** The flag functions talk to the display named by their handle, with the
    flags every handle shares. *)
Lemma flags_cases (P : Z -> Prop) :
  (forall k : nat, (k < 8)%nat -> P (Z.of_nat k)) ->
  forall c, 0 <= c <= 7 -> P c.
Proof.
  intros H c Hc. replace c with (Z.of_nat (Z.to_nat c)) by lia. apply H. lia.
Qed.

Lemma flag_update_range c mask s :
  0 <= c <= 7 -> mask = 1 \/ mask = 2 \/ mask = 4 ->
  0 <= (if truthy s then Z.lor c mask else Z.land c (Z.lnot mask)) <= 7.
Proof.
  intros Hc Hm. revert c Hc. apply flags_cases. intros k Hk.
  assert (Hb : forall x, (0 <=? x) && (x <=? 7) = true -> 0 <= x <= 7) by lia.
  destruct Hm as [-> | [-> | ->]]; destruct (truthy s);
    do 8 (destruct k as [|k]; [apply Hb; vm_compute; reflexivity|]); lia.
Qed.

Lemma keeps_flags_ret {A} (a : A) : keeps_flags (ret a).
Proof. intros st a' st' E. inversion E; subst. reflexivity. Qed.

Lemma keeps_flags_undefined {A} : keeps_flags (@undefined A).
Proof. intros st a st' E. discriminate. Qed.

Lemma keeps_flags_bind {A B} (m : M A) (k : A -> M B) :
  keeps_flags m -> (forall a, keeps_flags (k a)) -> keeps_flags (bind m k).
Proof.
  intros Hm Hk st b st' Hrun.
  apply bind_inv in Hrun as (a & st1 & H1 & H2).
  rewrite (Hk _ _ _ _ H2). exact (Hm _ _ _ H1).
Qed.

Lemma keeps_flags_emit evs xs : keeps_flags (emit evs xs).
Proof. intros st a st' E. inversion E; subst. reflexivity. Qed.

Lemma keeps_flags_assign fd l : keeps_flags (assign fd l).
Proof. intros st a st' E. inversion E; subst. reflexivity. Qed.

Lemma keeps_flags_handle fd : keeps_flags (handle fd).
Proof. intros st a st' E. apply handle_inv in E as [-> _]. reflexivity. Qed.

Lemma keeps_flags_rowOff_at y : keeps_flags (rowOff_at y).
Proof. intros st a st' E. apply rowOff_at_inv in E as [-> _]. reflexivity. Qed.

Ltac flags_step :=
  lazymatch goal with
  | |- keeps_flags (bind _ _) => apply keeps_flags_bind; [|intros ?]
  | |- keeps_flags (ret _) => apply keeps_flags_ret
  | |- keeps_flags undefined => apply keeps_flags_undefined
  | |- keeps_flags (handle _) => apply keeps_flags_handle
  | |- keeps_flags (assign _ _) => apply keeps_flags_assign
  | |- keeps_flags (rowOff_at _) => apply keeps_flags_rowOff_at
  | |- keeps_flags (emit _ _) => apply keeps_flags_emit
  | |- keeps_flags (run_putCommand _ _) => apply keeps_flags_emit
  | |- keeps_flags (run_sendDataCmd _ _ _) => apply keeps_flags_emit
  | |- keeps_flags (run_put4Command _ _) => apply keeps_flags_emit
  | |- keeps_flags (delay _) => apply keeps_flags_emit
  | |- keeps_flags (if ?b then _ else _) => destruct b
  end.

Lemma keeps_flags_lcdPutchar fd data : keeps_flags (lcdPutchar fd data).
Proof. unfold lcdPutchar. cbv zeta. repeat flags_step. Qed.

Lemma keeps_flags_lcdPuts fd string : keeps_flags (lcdPuts fd string).
Proof.
  induction string as [|c rest IH]; cbn [lcdPuts]; [apply keeps_flags_ret|].
  destruct (c =? 0); [apply keeps_flags_ret|].
  apply keeps_flags_bind; [apply keeps_flags_lcdPutchar | intros _; exact IH].
Qed.

Lemma keeps_flags_charDef_loop l data n : forall i, keeps_flags (charDef_loop l data n i).
Proof.
  induction n as [|n IH]; intros i; cbn [charDef_loop]; [apply keeps_flags_ret|].
  destruct (data !! i); repeat flags_step. apply IH.
Qed.

(** The calls that leave the flags alone: all but the three flag functions
    and the two that run the initialisation sequence. *)
Lemma keeps_flags_op fd o :
  match o with
  | Display _ | Cursor _ | CursorBlink _ | Reinit => True
  | _ => keeps_flags (run_op fd o)
  end.
Proof.
  destruct o; cbn [run_op]; try exact I.
  - unfold lcdHome. repeat flags_step.
  - unfold lcdClear. repeat flags_step.
  - unfold lcdSendCommand. repeat flags_step.
  - unfold lcdPosition. repeat flags_step.
  - unfold lcdCharDef. repeat flags_step. apply keeps_flags_charDef_loop.
  - apply keeps_flags_lcdPutchar.
  - apply keeps_flags_lcdPuts.
  - apply keeps_flags_lcdPuts.
  - unfold lcdBacklight. cbv zeta. repeat flags_step.
Qed.

Lemma flags_ok_op fd o st st' :
  flags_ok st -> run_op fd o st = Some (tt, st') -> flags_ok st'.
Proof.
  unfold flags_ok. intros Hc Hrun.
  destruct (run_op_live _ _ _ _ Hrun) as [->|[l Hl]]; [exact Hc|].
  pose proof (keeps_flags_op fd o) as Hk.
  destruct o; cbn [run_op] in *;
    try (rewrite (Hk _ _ _ Hrun); exact Hc).
  - unfold lcdDisplay in Hrun. rewrite (lcdControlBit_run _ _ _ _ _ Hl) in Hrun.
    inversion Hrun; subst. cbn [lcdControl sent controlled].
    apply flag_update_range; [exact Hc | auto].
  - unfold lcdCursor in Hrun. rewrite (lcdControlBit_run _ _ _ _ _ Hl) in Hrun.
    inversion Hrun; subst. cbn [lcdControl sent controlled].
    apply flag_update_range; [exact Hc | auto].
  - unfold lcdCursorBlink in Hrun. rewrite (lcdControlBit_run _ _ _ _ _ Hl) in Hrun.
    inversion Hrun; subst. cbn [lcdControl sent controlled].
    apply flag_update_range; [exact Hc | auto].
  - destruct (lcdReinit_run _ _ _ Hl) as (evs & xs & E & _).
    rewrite E in Hrun. inversion Hrun; subst. cbn [lcdControl sent stored controlled].
    apply (flag_update_range _ 1 0); [|auto].
    apply (flag_update_range _ 2 0); [|auto].
    apply (flag_update_range _ 4 1); [exact Hc|auto].
Qed.

Lemma lcdNew_keeps_flags config env : keeps_flags (lcdNew config env).
Proof.
  intros st fd st' Hrun.
  destruct (lcdNew_cases config env st) as [Hwhy|(Hv & Hf & Hm)].
  - destruct (lcdNew_refuses _ _ _ Hwhy) as (st1 & E & _ & _ & Hc & _).
    rewrite E in Hrun. inversion Hrun; subst. exact Hc.
  - destruct (lcdNew_makes _ _ _ Hv Hf Hm) as (st1 & lcd & evs & E & _ & _ & Hc & _).
    rewrite E in Hrun. inversion Hrun; subst. exact Hc.
Qed.

Lemma flags_ok_call c st st' :
  flags_ok st -> run_call c st = Some (tt, st') -> flags_ok st'.
Proof.
  intros Hc Hrun. destruct c as [fd o|config env|config env]; cbn [run_call] in Hrun.
  - eapply flags_ok_op; eauto.
  - apply bind_inv in Hrun as (fd & st1 & H1 & H2). inversion H2; subst.
    unfold flags_ok. now rewrite (lcdNew_keeps_flags _ _ _ _ _ H1).
  - apply bind_inv in Hrun as (r & st2 & H1 & H2). unfold lcdInit in H1.
    apply bind_inv in H1 as (fd & st1 & H1 & H3). inversion H2; subst; clear H2.
    assert (Hc1 : flags_ok st1)
      by (unfold flags_ok; now rewrite (lcdNew_keeps_flags _ _ _ _ _ H1)).
    destruct (fd <? 0).
    + inversion H3; subst. exact Hc1.
    + apply bind_inv in H3 as (u & st3 & H3 & H4). inversion H4; subst.
      destruct u. exact (flags_ok_op _ Reinit _ _ Hc1 H3).
Qed.

(** X6. Whatever is called, in whatever order, [lcdControl] stays within the
    three flag bits (0..7) once it is there, as it is at program start. *)
Theorem flags_stay_ok cs : forall st st',
  flags_ok st -> run_calls cs st = Some (tt, st') -> flags_ok st'.
Proof.
  induction cs as [|c cs IH]; intros st st' Hc Hrun; cbn [run_calls] in Hrun.
  - inversion Hrun; subst. exact Hc.
  - apply bind_inv in Hrun as (u & st1 & H1 & H2). destruct u.
    eapply IH; [|exact H2]. eapply flags_ok_call; eauto.
Qed.

Lemma flags_stay_ok_witness :
  flags_ok boot /\
  exists st',
    run_calls [Init expander_config fair; On 0 (Cursor 1); On 0 (Display 0)] boot
      = Some (tt, st') /\
    flags_ok st'.
Proof.
  assert (H : flags_ok boot) by (unfold flags_ok; simpl; lia).
  split; [exact H|].
  compute_run (run_calls [Init expander_config fair; On 0 (Cursor 1); On 0 (Display 0)] boot) E.
  eexists. split; [exact E|].
  exact (flags_stay_ok _ boot _ H E).
Defined.





(** * Strings *)

Lemma data_bytes_app xs ys : data_bytes (xs ++ ys) = data_bytes xs ++ data_bytes ys.
Proof.
  induction xs as [|[c|rs d] xs IH]; cbn [data_bytes app]; [reflexivity|exact IH|].
  destruct (rs =? 1); [cbn [app]; f_equal|]; exact IH.
Qed.

(** One character: its byte as data, then at most a command. *)
Lemma lcdPutchar_bus fd data st st' :
  lcdPutchar fd data st = Some (tt, st') ->
  exists xs, bus st' = bus st ++ Byte 1 (uchar data) :: xs /\ data_bytes xs = [].
Proof.
  intros Hrun. pose proof Hrun as Hl. unfold lcdPutchar in Hl.
  apply bind_inv in Hl as (l & st1 & H1 & _). apply handle_inv in H1 as [_ Hl].
  destruct (Z.eq_dec (cx l + 1) (cols l)) as [E|E].
  - rewrite (lcdPutchar_wrapped _ _ _ _ Hl E) in Hrun.
    apply bind_inv in Hrun as (r & st2 & H2 & H3).
    apply rowOff_at_inv in H2 as [-> _]. inversion H3; subst.
    exists [Byte 0 (uchar (0 + Z.lor LCD_DGRAM r))].
    cbn [bus sent stored]. rewrite <- app_assoc. split; reflexivity.
  - rewrite (lcdPutchar_next _ _ _ _ Hl E) in Hrun. inversion Hrun; subst.
    exists []. split; reflexivity.
Qed.

Lemma lcdPuts_bus_of fd string : forall st st',
  lcdPuts fd string st = Some (tt, st') ->
  exists xs, bus st' = bus st ++ xs /\ data_bytes xs = map uchar (until_nul string).
Proof.
  induction string as [|c rest IH]; intros st st' Hrun; cbn [lcdPuts until_nul] in *.
  - inversion Hrun; subst. exists []. now rewrite app_nil_r.
  - destruct (c =? 0).
    + inversion Hrun; subst. exists []. now rewrite app_nil_r.
    + apply bind_inv in Hrun as (u & st1 & H1 & H2). destruct u.
      apply lcdPutchar_bus in H1 as (xs1 & Hb1 & Hd1).
      apply IH in H2 as (xs2 & Hb2 & Hd2).
      exists (Byte 1 (uchar c) :: xs1 ++ xs2). split.
      * rewrite Hb2, Hb1, <- app_assoc. reflexivity.
      * cbn [data_bytes map]. change (1 =? 1) with true. cbv iota.
        now rewrite data_bytes_app, Hd1, Hd2.
Qed.

(** X8. When [lcdPuts] returns, the data bytes it has handed to the
    controller are exactly the characters of the string before its first
    zero, in order; anything else it sent is a command. *)
Theorem lcdPuts_sends_string fd string st st' :
  lcdPuts fd string st = Some (tt, st') ->
  exists xs, bus st' = bus st ++ xs /\ data_bytes xs = map uchar (until_nul string).
Proof. apply lcdPuts_bus_of. Qed.

Lemma lcdPuts_sends_string_witness :
  exists st',
    lcdPuts 0 [72; 105; 0; 33] expander_state = Some (tt, st') /\
    exists xs, bus st' = bus expander_state ++ xs
               /\ data_bytes xs = map uchar (until_nul [72; 105; 0; 33]).
Proof.
  compute_run (lcdPuts 0 [72; 105; 0; 33] expander_state) E.
  eexists. split; [exact E|].
  exact (lcdPuts_sends_string 0 [72; 105; 0; 33] expander_state _ E).
Defined.

Lemma until_nul_take string n :
  (length (until_nul (take n string)) <= n)%nat.
Proof.
  revert n. induction string as [|c rest IH]; intros [|n]; cbn [take until_nul length];
    try lia.
  destruct (c =? 0); cbn [length]; [lia|]. specialize (IH n). lia.
Qed.

(** X9. [lcdPrintf] hands the controller at most 1022 characters, the ones
    the 1023-byte limit given to vsnprintf leaves of the formatted text. *)
Theorem lcdPrintf_truncates fd formatted st st' :
  lcdPrintf fd formatted st = Some (tt, st') ->
  exists xs,
    bus st' = bus st ++ xs /\
    data_bytes xs = map uchar (until_nul (take 1022 formatted)) /\
    (length (data_bytes xs) <= 1022)%nat.
Proof.
  unfold lcdPrintf. intros Hrun.
  destruct (lcdPuts_bus_of fd (take 1022 formatted) st st' Hrun) as (xs & Hb & Hd).
  exists xs. split; [exact Hb|]. split; [exact Hd|].
  rewrite Hd, length_map. apply until_nul_take.
Qed.

Lemma lcdPrintf_truncates_witness :
  exists st',
    lcdPrintf 0 [72; 105] expander_state = Some (tt, st') /\
    exists xs,
      bus st' = bus expander_state ++ xs /\
      data_bytes xs = map uchar (until_nul (take 1022 [72; 105])) /\
      (length (data_bytes xs) <= 1022)%nat.
Proof.
  compute_run (lcdPrintf 0 [72; 105] expander_state) E.
  eexists. split; [exact E|].
  exact (lcdPrintf_truncates 0 [72; 105] expander_state _ E).
Defined.

(** * The cursor as a counter *)

Lemma cell_range lcd :
  on_display lcd -> 0 <= cell lcd < rows lcd * cols lcd.
Proof. unfold on_display, cell. intros [Hx Hy]. nia. Qed.

Lemma cell_inj a b :
  cols a = cols b -> on_display a -> on_display b -> cell a = cell b ->
  cx a = cx b /\ cy a = cy b.
Proof.
  unfold on_display, cell. intros Hc [Hx Hy] [Hx' Hy'] E. rewrite Hc in *.
  assert (Hcy : cy a = cy b).
  { destruct (Z.lt_trichotomy (cy a) (cy b)) as [L|[L|L]]; [exfalso|exact L|exfalso].
    - assert ((cy a + 1) * cols b <= cy b * cols b) by nia. lia.
    - assert ((cy b + 1) * cols b <= cy a * cols b) by nia. lia. }
  rewrite Hcy in E. lia.
Qed.

Lemma lcdPutchar_advances fd data st lcd :
  live st fd lcd -> rows lcd <= 4 -> on_display lcd ->
  exists st' lcd',
    lcdPutchar fd data st = Some (tt, st') /\
    live st' fd lcd' /\ same_panel lcd lcd' /\ on_display lcd' /\
    cell lcd' = (cell lcd + 1) mod (rows lcd * cols lcd).
Proof.
  intros Hl Hr Hon. pose proof (cell_range _ Hon) as Hcell.
  destruct Hon as [Hx Hy].
  destruct (Z.eq_dec (cx lcd + 1) (cols lcd)) as [E|E].
  - set (y := if cy lcd + 1 =? rows lcd then 0 else cy lcd + 1).
    assert (Hy3 : 0 <= y <= 3 /\ y < rows lcd)
      by (subst y; destruct (Z.eqb_spec (cy lcd + 1) (rows lcd)); lia).
    destruct (rowOff_defined y) as [r Hrow]; [lia|].
    exists (sent (stored (sent st (sendDataCmd lcd (uchar data) 1) [Byte 1 (uchar data)])
                         fd (set_cy (set_cx lcd 0) y))
                 (putCommand lcd (uchar (0 + Z.lor LCD_DGRAM r)))
                 [Byte 0 (uchar (0 + Z.lor LCD_DGRAM r))]),
           (set_cy (set_cx lcd 0) y).
    split; [apply (lcdPutchar_wrap _ _ _ _ r Hl E); [lia | exact Hrow]|].
    split; [apply live_sent; eapply live_stored; apply live_sent; exact Hl|].
    split; [reflexivity|].
    split; [unfold on_display; cbn [cx cy cols rows set_cx set_cy]; lia|].
    unfold cell in *. cbn [cx cy cols rows set_cx set_cy]. subst y.
    destruct (Z.eqb_spec (cy lcd + 1) (rows lcd)) as [Er|Er].
    + replace (cy lcd * cols lcd + cx lcd + 1) with (rows lcd * cols lcd) by nia.
      rewrite Z_mod_same_full. lia.
    + rewrite Z.mod_small; nia.
  - exists (stored (sent st (sendDataCmd lcd (uchar data) 1) [Byte 1 (uchar data)])
                   fd (set_cx lcd (cx lcd + 1))),
           (set_cx lcd (cx lcd + 1)).
    split; [apply lcdPutchar_next; assumption|].
    split; [eapply live_stored; apply live_sent; exact Hl|].
    split; [reflexivity|].
    split; [unfold on_display; cbn [cx cy cols rows set_cx]; lia|].
    unfold cell in *. cbn [cx cy cols rows set_cx].
    rewrite Z.mod_small; nia.
Qed.

Lemma lcdPuts_cell fd string : forall st lcd,
  live st fd lcd -> rows lcd <= 4 -> on_display lcd ->
  exists st' lcd',
    lcdPuts fd string st = Some (tt, st') /\
    live st' fd lcd' /\ same_panel lcd lcd' /\ on_display lcd' /\
    cell lcd' = (cell lcd + Z.of_nat (length (until_nul string)))
                mod (rows lcd * cols lcd).
Proof.
  induction string as [|c rest IH]; intros st lcd Hl Hr Hon;
    cbn [lcdPuts until_nul length].
  - exists st, lcd.
    split; [reflexivity|]. split; [exact Hl|]. split; [reflexivity|].
    split; [exact Hon|]. change (Z.of_nat 0) with 0.
    rewrite Z.add_0_r, Z.mod_small; [reflexivity | now apply cell_range].
  - destruct (c =? 0).
    + exists st, lcd.
      split; [reflexivity|]. split; [exact Hl|]. split; [reflexivity|].
      split; [exact Hon|]. change (Z.of_nat (length [])) with 0.
      rewrite Z.add_0_r, Z.mod_small; [reflexivity | now apply cell_range].
    + destruct (lcdPutchar_advances fd c st lcd Hl Hr Hon)
        as (st1 & lcd1 & H1 & Hl1 & Hp1 & Hon1 & Hc1).
      destruct (same_panel_fields _ _ Hp1) as (_ & Er & Ec & _).
      destruct (IH st1 lcd1 Hl1 ltac:(lia) Hon1)
        as (st2 & lcd2 & H2 & Hl2 & Hp2 & Hon2 & Hc2).
      exists st2, lcd2.
      split; [unfold bind; now rewrite H1|].
      split; [exact Hl2|]. split; [eapply same_panel_trans; eauto|].
      split; [exact Hon2|].
      rewrite Hc2, Hc1, <- Er, <- Ec. cbn [length].
      rewrite Zplus_mod_idemp_l. f_equal. lia.
Qed.

(** X10. On a display of at most four rows with the cursor on it, [lcdPuts]
    always returns, the cursor stays on the display, and it has advanced by
    the length of the string, counting cells row by row and starting again
    at the first cell after the last: a string of [rows * cols] characters
    brings the cursor back to where it was. *)
Theorem lcdPuts_advances fd string st lcd :
  live st fd lcd -> rows lcd <= 4 -> on_display lcd ->
  exists st' lcd',
    lcdPuts fd string st = Some (tt, st') /\
    live st' fd lcd' /\ same_panel lcd lcd' /\ on_display lcd' /\
    cell lcd' = (cell lcd + Z.of_nat (length (until_nul string)))
                mod (rows lcd * cols lcd) /\
    (Z.of_nat (length (until_nul string)) = rows lcd * cols lcd ->
     cx lcd' = cx lcd /\ cy lcd' = cy lcd).
Proof.
  intros Hl Hr Hon.
  destruct (lcdPuts_cell fd string st lcd Hl Hr Hon) as (st' & lcd' & H & Hl' & Hp & Hon' & Hc).
  exists st', lcd'. repeat (split; [assumption|]).
  intros Hlen. rewrite Hlen in Hc.
  replace (cell lcd + rows lcd * cols lcd)
    with (cell lcd + 1 * (rows lcd * cols lcd)) in Hc by lia.
  rewrite Z_mod_plus_full in Hc.
  destruct (same_panel_fields _ _ Hp) as (_ & _ & Ec & _).
  apply cell_inj; auto.
  rewrite Hc. apply Z.mod_small. now apply cell_range.
Qed.

Lemma lcdPuts_advances_witness :
  live expander_state 0 expander_lcd /\ rows expander_lcd <= 4 /\
  on_display expander_lcd /\
  exists st' lcd',
    lcdPuts 0 (replicate 32 65) expander_state = Some (tt, st') /\
    live st' 0 lcd' /\ same_panel expander_lcd lcd' /\ on_display lcd' /\
    cell lcd' = (cell expander_lcd + Z.of_nat (length (until_nul (replicate 32 65))))
                mod (rows expander_lcd * cols expander_lcd) /\
    (Z.of_nat (length (until_nul (replicate 32 65)))
       = rows expander_lcd * cols expander_lcd ->
     cx lcd' = cx expander_lcd /\ cy lcd' = cy expander_lcd).
Proof.
  assert (H : live expander_state 0 expander_lcd)
    by (split; [unfold MAX_LCDS; lia | reflexivity]).
  assert (Hr : rows expander_lcd <= 4) by (simpl; lia).
  assert (Hon : on_display expander_lcd) by (unfold on_display; simpl; lia).
  split; [exact H|]. split; [exact Hr|]. split; [exact Hon|].
  exact (lcdPuts_advances 0 (replicate 32 65) expander_state expander_lcd H Hr Hon).
Defined.

(** * The initialisation sequence *)

(** ** Waits *)






Lemma reinit_flag_bytes c :
  0 <= c <= 7 ->
  uchar (Z.lor LCD_CTRL (Z.lor c LCD_DISPLAY_CTRL)) = 12 + c mod 4 /\
  uchar (Z.lor LCD_CTRL (Z.land (Z.lor c LCD_DISPLAY_CTRL) (Z.lnot LCD_CURSOR_CTRL)))
    = 12 + c mod 2 /\
  Z.land (Z.land (Z.lor c LCD_DISPLAY_CTRL) (Z.lnot LCD_CURSOR_CTRL))
         (Z.lnot LCD_BLINK_CTRL) = 4.
Proof.
  revert c. apply flags_cases. intros k Hk.
  do 8 (destruct k as [|k]; [vm_compute; auto|]). lia.
Qed.



(** X12. After [lcdReinit], with the flags within their three bits before
    it: the cursor is (0,0), the flags say display on, cursor off, blink
    off ([lcdControl = 4]), and after the function-set stage the controller
    has been handed, in this order, the three flag commands (ending with
    0x0C), clear (0x01), home (0x02), entry mode 0x06 and shift 0x14. *)
Theorem lcdReinit_outcome st fd lcd :
  live st fd lcd -> flags_ok st ->
  exists st',
    lcdReinit fd st = Some (tt, st') /\
    live st' fd (set_cx (set_cy lcd 0) 0) /\
    lcdControl st' = 4 /\
    bus st' = bus st ++ function_set_bus lcd
              ++ [ Byte 0 (12 + lcdControl st mod 4);
                   Byte 0 (12 + lcdControl st mod 2);
                   Byte 0 12; Byte 0 1; Byte 0 2; Byte 0 6; Byte 0 0x14 ].
Proof.
  intros Hl Hc. rewrite (lcdReinit_stages _ _ _ Hl).
  rewrite (lcdReinit_rest _ _ lcd) by (apply live_sent; exact Hl).
  destruct (reinit_flag_bytes _ Hc) as (E1 & E2 & E3).
  eexists. split; [reflexivity|].
  cbn [lcdControl bus sent stored controlled].
  rewrite E1, E2, E3.
  split; [apply live_sent; eapply live_stored; apply live_controlled, live_sent; exact Hl|].
  split; [reflexivity|]. now rewrite <- app_assoc.
Qed.

Lemma lcdReinit_outcome_witness :
  live expander_state 0 expander_lcd /\ flags_ok expander_state /\
  exists st',
    lcdReinit 0 expander_state = Some (tt, st') /\
    live st' 0 (set_cx (set_cy expander_lcd 0) 0) /\
    lcdControl st' = 4 /\
    bus st' = bus expander_state ++ function_set_bus expander_lcd
              ++ [ Byte 0 (12 + lcdControl expander_state mod 4);
                   Byte 0 (12 + lcdControl expander_state mod 2);
                   Byte 0 12; Byte 0 1; Byte 0 2; Byte 0 6; Byte 0 0x14 ].
Proof.
  assert (H : live expander_state 0 expander_lcd)
    by (split; [unfold MAX_LCDS; lia | reflexivity]).
  assert (Hc : flags_ok expander_state) by (unfold flags_ok; simpl; lia).
  split; [exact H|]. split; [exact Hc|].
  exact (lcdReinit_outcome expander_state 0 expander_lcd H Hc).
Defined.

(** * The two constructors *)

Lemma lcdNew_live_handle config env st fd st' :
  well_formed st -> lcdNew config env st = Some (fd, st') -> fd <> -1 ->
  0 <= fd < MAX_LCDS /\
  exists lcd,
    live st' fd lcd /\
    bits lcd = Config.bits config /\ rows lcd = Config.rows config /\
    cols lcd = Config.cols config /\ cx lcd = 0 /\ cy lcd = 0.
Proof.
  intros [Hlen _] Hnew Hfd.
  destruct (lcdNew_handle _ _ _ _ _ Hnew Hfd)
    as (_ & _ & _ & Hrange & _ & lcd & Hl & Hgeo).
  rewrite (table_seen_length _ Hlen) in Hrange.
  split; [unfold MAX_LCDS in *; lia|].
  exists lcd. split; [|exact Hgeo].
  split; [unfold MAX_LCDS in *; lia|].
  rewrite Hl. apply list_lookup_insert_eq.
  rewrite (table_seen_length _ Hlen). lia.
Qed.

(** X13. [lcdInit] returns what [lcdNew] returns.  When that is -1 it has
    sent nothing and made no wiringPi call.  Otherwise the handle is
    in the table, [lcdReinit] has run on it to the end, the cursor is (0,0),
    the struct has the geometry of the configuration, and the controller has
    been handed the function-set stage first. *)
Theorem lcdInit_result config env st :
  well_formed st ->
  exists fd st1 st',
    lcdNew config env st = Some (fd, st1) /\
    lcdInit config env st = Some (fd, st') /\
    (fd = -1 -> st' = st1 /\ trace st' = trace st /\ bus st' = bus st) /\
    (fd <> -1 ->
       0 <= fd < MAX_LCDS /\
       lcdReinit fd st1 = Some (tt, st') /\
       exists lcd later,
         live st' fd lcd /\ cx lcd = 0 /\ cy lcd = 0 /\
         bits lcd = Config.bits config /\ rows lcd = Config.rows config /\
         cols lcd = Config.cols config /\
         bus st' = bus st ++ function_set_bus lcd ++ later).
Proof.
  intros Hw. unfold lcdInit.
  destruct (lcdNew_cases config env st) as [Hwhy|(Hv & Hf & Hm)].
  - destruct (lcdNew_refuses _ _ _ Hwhy) as (st1 & E & _ & _ & _ & Ht & Hb).
    exists (-1), st1, st1. split; [exact E|].
    split; [unfold bind; rewrite E; reflexivity|].
    split; [auto | congruence].
  - destruct (lcdNew_makes _ _ _ Hv Hf Hm)
      as (st1 & lcd0 & evs & E & _ & _ & _ & _ & Hb & _).
    destruct (lcdNew_live_handle _ _ _ _ _ Hw E Hf)
      as (Hrange & lcd & Hl & Hbits & Hrows & Hcols & Hx & Hy).
    destruct (lcdReinit_run _ _ _ Hl) as (evs' & xs & Hrun & _).
    eexists _, st1, _. split; [exact E|].
    split.
    { unfold bind. rewrite E.
      replace (find_free (table_seen st) 0 <? 0) with false by lia.
      rewrite Hrun. reflexivity. }
    split; [contradiction|]. intros _.
    split; [exact Hrange|]. split; [exact Hrun|].
    exists (set_cx (set_cy lcd 0) 0), xs.
    split; [apply live_sent; eapply live_stored; apply live_controlled; exact Hl|].
    cbn [cx cy bits rows cols set_cx set_cy bus sent stored controlled].
    rewrite Hb. repeat (split; [assumption || reflexivity|]).
    reflexivity.
Qed.

Lemma lcdInit_result_witness :
  well_formed boot /\
  exists fd st1 st',
    lcdNew expander_config fair boot = Some (fd, st1) /\
    lcdInit expander_config fair boot = Some (fd, st') /\
    (fd = -1 -> st' = st1 /\ trace st' = trace boot /\ bus st' = bus boot) /\
    (fd <> -1 ->
       0 <= fd < MAX_LCDS /\
       lcdReinit fd st1 = Some (tt, st') /\
       exists lcd later,
         live st' fd lcd /\ cx lcd = 0 /\ cy lcd = 0 /\
         bits lcd = Config.bits expander_config /\
         rows lcd = Config.rows expander_config /\
         cols lcd = Config.cols expander_config /\
         bus st' = bus boot ++ function_set_bus lcd ++ later).
Proof.
  assert (Hw : well_formed boot) by (split; [reflexivity | intros _; reflexivity]).
  split; [exact Hw|].
  exact (lcdInit_result expander_config fair boot Hw).
Defined.

(** What [lcdNew] does once the checks have passed, a slot is free and
    malloc has returned a block. *)
Lemma lcdNew_first_call st :
  let st1 := if initialised st =? 0
             then mkState (replicate (Z.to_nat MAX_LCDS) None) (lcdControl st) 1
                          (trace st) (bus st)
             else st in
  lcds st1 = table_seen st /\ initialised st1 <> 0 /\
  lcdControl st1 = lcdControl st /\ trace st1 = trace st /\ bus st1 = bus st.
Proof.
  unfold table_seen. destruct (initialised st =? 0) eqn:E; cbn; repeat split; lia.
Qed.

Lemma lcdNew_success config env st :
  valid config -> find_free (table_seen st) 0 <> -1 -> malloc_ok env = true ->
  let fd := find_free (table_seen st) 0 in
  let pins := [ Config.d0 config; Config.d1 config; Config.d2 config;
                Config.d3 config; Config.d4 config; Config.d5 config;
                Config.d6 config; Config.d7 config ] in
  let lcd := mkLcd (Config.bits config) (Config.rows config) (Config.cols config)
                   (Config.rs config) (Config.strb config) pins 0 0
                   (if truthy (Config.i2c_addr config) then i2c_setup env else 0)
                   (Config.backlight config) (Config.backlight_state config) in
  exists st',
    lcdNew config env st = Some (fd, st') /\
    lcds st' = <[Z.to_nat fd := Some lcd]> (table_seen st) /\
    bus st' = bus st /\ lcdControl st' = lcdControl st /\
    trace st' =
      trace st
      ++ (if truthy (Config.i2c_addr config)
          then [I2CSetup (Config.i2c_addr config) (i2c_setup env)] else [])
      ++ (if truthy (i2c_fd lcd)
          then [I2CWrite (i2c_fd lcd) (LCD_BACKLIGHT lcd)]
          else [ DigitalWrite (Config.rs config) 0; PinMode (Config.rs config) OUTPUT;
                 DigitalWrite (Config.strb config) 0; PinMode (Config.strb config) OUTPUT ]
               ++ flat_map (fun p => [DigitalWrite p 0; PinMode p OUTPUT])
                           (take (Z.to_nat (Config.bits config)) pins))
      ++ [Delay 35].
Proof.
  intros Hv Hf Hm fd pins lcd.
  assert (Hloop : init_loop lcd (Z.to_nat (bits lcd)) 0
                  = flat_map (fun p => [DigitalWrite p 0; PinMode p OUTPUT])
                             (take (Z.to_nat (Config.bits config)) pins)).
  { destruct Hv as [[Hb|Hb] _]; subst lcd pins; cbn [bits]; rewrite Hb; reflexivity. }
  pose proof (lcdNew_first_call st) as H1. cbv zeta in H1.
  unfold lcdNew. apply valid_checks in Hv as (-> & -> & ->).
  set (st1 := if initialised st =? 0 then _ else st) in *.
  destruct H1 as (Hl & Hi & Hc & Ht & Hb).
  rewrite Hl, Hm.
  replace (find_free (table_seen st) 0 =? -1) with false
    by (symmetry; apply Z.eqb_neq; exact Hf).
  cbn [negb]. fold pins. fold lcd. fold fd.
  unfold bind, emit, assign, delay, ret.
  destruct (truthy (Config.i2c_addr config)); destruct (truthy (i2c_fd lcd));
    (eexists; split; [reflexivity|]);
    cbn [lcds lcdControl trace bus sent stored];
    rewrite ?Hl, ?Hc, ?Ht, ?Hb, ?Hloop, <- ?app_assoc; cbn [app]; rewrite ?app_nil_r;
    repeat split.
Qed.

Lemma LCD_BACKLIGHT_value lcd :
  (backlight_state lcd <> 0 -> 0 <= backlight_bit lcd <= 30) ->
  LCD_BACKLIGHT lcd = if backlight_state lcd =? 0 then 0 else 2 ^ backlight_bit lcd.
Proof.
  intros H. unfold LCD_BACKLIGHT, truthy.
  destruct (Z.eqb_spec (backlight_state lcd) 0) as [E|E]; cbn [negb]; [reflexivity|].
  rewrite int_shl_defined by (try apply H; lia).
  rewrite Z.shiftl_mul_pow2 by (apply H; exact E). now rewrite Z.mul_1_l.
Qed.

(** X14. A successful [lcdNew] stores, in the first free slot, a struct
    filled from the configuration with the cursor at (0,0) and [i2c_fd] 0 or
    what wiringPiI2CSetup returned; it hands nothing to the controller and
    leaves the flags alone.  On the GPIO transport it drives RS, the strobe
    and the first [bits] data pins low and makes them outputs (with a 4-bit
    bus the pins d4..d7 are not touched); behind a port expander it writes
    once the backlight byte, 0 or [2 ^ backlight] (for a backlight bit in
    the range 0..30, where C defines [1 << backlight]); then it waits
    35 ms. *)
Theorem lcdNew_sets_up config env st :
  valid config -> find_free (table_seen st) 0 <> -1 -> malloc_ok env = true ->
  (Config.i2c_addr config <> 0 -> Config.backlight_state config <> 0 ->
   0 <= Config.backlight config <= 30) ->
  let fd := find_free (table_seen st) 0 in
  let pins := [ Config.d0 config; Config.d1 config; Config.d2 config;
                Config.d3 config; Config.d4 config; Config.d5 config;
                Config.d6 config; Config.d7 config ] in
  let lcd := mkLcd (Config.bits config) (Config.rows config) (Config.cols config)
                   (Config.rs config) (Config.strb config) pins 0 0
                   (if truthy (Config.i2c_addr config) then i2c_setup env else 0)
                   (Config.backlight config) (Config.backlight_state config) in
  exists st',
    lcdNew config env st = Some (fd, st') /\
    lcds st' = <[Z.to_nat fd := Some lcd]> (table_seen st) /\
    bus st' = bus st /\ lcdControl st' = lcdControl st /\
    trace st' =
      trace st
      ++ (if truthy (Config.i2c_addr config)
          then [I2CSetup (Config.i2c_addr config) (i2c_setup env)] else [])
      ++ (if truthy (i2c_fd lcd)
          then [I2CWrite (i2c_fd lcd)
                  (if Config.backlight_state config =? 0 then 0
                   else 2 ^ Config.backlight config)]
          else [ DigitalWrite (Config.rs config) 0; PinMode (Config.rs config) OUTPUT;
                 DigitalWrite (Config.strb config) 0; PinMode (Config.strb config) OUTPUT ]
               ++ flat_map (fun p => [DigitalWrite p 0; PinMode p OUTPUT])
                           (take (Z.to_nat (Config.bits config)) pins))
      ++ [Delay 35].
Proof.
  intros Hv Hf Hm Hbit fd pins lcd.
  destruct (lcdNew_success config env st Hv Hf Hm) as (st' & E & Hl & Hb & Hc & Ht).
  exists st'. split; [exact E|]. split; [exact Hl|]. split; [exact Hb|].
  split; [exact Hc|]. rewrite Ht. fold pins. fold lcd.
  destruct (truthy (i2c_fd lcd)) eqn:Efd; [|reflexivity].
  rewrite LCD_BACKLIGHT_value; [reflexivity|].
  subst lcd. cbn [backlight_state backlight_bit i2c_fd] in *. intros Hs.
  apply Hbit; [|exact Hs]. intros Ea. unfold truthy in Efd.
  rewrite Ea in Efd. discriminate.
Qed.

Lemma lcdNew_sets_up_witness :
  valid expander_config /\ find_free (table_seen boot) 0 <> -1 /\
  malloc_ok fair = true /\
  (Config.i2c_addr expander_config <> 0 -> Config.backlight_state expander_config <> 0 ->
   0 <= Config.backlight expander_config <= 30) /\
  exists st',
    lcdNew expander_config fair boot = Some (0, st') /\
    lcds st' = <[0%nat := Some expander_lcd]> (table_seen boot) /\
    bus st' = bus boot /\ lcdControl st' = lcdControl boot /\
    trace st' = trace boot ++ [I2CSetup 0x27 5] ++ [I2CWrite 5 8] ++ [Delay 35].
Proof.
  assert (Hv : valid expander_config) by (unfold valid; simpl; lia).
  assert (Hf : find_free (table_seen boot) 0 <> -1) by (vm_compute; discriminate).
  assert (Hm : malloc_ok fair = true) by reflexivity.
  assert (Hb : Config.i2c_addr expander_config <> 0 ->
               Config.backlight_state expander_config <> 0 ->
               0 <= Config.backlight expander_config <= 30)
    by (intros _ _; simpl; lia).
  split; [exact Hv|]. split; [exact Hf|]. split; [exact Hm|]. split; [exact Hb|].
  exact (lcdNew_sets_up expander_config fair boot Hv Hf Hm Hb).
Defined.

(** X15. A refused [lcdNew] has no effect beyond the first-call clearing of
    the table: no wiringPi call, nothing handed to a controller, the flags
    as they were. *)
Theorem lcdNew_refusal_is_silent config env st :
  ~ valid config \/ find_free (table_seen st) 0 = -1 \/ malloc_ok env = false ->
  exists st',
    lcdNew config env st = Some (-1, st') /\
    lcds st' = table_seen st /\
    trace st' = trace st /\ bus st' = bus st /\ lcdControl st' = lcdControl st.
Proof.
  intros Hwhy. destruct (lcdNew_refuses _ _ _ Hwhy) as (st' & E & Hl & _ & Hc & Ht & Hb).
  exists st'. auto.
Qed.

Lemma lcdNew_refusal_is_silent_witness :
  (~ valid tall_config \/ find_free (table_seen expander_state) 0 = -1
   \/ malloc_ok (mkEnv false 5) = false) /\
  exists st',
    lcdNew tall_config (mkEnv false 5) expander_state = Some (-1, st') /\
    lcds st' = table_seen expander_state /\
    trace st' = trace expander_state /\ bus st' = bus expander_state /\
    lcdControl st' = lcdControl expander_state.
Proof.
  assert (H : ~ valid tall_config \/ find_free (table_seen expander_state) 0 = -1
              \/ malloc_ok (mkEnv false 5) = false)
    by (right; right; reflexivity).
  split; [exact H|].
  exact (lcdNew_refusal_is_silent tall_config (mkEnv false 5) expander_state H).
Defined.

(** X16. [lcdNew] does not report a failed wiringPiI2CSetup: when an I2C
    address is configured and the set-up returns -1, the call still returns
    the handle of the free slot, the struct has [i2c_fd = -1], and the
    backlight byte, 0 or [2 ^ backlight] (for a backlight bit in the range
    0..30, where C defines [1 << backlight]), is written to the descriptor
    -1. *)
Theorem lcdNew_ignores_i2c_failure config env st :
  valid config -> find_free (table_seen st) 0 <> -1 -> malloc_ok env = true ->
  Config.i2c_addr config <> 0 -> i2c_setup env = -1 ->
  (Config.backlight_state config <> 0 -> 0 <= Config.backlight config <= 30) ->
  exists st' lcd,
    lcdNew config env st = Some (find_free (table_seen st) 0, st') /\
    0 <= find_free (table_seen st) 0 /\
    lcds st' !! Z.to_nat (find_free (table_seen st) 0) = Some (Some lcd) /\
    i2c_fd lcd = -1 /\
    trace st' = trace st ++ [ I2CSetup (Config.i2c_addr config) (-1);
                              I2CWrite (-1)
                                (if Config.backlight_state config =? 0 then 0
                                 else 2 ^ Config.backlight config);
                              Delay 35 ].
Proof.
  intros Hv Hf Hm Ha Hs Hbit.
  destruct (lcdNew_success config env st Hv Hf Hm) as (st' & E & Hl & _ & _ & Ht).
  pose proof (find_free_range _ 0 ltac:(lia) Hf) as Hr.
  unfold truthy in *.
  replace (Config.i2c_addr config =? 0) with false in *
    by (symmetry; apply Z.eqb_neq; exact Ha).
  cbn [negb i2c_fd] in *. rewrite Hs in *.
  change (negb (-1 =? 0)) with true in Ht. cbv iota in Ht.
  eexists st', _. split; [exact E|]. split; [lia|].
  split; [rewrite Hl; apply list_lookup_insert_eq; lia|].
  split; [reflexivity|]. rewrite Ht.
  rewrite LCD_BACKLIGHT_value by exact Hbit. reflexivity.
Qed.

Lemma lcdNew_ignores_i2c_failure_witness :
  valid expander_config /\ find_free (table_seen boot) 0 <> -1 /\
  malloc_ok (mkEnv true (-1)) = true /\
  Config.i2c_addr expander_config <> 0 /\ i2c_setup (mkEnv true (-1)) = -1 /\
  (Config.backlight_state expander_config <> 0 ->
   0 <= Config.backlight expander_config <= 30) /\
  exists st' lcd,
    lcdNew expander_config (mkEnv true (-1)) boot
      = Some (find_free (table_seen boot) 0, st') /\
    0 <= find_free (table_seen boot) 0 /\
    lcds st' !! Z.to_nat (find_free (table_seen boot) 0) = Some (Some lcd) /\
    i2c_fd lcd = -1 /\
    trace st' = trace boot ++ [ I2CSetup (Config.i2c_addr expander_config) (-1);
                                I2CWrite (-1) 8; Delay 35 ].
Proof.
  assert (Hv : valid expander_config) by (unfold valid; simpl; lia).
  assert (Hf : find_free (table_seen boot) 0 <> -1) by (vm_compute; discriminate).
  assert (Hm : malloc_ok (mkEnv true (-1)) = true) by reflexivity.
  assert (Ha : Config.i2c_addr expander_config <> 0) by (simpl; lia).
  assert (Hs : i2c_setup (mkEnv true (-1)) = -1) by reflexivity.
  assert (Hb : Config.backlight_state expander_config <> 0 ->
               0 <= Config.backlight expander_config <= 30)
    by (intros _; simpl; lia).
  repeat (split; [assumption|]).
  exact (lcdNew_ignores_i2c_failure expander_config (mkEnv true (-1)) boot
           Hv Hf Hm Ha Hs Hb).
Defined.

(** * Handles *)

Lemma find_free_occupied ls : forall t i,
  find_free (map Some ls ++ t) i = find_free t (i + Z.of_nat (length ls)).
Proof.
  induction ls as [|l ls IH]; intros t i; cbn [map app find_free length].
  - f_equal. lia.
  - rewrite IH. f_equal. lia.
Qed.

Lemma insert_first_free (ls : list lcdDataStruct) (lcd : lcdDataStruct) m :
  <[length ls := Some lcd]> (map Some ls ++ replicate (S m) None)
  = map Some (ls ++ [lcd]) ++ replicate m None.
Proof.
  rewrite insert_app_r_alt by (rewrite length_map; lia).
  rewrite length_map, Nat.sub_diag, map_app, <- app_assoc. reflexivity.
Qed.

(** The table after [k] successful calls: [k] structs, then free slots. *)
Lemma lcdNew_each_fills requests : forall st (ls : list lcdDataStruct),
  table_seen st = map Some ls ++ replicate (8 - length ls - length requests + length requests) None ->
  (length ls + length requests <= 8)%nat ->
  Forall (fun r => valid (fst r) /\ malloc_ok (snd r) = true) requests ->
  exists st' ls',
    lcdNew_each requests st
      = Some (map Z.of_nat (seq (length ls) (length requests)), st') /\
    table_seen st' = map Some ls' ++ replicate (8 - length ls') None /\
    length ls' = (length ls + length requests)%nat.
Proof.
  induction requests as [|[config env] requests IH]; intros st ls Ht Hlen Hok.
  - cbn [lcdNew_each length seq map]. exists st, ls.
    split; [reflexivity|]. split; [|lia].
    rewrite Ht. do 2 f_equal. cbn [length]. lia.
  - cbn [length] in *. inversion Hok as [|r rs [Hv Hm] Hok']; subst. cbn [fst snd] in *.
    assert (Hfree : find_free (table_seen st) 0 = Z.of_nat (length ls)).
    { rewrite Ht, find_free_occupied.
      replace (8 - length ls - S (length requests) + S (length requests))%nat
        with (S (8 - length ls - 1))%nat by lia.
      cbn [replicate find_free]. lia. }
    assert (Hf : find_free (table_seen st) 0 <> -1) by lia.
    destruct (lcdNew_makes _ _ _ Hv Hf Hm)
      as (st1 & lcd & evs & E & Hl & Hi & _).
    assert (Ht1 : table_seen st1
                  = map Some (ls ++ [lcd])
                    ++ replicate (8 - length (ls ++ [lcd]) - length requests
                                  + length requests) None).
    { unfold table_seen at 1.
      replace (initialised st1 =? 0) with false by (symmetry; apply Z.eqb_neq; exact Hi).
      rewrite Hl, Hfree, Ht, Nat2Z.id.
      replace (8 - length ls - S (length requests) + S (length requests))%nat
        with (S (8 - length ls - 1))%nat by lia.
      rewrite insert_first_free. do 2 f_equal. rewrite length_app. cbn [length]. lia. }
    destruct (IH st1 (ls ++ [lcd]) Ht1) as (st' & ls' & Hrun & Ht' & Hlen').
    { rewrite length_app. cbn [length]. lia. }
    { exact Hok'. }
    exists st', ls'. split.
    + cbn [lcdNew_each]. unfold bind. rewrite E, Hrun. unfold ret.
      rewrite Hfree. cbn [seq map]. do 3 f_equal.
      rewrite length_app. cbn [length].
      replace (length ls + 1)%nat with (S (length ls)) by lia. reflexivity.
    + split; [exact Ht'|]. rewrite Hlen', length_app. cbn [length]. lia.
Qed.

Lemma find_free_none table : forall i,
  (forall j, (j < length table)%nat -> exists l, table !! j = Some (Some l)) ->
  find_free table i = -1.
Proof.
  induction table as [|[l|] table IH]; intros i H; cbn [find_free].
  - reflexivity.
  - apply IH. intros j Hj. apply (H (S j)). cbn [length]. lia.
  - destruct (H 0%nat) as [l Hl]; [cbn [length]; lia | discriminate].
Qed.

(** On a full table [lcdNew] gives up and changes nothing. *)
Lemma lcdNew_full config env st : full st -> lcdNew config env st = Some (-1, st).
Proof.
  intros (Hi & Hlen & Hall). unfold lcdNew.
  replace (initialised st =? 0) with false by (symmetry; apply Z.eqb_neq; exact Hi).
  assert (Hf : find_free (lcds st) 0 = -1).
  { apply find_free_none. intros j Hj. rewrite Hlen in Hj.
    destruct (Hall (Z.of_nat j)) as (l & _ & Hl); [unfold MAX_LCDS in *; lia|].
    rewrite Nat2Z.id in Hl. eauto. }
  rewrite Hf. change (-1 =? -1) with true. cbv iota.
  destruct (negb _); [reflexivity|].
  destruct (_ || _); [reflexivity|].
  destruct (_ || _); reflexivity.
Qed.

Lemma full_call c st st' : full st -> run_call c st = Some (tt, st') -> full st'.
Proof.
  intros (Hi & Hlen & Hall) Hrun.
  destruct (Hall 0 ltac:(unfold MAX_LCDS; lia)) as (l0 & H0).
  destruct (run_call_keeps_handles _ _ _ _ _ Hi Hrun H0) as (Hi' & Hlen' & _).
  split; [exact Hi'|]. split; [congruence|].
  intros fd Hfd. destruct (Hall fd Hfd) as (l & Hl).
  destruct (run_call_keeps_handles _ _ _ _ _ Hi Hrun Hl) as (_ & _ & l' & Hl' & _).
  eauto.
Qed.

Lemma full_calls cs : forall st st',
  full st -> run_calls cs st = Some (tt, st') -> full st'.
Proof.
  induction cs as [|c cs IH]; intros st st' Hf Hrun; cbn [run_calls] in Hrun.
  - inversion Hrun; subst. exact Hf.
  - apply bind_inv in Hrun as (u & st1 & H1 & H2). destruct u.
    eapply IH; [|exact H2]. eapply full_call; eauto.
Qed.

(** X17. From program start, [lcdNew] called with acceptable configurations
    (and malloc succeeding) returns the handles 0, 1, 2, ... in this order,
    for up to eight calls.  After eight, the table is full for good:
    whatever calls of the interface follow, on handles or of the
    constructors, every call of [lcdNew] after them returns -1 and changes
    nothing. *)
Theorem handles_in_order requests :
  (length requests <= 8)%nat ->
  Forall (fun r => valid (fst r) /\ malloc_ok (snd r) = true) requests ->
  exists st',
    lcdNew_each requests boot
      = Some (map Z.of_nat (seq 0 (length requests)), st') /\
    (length requests = 8%nat ->
     forall cs st2, run_calls cs st' = Some (tt, st2) ->
     forall config env, lcdNew config env st2 = Some (-1, st2)).
Proof.
  intros Hlen Hok.
  destruct (lcdNew_each_fills requests boot []) as (st' & ls' & Hrun & Ht & Hl').
  - change (table_seen boot) with (replicate 8 (@None lcdDataStruct)).
    cbn [map app length]. f_equal. lia.
  - cbn [length]. lia.
  - exact Hok.
  - exists st'. split; [exact Hrun|].
    intros H8 cs st2 Hcs config env. cbn [length] in Hl'.
    apply lcdNew_full. apply (full_calls cs st'); [|exact Hcs].
    replace (8 - length ls')%nat with 0%nat in Ht by lia.
    cbn [replicate] in Ht. rewrite app_nil_r in Ht.
    assert (Hi : initialised st' <> 0).
    { intros Hi. unfold table_seen in Ht. rewrite Hi in Ht.
      change (0 =? 0) with true in Ht. cbv iota in Ht.
      destruct ls' as [|l ls']; [cbn [length] in Hl'; lia | discriminate]. }
    unfold table_seen in Ht.
    replace (initialised st' =? 0) with false in Ht
      by (symmetry; apply Z.eqb_neq; exact Hi).
    split; [exact Hi|]. split; [rewrite Ht, length_map; unfold MAX_LCDS; lia|].
    intros fd Hfd. unfold MAX_LCDS in Hfd.
    destruct (lookup_lt_is_Some_2 ls' (Z.to_nat fd)) as [l Hl]; [lia|].
    exists l. split; [unfold MAX_LCDS; lia|].
    rewrite Ht, list_lookup_fmap, Hl. reflexivity.
Qed.

Lemma handles_in_order_witness :
  (length (replicate 8 (gpio_config, fair)) <= 8)%nat /\
  Forall (fun r => valid (fst r) /\ malloc_ok (snd r) = true)
         (replicate 8 (gpio_config, fair)) /\
  exists st',
    lcdNew_each (replicate 8 (gpio_config, fair)) boot
      = Some (map Z.of_nat (seq 0 (length (replicate 8 (gpio_config, fair)))),
              st') /\
    (length (replicate 8 (gpio_config, fair)) = 8%nat ->
     forall cs st2, run_calls cs st' = Some (tt, st2) ->
     forall config env, lcdNew config env st2 = Some (-1, st2)).
Proof.
  assert (Hl : (length (replicate 8 (gpio_config, fair)) <= 8)%nat)
    by (simpl; lia).
  assert (Hok : Forall (fun r => valid (fst r) /\ malloc_ok (snd r) = true)
                       (replicate 8 (gpio_config, fair)))
    by (repeat constructor; unfold valid; simpl; lia).
  split; [exact Hl|]. split; [exact Hok|].
  exact (handles_in_order _ Hl Hok).
Defined.

(** X18. A handle is for life: once it is in the table (after the first
    [lcdNew]), no sequence of calls removes it or changes how it is wired:
    the transport ([i2c_fd]), the pins, the backlight bit and the geometry
    stay the same. *)
Theorem handle_for_life cs st st' fd lcd :
  initialised st <> 0 -> live st fd lcd ->
  run_calls cs st = Some (tt, st') ->
  exists lcd',
    live st' fd lcd' /\
    bits lcd' = bits lcd /\ rows lcd' = rows lcd /\ cols lcd' = cols lcd /\
    rsPin lcd' = rsPin lcd /\ strbPin lcd' = strbPin lcd /\
    dataPins lcd' = dataPins lcd /\ i2c_fd lcd' = i2c_fd lcd /\
    backlight_bit lcd' = backlight_bit lcd.
Proof.
  intros Hi Hl Hrun.
  destruct (run_calls_keep_handles cs _ _ _ _ Hi Hrun Hl) as (_ & _ & lcd' & Hl' & Hw).
  apply same_wiring_fields in Hw as (? & ? & ? & ? & ? & ? & ? & ?).
  exists lcd'. split; [exact Hl'|]. repeat split; congruence.
Qed.

Lemma handle_for_life_witness :
  initialised expander_state <> 0 /\ live expander_state 0 expander_lcd /\
  exists st',
    run_calls [On 0 (Backlight 0); New gpio_config fair; On 0 (Puts [72; 105]); On 1 Clear]
              expander_state = Some (tt, st') /\
    exists lcd',
      live st' 0 lcd' /\
      bits lcd' = bits expander_lcd /\ rows lcd' = rows expander_lcd /\
      cols lcd' = cols expander_lcd /\
      rsPin lcd' = rsPin expander_lcd /\ strbPin lcd' = strbPin expander_lcd /\
      dataPins lcd' = dataPins expander_lcd /\ i2c_fd lcd' = i2c_fd expander_lcd /\
      backlight_bit lcd' = backlight_bit expander_lcd.
Proof.
  assert (Hi : initialised expander_state <> 0) by (simpl; lia).
  assert (H : live expander_state 0 expander_lcd)
    by (split; [unfold MAX_LCDS; lia | reflexivity]).
  split; [exact Hi|]. split; [exact H|].
  compute_run (run_calls [On 0 (Backlight 0); New gpio_config fair;
                          On 0 (Puts [72; 105]); On 1 Clear] expander_state) E.
  eexists. split; [exact E|].
  exact (handle_for_life _ expander_state _ 0 expander_lcd Hi H E).
Defined.

(** * The backlight, and starting again from the top *)

Lemma truthy_eqb z : truthy z = negb (z =? 0).
Proof. reflexivity. Qed.

(** X19. [lcdBacklight] on a live handle always returns.  It stores the
    argument as given in the struct and changes no other field; the
    control flags, the bytes handed to the controller and every other
    handle are as before.  On a parallel display it makes no wiringPi call
    (no pin is driven for the backlight); on a port expander it makes
    exactly one write, of the backlight bit alone, so with RS, strobe and
    the data lines low: the byte is 0 for a zero argument and otherwise
    [2 ^ backlight_bit], for a backlight bit in the range 0..30 where C
    defines [1 << backlight_bit].  Calling it again with the same argument
    leaves the table as it is. *)
Theorem lcdBacklight_effect st fd lcd s :
  live st fd lcd ->
  (i2c_fd lcd <> 0 -> s <> 0 -> 0 <= backlight_bit lcd <= 30) ->
  exists st',
    lcdBacklight fd s st = Some (tt, st') /\
    live st' fd (set_backlight_state lcd s) /\
    (forall fd' l, fd' <> fd -> live st fd' l -> live st' fd' l) /\
    lcdControl st' = lcdControl st /\ bus st' = bus st /\
    trace st' = trace st ++
      (if i2c_fd lcd =? 0 then []
       else [I2CWrite (i2c_fd lcd)
               (if s =? 0 then 0 else 2 ^ backlight_bit lcd)]) /\
    exists st'',
      lcdBacklight fd s st' = Some (tt, st'') /\ lcds st'' = lcds st'.
Proof.
  intros Hl Hbit.
  assert (Hl' : forall t, lcds t = lcds (stored st fd (set_backlight_state lcd s)) ->
                          live t fd (set_backlight_state lcd s)).
  { intros t Et. pose proof (live_stored st fd lcd (set_backlight_state lcd s) Hl) as [Hr Hk].
    split; [exact Hr|]. now rewrite Et. }
  assert (Hother : forall t, lcds t = lcds (stored st fd (set_backlight_state lcd s)) ->
                   forall fd' l, fd' <> fd -> live st fd' l -> live t fd' l).
  { intros t Et fd' l Hne [Hr Hk]. split; [exact Hr|]. rewrite Et.
    cbn [lcds stored]. rewrite list_lookup_insert_ne; [exact Hk|].
    destruct Hl as [Hfd _]. intros E. apply Hne. lia. }
  assert (Hagain : forall t, lcds t = lcds (stored st fd (set_backlight_state lcd s)) ->
                   exists st'', lcdBacklight fd s t = Some (tt, st'') /\ lcds st'' = lcds t).
  { intros t Et. pose proof (Hl' t Et) as Ht.
    pose proof (lcdBacklight_run t fd _ s Ht) as Hrun. cbn zeta in Hrun.
    eexists. split; [exact Hrun|].
    assert (Es : lcds (stored t fd (set_backlight_state (set_backlight_state lcd s) s))
                 = lcds t).
    { replace (set_backlight_state (set_backlight_state lcd s) s)
        with (set_backlight_state lcd s) by (destruct lcd; reflexivity).
      now rewrite (stored_id t fd _ Ht). }
    destruct (truthy (i2c_fd (set_backlight_state lcd s))); exact Es. }
  pose proof (lcdBacklight_run st fd lcd s Hl) as Hrun. cbn zeta in Hrun.
  rewrite truthy_eqb in Hrun.
  destruct (i2c_fd lcd =? 0) eqn:Ei; cbn [negb] in Hrun;
    (eexists; split; [exact Hrun|]).
  - split; [now apply Hl'|]. split; [now apply Hother|].
    split; [reflexivity|]. split; [reflexivity|].
    split; [cbn [trace stored]; now rewrite app_nil_r|]. now apply Hagain.
  - split; [now apply Hl'|]. split; [now apply Hother|].
    split; [reflexivity|].
    split; [cbn [bus sent stored]; now rewrite app_nil_r|].
    split; [|now apply Hagain].
    cbn [trace sent stored]. unfold LCD_BACKLIGHT. rewrite truthy_eqb.
    replace (backlight_state (set_backlight_state lcd s)) with s
      by (destruct lcd; reflexivity).
    replace (backlight_bit (set_backlight_state lcd s)) with (backlight_bit lcd)
      by (destruct lcd; reflexivity).
    destruct (Z.eqb_spec s 0) as [Es|Es]; cbn [negb]; [reflexivity|].
    assert (Hb : 0 <= backlight_bit lcd <= 30) by (apply Hbit; lia).
    rewrite int_shl_defined by lia. rewrite Z.shiftl_mul_pow2 by lia.
    now rewrite Z.mul_1_l.
Qed.

Lemma lcdBacklight_effect_witness :
  (i2c_fd expander_lcd <> 0 -> 1 <> 0 -> 0 <= backlight_bit expander_lcd <= 30) /\
  exists st',
    lcdBacklight 0 1 expander_state = Some (tt, st') /\
    live st' 0 (set_backlight_state expander_lcd 1) /\
    (forall fd' l, fd' <> 0 -> live expander_state fd' l -> live st' fd' l) /\
    lcdControl st' = lcdControl expander_state /\ bus st' = bus expander_state /\
    trace st' = trace expander_state ++
      (if i2c_fd expander_lcd =? 0 then []
       else [I2CWrite (i2c_fd expander_lcd)
               (if 1 =? 0 then 0 else 2 ^ backlight_bit expander_lcd)]) /\
    exists st'',
      lcdBacklight 0 1 st' = Some (tt, st'') /\ lcds st'' = lcds st'.
Proof.
  assert (Hb : i2c_fd expander_lcd <> 0 -> 1 <> 0 -> 0 <= backlight_bit expander_lcd <= 30)
    by (intros _ _; simpl; lia).
  split; [exact Hb|].
  exact (lcdBacklight_effect expander_state 0 expander_lcd 1 expander_live Hb).
Defined.

(** X20. [lcdHome] and [lcdClear] put the cursor back on the display
    wherever it was, also after [lcdPosition] or a wrap had left it
    outside: on a live handle of a display with at least one column and
    one to four rows, either of them followed by [lcdPuts] always returns,
    with the cursor on the display, as many cells from the top left as the
    string has characters, modulo the size of the display.  The commands
    sent first are HOME, resp. CLEAR and then HOME, and the data bytes
    that follow are the characters of the string. *)
Theorem home_then_puts (clear : bool) st fd lcd string :
  live st fd lcd -> 1 <= cols lcd -> 1 <= rows lcd <= 4 ->
  exists st' lcd' xs,
    ((if clear then lcdClear fd else lcdHome fd) ;; lcdPuts fd string) st
      = Some (tt, st') /\
    live st' fd lcd' /\ same_panel lcd lcd' /\ on_display lcd' /\
    cell lcd' = Z.of_nat (length (until_nul string)) mod (rows lcd * cols lcd) /\
    bus st' = bus st ++
      (if clear then [Byte 0 LCD_CLEAR; Byte 0 LCD_HOME] else [Byte 0 LCD_HOME])
      ++ xs /\
    data_bytes xs = map uchar (until_nul string).
Proof.
  intros Hl Hc Hr.
  set (lcd0 := set_cx (set_cy lcd 0) 0).
  assert (Hp0 : same_panel lcd lcd0).
  { apply same_panel_set_cx, same_panel_set_cy, same_panel_refl. }
  assert (Hon0 : on_display lcd0).
  { unfold on_display. subst lcd0. destruct lcd; cbn in *. lia. }
  assert (Hcell0 : cell lcd0 = 0).
  { unfold cell. subst lcd0. destruct lcd; cbn. lia. }
  assert (Hdim : rows lcd0 = rows lcd /\ cols lcd0 = cols lcd).
  { subst lcd0. destruct lcd; cbn. auto. }
  destruct Hdim as [Er Ec].
  assert (Hgo : forall st1 pre,
            live st1 fd lcd0 -> bus st1 = bus st ++ pre ->
            exists st' lcd' xs,
              lcdPuts fd string st1 = Some (tt, st') /\
              live st' fd lcd' /\ same_panel lcd lcd' /\ on_display lcd' /\
              cell lcd' = Z.of_nat (length (until_nul string))
                          mod (rows lcd * cols lcd) /\
              bus st' = bus st ++ pre ++ xs /\
              data_bytes xs = map uchar (until_nul string)).
  { intros st1 pre Hl1 Hb1.
    assert (Hr0 : rows lcd0 <= 4) by lia.
    destruct (lcdPuts_cell fd string st1 lcd0 Hl1 Hr0 Hon0)
      as (st' & lcd' & Hrun & Hl2 & Hp2 & Hon2 & Hcell).
    destruct (lcdPuts_bus_of fd string st1 st' Hrun) as (xs & Hb & Hd).
    exists st', lcd', xs.
    split; [exact Hrun|]. split; [exact Hl2|].
    split; [exact (same_panel_trans _ _ _ Hp0 Hp2)|]. split; [exact Hon2|].
    split; [now rewrite Hcell, Hcell0, Er, Ec|].
    split; [now rewrite Hb, Hb1, <- app_assoc | exact Hd]. }
  destruct clear.
  - pose proof (lcdClear_run st fd lcd Hl) as H1.
    match type of H1 with _ = Some (tt, ?s1) =>
      destruct (Hgo s1 [Byte 0 LCD_CLEAR; Byte 0 LCD_HOME]) as (st' & lcd' & xs & Hrun & Hrest)
    end.
    + apply live_sent. apply live_stored with (lcd := lcd). now apply live_sent.
    + cbn [bus sent stored]. now rewrite app_nil_r.
    + exists st', lcd', xs. split; [|exact Hrest].
      unfold bind at 1. now rewrite H1.
  - pose proof (lcdHome_run st fd lcd Hl) as H1.
    match type of H1 with _ = Some (tt, ?s1) =>
      destruct (Hgo s1 [Byte 0 LCD_HOME]) as (st' & lcd' & xs & Hrun & Hrest)
    end.
    + apply live_sent. apply live_stored with (lcd := lcd). now apply live_sent.
    + cbn [bus sent stored]. now rewrite app_nil_r.
    + exists st', lcd', xs. split; [|exact Hrest].
      unfold bind at 1. now rewrite H1.
Qed.

Lemma home_then_puts_witness :
  live gpio_state 0 gpio_lcd /\ 1 <= cols gpio_lcd /\ 1 <= rows gpio_lcd <= 4 /\
  exists st' lcd' xs,
    (lcdClear 0 ;; lcdPuts 0 [72; 105]) gpio_state = Some (tt, st') /\
    live st' 0 lcd' /\ same_panel gpio_lcd lcd' /\ on_display lcd' /\
    cell lcd' = Z.of_nat (length (until_nul [72; 105]))
                mod (rows gpio_lcd * cols gpio_lcd) /\
    bus st' = bus gpio_state ++ [Byte 0 LCD_CLEAR; Byte 0 LCD_HOME] ++ xs /\
    data_bytes xs = map uchar (until_nul [72; 105]).
Proof.
  assert (Hc : 1 <= cols gpio_lcd) by (vm_compute; discriminate).
  assert (Hr : 1 <= rows gpio_lcd <= 4) by (split; vm_compute; discriminate).
  split; [exact gpio_live|]. split; [exact Hc|]. split; [exact Hr|].
  exact (home_then_puts true gpio_state 0 gpio_lcd [72; 105] gpio_live Hc Hr).
Defined.
